(** * Bulk insert tokenization: a shallow embedding of the three pipelines

    The repository holds three scripts that push tabular records to a
    tokenization service and write the returned tokens:

    - [tokenize_data.py] (module [Simple] below): CSV in, CSV out, with a
      failed-records file;
    - [CSV_Tokenization/tokenize_data_csv.py] (module [Csv]): config driven,
      with a skip list of columns;
    - [Postgres_Tokenization/tokenize_data_postgres.py] (module [Postgres]):
      the same pipeline over a PostgreSQL table.

    Python builtins that the scripts rely on are in module [Py]. *)

From Stdlib Require Import ZArith Lia Ascii String.
From stdpp Require Import base list gmap strings.

(** ** Python builtins *)

Module Py.

Inductive exn : Type :=
| IndexError
| ValueError
| KeyError
| UnboundLocalError
| JSONDecodeError.

Inductive result (A : Type) : Type :=
| Ok (a : A)
| Raise (e : exn).
Arguments Ok {A} a.
Arguments Raise {A} e.

Definition bind {A B} (c : result A) (k : A -> result B) : result B :=
  match c with
  | Ok a => k a
  | Raise e => Raise e
  end.

Definition raises {A} (c : result A) : bool :=
  match c with Ok _ => false | Raise _ => true end.

(** [len(range(start, stop, step))], as CPython computes it. *)
Definition range_len (start stop step : Z) : Z :=
  if (0 <? step)%Z then
    if (start <? stop)%Z then ((stop - 1 - start) / step + 1)%Z else 0%Z
  else if (step <? 0)%Z then
    if (stop <? start)%Z then ((start - 1 - stop) / (- step) + 1)%Z else 0%Z
  else 0%Z.

(** [range(start, stop, step)]; a zero step is a [ValueError]. *)
Definition range (start stop step : Z) : result (list Z) :=
  if (step =? 0)%Z then Raise ValueError
  else Ok (map (fun i : nat => (start + Z.of_nat i * step)%Z)
               (seq 0 (Z.to_nat (range_len start stop step)))).

(** A slice bound is clamped to [0, len]; a negative one counts from the end. *)
Definition slice_bound (len i : Z) : Z :=
  if (i <? 0)%Z then Z.max 0 (len + i) else Z.min i len.

(** [l[lo:hi]] *)
Definition slice {A} (l : list A) (lo hi : Z) : list A :=
  let n := Z.of_nat (length l) in
  let a := slice_bound n lo in
  let b := slice_bound n hi in
  take (Z.to_nat (b - a)) (drop (Z.to_nat a) l).

(** [l[i]] for a non-negative index. *)
Definition getitem {A} (l : list A) (i : nat) : result A :=
  match l !! i with
  | Some x => Ok x
  | None => Raise IndexError
  end.

(** [l.index(x)]: the first position of [x]. *)
Fixpoint index {A} `{EqDecision A} (x : A) (l : list A) : result nat :=
  match l with
  | [] => Raise ValueError
  | y :: l' => if decide (x = y) then Ok 0
               else bind (index x l') (fun i => Ok (S i))
  end.

(** [all(f(x) for x in l)] *)
Definition all {A} (f : A -> bool) (l : list A) : bool := forallb f l.

(** [zip(l, k)] stops at the shorter list. *)
Fixpoint zip {A B} (l : list A) (k : list B) : list (A * B) :=
  match l, k with
  | a :: l', b :: k' => (a, b) :: zip l' k'
  | _, _ => []
  end.

(** [enumerate(l)] *)
Definition enumerate {A} (l : list A) : list (nat * A) :=
  zip (seq 0 (length l)) l.

(** A [string] is a text of code points below 256, one [ascii] for each.
    On these [str.isspace] holds of the code points 9 to 13, 28 to 32, 133
    and 160, and [str.lower] adds 32 to the code points 65 to 90 (A to Z),
    192 to 214 and 216 to 222 (the capital letters with accents) and leaves
    the others. *)
Definition isspace (c : ascii) : bool :=
  let n := nat_of_ascii c in
  ((9 <=? n) && (n <=? 13)) || ((28 <=? n) && (n <=? 32))
  || (n =? 133) || (n =? 160).

Definition lower_char (c : ascii) : ascii :=
  let n := nat_of_ascii c in
  if ((65 <=? n) && (n <=? 90)) || ((192 <=? n) && (n <=? 214))
     || ((216 <=? n) && (n <=? 222))
  then ascii_of_nat (n + 32) else c.

Fixpoint lower (s : string) : string :=
  match s with
  | EmptyString => EmptyString
  | String c s' => String (lower_char c) (lower s')
  end.

Fixpoint lstrip (s : string) : string :=
  match s with
  | EmptyString => EmptyString
  | String c s' => if isspace c then lstrip s' else s
  end.

Fixpoint rstrip (s : string) : string :=
  match s with
  | EmptyString => EmptyString
  | String c s' =>
      match rstrip s' with
      | EmptyString => if isspace c then EmptyString else String c EmptyString
      | r => String c r
      end
  end.

Definition strip (s : string) : string := rstrip (lstrip s).

(** [s.split(sep)] for a one-character separator. *)
Fixpoint split (sep : ascii) (s : string) : list string :=
  match s with
  | EmptyString => [EmptyString]
  | String c s' =>
      if Ascii.eqb c sep then EmptyString :: split sep s'
      else match split sep s' with
           | [] => [String c EmptyString]
           | w :: ws => String c w :: ws
           end
  end.

(** Truthiness of a string. *)
Definition truthy (s : string) : bool :=
  match s with EmptyString => false | _ => true end.

(** What a file opened for reading in text mode, with the default
    [newline=None], makes of a text: a carriage return, alone or followed by
    a line feed, is read as one line feed. *)
Fixpoint universal_newlines (s : string) : string :=
  match s with
  | EmptyString => EmptyString
  | String c s' =>
      if Ascii.eqb c "013" then
        match s' with
        | String c' s'' =>
            if Ascii.eqb c' "010" then String "010" (universal_newlines s'')
            else String "010" (universal_newlines s')
        | EmptyString => String "010" EmptyString
        end
      else String c (universal_newlines s')
  end.

End Py.

Export Py(exn(..), result(..)).

Notation "'do' x <- c ; k" := (Py.bind c (fun x => k))
  (at level 10, x name, c at level 100, k at level 200).
Notation "'do' ' p <- c ; k" := (Py.bind c (fun x => match x with p => k end))
  (at level 10, p pattern, c at level 100, k at level 200).

(** [for x in l: body] with an accumulator, stopping at the first exception. *)
Fixpoint for_each {A S} (body : S -> A -> result S) (l : list A) (s : S) : result S :=
  match l with
  | [] => Ok s
  | x :: l' => do s' <- body s x; for_each body l' s'
  end.

(** A list comprehension whose element expression may raise. *)
Fixpoint comprehension {A B} (f : A -> result B) (l : list A) : result (list B) :=
  match l with
  | [] => Ok []
  | x :: l' => do y <- f x; do ys <- comprehension f l'; Ok (y :: ys)
  end.

(** ** Values shared by the three scripts *)

(** A source row as the [csv] reader or the database cursor hands it over. *)
Abbreviation row := (list string).

(** A cell handed to [csv.writer]: [None] is written as the empty string. *)
Definition csv_cell (v : option string) : string := default EmptyString v.

(** The rows that [csv.reader] finds in the temporary file. The rows were
    written by [csv.writer] to a file opened with [newline=''], which keeps
    the carriage returns of a cell inside its quotes; the file is read back
    in text mode with the default [newline], so the reader gets every cell
    with its carriage returns turned into line feeds. *)
Definition read_back (rows : list row) : list row :=
  map (map Py.universal_newlines) rows.

(** One entry of the ["records"] list of a service response:
    [record.get('skyflow_id')] and, when the key is there, [record['tokens']]. *)
Record ApiRecord : Type := {
  skyflow_id : option string;
  tokens : option (gmap string string)
}.

(** The decoded body of a response: the list under ["records"] when the key
    is there. *)
Record ResponseData : Type := {
  records : option (list ApiRecord)
}.

(** What [requests.post] returns; [body] is [None] when the text is not JSON,
    and [response.json()] raises then. *)
Record Response : Type := {
  status_code : Z;
  body : option ResponseData
}.

Definition json (response : Response) : result ResponseData :=
  match body response with
  | Some response_data => Ok response_data
  | None => Raise JSONDecodeError
  end.

(** The request body; [F] is the type of one ["fields"] object. *)
Record Payload (F : Type) : Type := {
  quorum : bool;
  payload_records : list F;
  tokenization : option bool
}.
Arguments quorum {F} _.
Arguments payload_records {F} _.
Arguments tokenization {F} _.

(** Messages of [logging.error]. *)
Inductive log_message : Type :=
| AttemptFailed (attempt : nat) (status : Z) (retrying_after_backoff : bool)
| UnexpectedResponseStructure
| FailedApiCall (status : Z)
| TokenizationUnsuccessful
| ErrorOccurred
| GeneratedException (e : exn).

(** What a worker does besides computing: the calls it posts, the time it
    sleeps and the errors it logs, in program order. *)
Inductive event (F : Type) : Type :=
| Post (payload : Payload F)
| Sleep (seconds : Z)
| LogError (message : log_message).
Arguments Post {F} payload.
Arguments Sleep {F} seconds.
Arguments LogError {F} message.

Definition is_post {F} (e : event F) : bool :=
  match e with Post _ => true | _ => false end.

Definition sleep_of {F} (e : event F) : option Z :=
  match e with Sleep n => Some n | _ => None end.

Definition posts {F} (trace : list (event F)) : list (Payload F) :=
  omap (fun e => match e with Post p => Some p | _ => None end) trace.

Definition sleeps {F} (trace : list (event F)) : list Z := omap sleep_of trace.

Definition errors {F} (trace : list (event F)) : list log_message :=
  omap (fun e => match e with LogError m => Some m | _ => None end) trace.

(** A computation that may raise and leaves a trace of events. *)
Definition eff (F A : Type) : Type := (result A * list (event F))%type.

Definition eff_ret {F A} (a : A) : eff F A := (Ok a, []).

Definition eff_bind {F A B} (c : eff F A) (k : A -> eff F B) : eff F B :=
  match c with
  | (Ok a, t) => let '(r, t') := k a in (r, t ++ t')
  | (Raise e, t) => (Raise e, t)
  end.

Definition lift {F A} (c : result A) : eff F A := (c, []).

Definition emit {F} (e : event F) : eff F unit := (Ok tt, [e]).

Notation "'perform' x <- c ; k" := (eff_bind c (fun x => k))
  (at level 10, x name, c at level 100, k at level 200).

(** The number of attempts of [make_api_call], in all three scripts. *)
Definition retries : nat := 3.

(** ** tokenize_data_csv.py *)

Module Csv.

(** [get_filtered_columns]: [skip_cfg] is the configured [skip_columns]
    value, [rows] the file with its header row first. *)
Definition get_filtered_columns (skip_cfg : string) (rows : list row)
  : result (list string * list string * list string) :=
  let skip_columns := Py.split "," skip_cfg in
  let skip_columns :=
    map (fun col => Py.lower (Py.strip col))
        (filter (fun col => Py.truthy (Py.strip col) = true) skip_columns) in
  do header <- Py.getitem rows 0;
  let all_columns := map Py.lower header in
  let filtered_columns := filter (fun col => col ∉ skip_columns) all_columns in
  Ok (filtered_columns, skip_columns, all_columns).

(** [fetch_file_data] *)
Definition fetch_file_data (rows : list row) (offset rows_per_chunk : Z)
  : result (list row * row) :=
  do first <- Py.getitem rows 0;
  Ok (Py.slice rows offset (offset + rows_per_chunk), first).

(** [get_file_row_count]: [rows] includes the header. *)
Definition get_file_row_count (rows : list row) : Z :=
  (Z.of_nat (length rows) - 1)%Z.

(** The chunks of the dispatch loop of [__main__], each with its offset:
    [for offset in range(0, row_count, rows_per_chunk)] and the
    [fetch_file_data] call of its body. *)
Definition chunks (data_rows : list row) (row_count rows_per_chunk : Z)
  : result (list (Z * list row)) :=
  do offsets <- Py.range 0 row_count rows_per_chunk;
  comprehension
    (fun offset =>
       do '(input_data, _) <- fetch_file_data data_rows offset rows_per_chunk;
       Ok (offset, input_data))
    offsets.

(** [make_api_call]: [post attempt] is the answer of the service to the
    call of that attempt. The loop keeps the last response in [response]. *)
Fixpoint attempt_loop {F} (post : nat -> Response) (payload : Payload F)
    (attempts : list nat) (response : option Response)
  : option Response * list (event F) :=
  match attempts with
  | [] => (response, [])
  | attempt :: rest =>
      let response := post attempt in
      if (status_code response =? 200)%Z then (Some response, [Post payload])
      else if (status_code response =? 429)%Z then
        let '(r, t) := attempt_loop post payload rest (Some response) in
        (r, Post payload
              :: LogError (AttemptFailed attempt (status_code response) true)
              :: Sleep 5 :: t)
      else
        let '(r, t) := attempt_loop post payload rest (Some response) in
        (r, Post payload
              :: LogError (AttemptFailed attempt (status_code response) false)
              :: Sleep 1 :: t)
  end.

Definition make_api_call {F} (post : nat -> Response) (payload : Payload F)
  : eff F Response :=
  let payload := {| quorum := quorum payload;
                    payload_records := payload_records payload;
                    tokenization := Some true |} in
  match attempt_loop post payload (seq 0 retries) None with
  | (Some response, t) => (Ok response, t)
  | (None, t) => (Raise UnboundLocalError, t)
  end.

(** The ["fields"] object of one row: the inner loop of the payload
    construction in [process_chunk]. [all_columns] starts with
    ['skyflow_id']. *)
Definition fields_of_row (row : row) (skip_columns all_columns : list string)
  : result (gmap string string) :=
  for_each
    (fun (fields : gmap string string) '(i, col) =>
       if decide (col ∈ skip_columns) then Ok fields
       else do v <- Py.getitem row i; Ok (<[col := v]> fields))
    (Py.enumerate (drop 1 all_columns)) ∅.

Definition build_payload (rows : list row) (skip_columns all_columns : list string)
  : result (Payload (gmap string string)) :=
  do recs <- comprehension (fun row => fields_of_row row skip_columns all_columns) rows;
  Ok {| quorum := false; payload_records := recs; tokenization := None |}.

(** ['records' in response_data and all('tokens' in record for record in ...)] *)
Definition well_structured (response_data : ResponseData) : bool :=
  match records response_data with
  | Some recs => Py.all (fun record => bool_decide (is_Some (tokens record))) recs
  | None => false
  end.

(** One [tokenized_row]. *)
Definition tokenized_row (recs : list ApiRecord) (i : nat) (row : row)
    (skip_columns all_columns : list string) : result (list (option string)) :=
  do record <- Py.getitem recs i;
  do cells <-
    comprehension
      (fun col =>
         if decide (col ∈ skip_columns) then
           do j <- Py.index col (drop 1 all_columns);
           do v <- Py.getitem row j;
           Ok (Some v)
         else
           do toks <- match tokens record with
                      | Some toks => Ok toks
                      | None => Raise KeyError
                      end;
           do j <- Py.index col (drop 1 all_columns);
           do v <- Py.getitem row j;
           Ok (Some (default v (toks !! col))))
      (drop 1 all_columns);
  Ok (skyflow_id record :: cells).

(** [process_chunk]; the arguments [headers], [columns], [api_url] and
    [write_skip_columns_as_is] have no part in what it computes. *)
Definition process_chunk (post : nat -> Response) (rows : list row)
    (skip_columns all_columns : list string)
  : eff (gmap string string) (list (list (option string))) :=
  perform payload <- lift (build_payload rows skip_columns all_columns);
  perform response <- make_api_call post payload;
  if (status_code response =? 200)%Z then
    perform response_data <- lift (json response);
    if well_structured response_data then
      lift (comprehension
              (fun '(i, row) =>
                 tokenized_row (default [] (records response_data)) i row
                               skip_columns all_columns)
              (Py.enumerate rows))
    else
      perform _ <- emit (LogError UnexpectedResponseStructure);
      eff_ret []
  else
    perform _ <- emit (LogError (FailedApiCall (status_code response)));
    eff_ret [].

(** *** The dispatch loop of [__main__] *)

Record Config : Type := {
  rows_per_chunk : Z;
  max_parallel_tasks : Z;
  skip_columns_cfg : string
}.

(** A submitted chunk: its offset and what [future.result()] gives. *)
Definition future : Type := (Z * result (list (list (option string))))%type.

(** The files and the log the run leaves behind. The script writes no
    other file: rows of a chunk that fails are kept nowhere. *)
Record world : Type := {
  temp_file : list row;
  output_file : option (list row);
  log : list (event (gmap string string))
}.

Definition files (w : world) : list (list row) :=
  temp_file w :: option_list (output_file w).

Section Run.

(** [server offset attempt]: the answer of the service to the given
    attempt of the chunk at [offset]. *)
Variable server : Z -> nat -> Response.

(** [concurrent.futures.as_completed]: the futures of one batch in the
    order in which the workers finish. *)
Variable as_completed : list future -> list future.

(** The loop over [as_completed(futures)]: a result that raises ends the
    run, the rows written so far stay in the temporary file. *)
Fixpoint collect (completed : list future) (temp : list row)
  : result unit * list row :=
  match completed with
  | [] => (Ok tt, temp)
  | (_, Raise e) :: _ => (Raise e, temp)
  | (_, Ok result) :: rest => collect rest (temp ++ map (map csv_cell) result)
  end.

Section Loop.

Variables (data_rows : list row) (row_count rows_per_chunk max_parallel_tasks : Z).
Variables (skip_columns all_columns : list string).

(** [for offset in range(0, row_count, rows_per_chunk)]. The events of a
    worker enter the log when its chunk is submitted. *)
Fixpoint dispatch (offsets : list Z) (futures : list future) (w : world)
  : result unit * world :=
  match offsets with
  | [] => (Ok tt, w)
  | offset :: rest =>
      match fetch_file_data data_rows offset rows_per_chunk with
      | Raise e => (Raise e, w)
      | Ok (input_data, _) =>
          let '(result, trace) :=
            process_chunk (server offset) input_data skip_columns all_columns in
          let futures := futures ++ [(offset, result)] in
          let w := {| temp_file := temp_file w; output_file := output_file w;
                      log := log w ++ trace |} in
          if (max_parallel_tasks <=? Z.of_nat (length futures))%Z
             || (row_count <=? offset + rows_per_chunk)%Z
          then
            match collect (as_completed futures) (temp_file w) with
            | (Ok _, temp) =>
                dispatch rest []
                  {| temp_file := temp; output_file := output_file w; log := log w |}
            | (Raise e, temp) =>
                (Raise e,
                 {| temp_file := temp; output_file := output_file w; log := log w |})
            end
          else dispatch rest futures w
      end
  end.

End Loop.

Definition start : world := {| temp_file := []; output_file := None; log := [] |}.

(** [__main__] from the point where the input file has been read into
    [rows] and the bearer token obtained. *)
Definition main (config : Config) (rows : list row) : result unit * world :=
  match Py.getitem rows 0 with
  | Raise e => (Raise e, start)
  | Ok headers_row =>
      let data_rows := drop 1 rows in
      let row_count := get_file_row_count rows in
      match get_filtered_columns (skip_columns_cfg config) ([headers_row] ++ data_rows) with
      | Raise e => (Raise e, start)
      | Ok (filtered_columns, skip_columns, all_columns) =>
          let all_columns := "skyflow_id" :: all_columns in
          (* ThreadPoolExecutor(max_workers=max_parallel_tasks) *)
          if (max_parallel_tasks config <=? 0)%Z then (Raise ValueError, start)
          else
            match Py.range 0 row_count (rows_per_chunk config) with
            | Raise e => (Raise e, start)
            | Ok offsets =>
                match dispatch data_rows row_count (rows_per_chunk config)
                               (max_parallel_tasks config) skip_columns all_columns
                               offsets [] start with
                | (Raise e, w) => (Raise e, w)
                | (Ok _, w) =>
                    (* the temporary file is read back in text mode *)
                    let tokenized_data := read_back (temp_file w) in
                    (* write_tokenized_data_to_file *)
                    let headers := "skyflow_id" :: headers_row in
                    (Ok tt,
                     {| temp_file := temp_file w;
                        output_file := Some (headers :: tokenized_data);
                        log := log w |})
                end
            end
      end
  end.

End Run.

(** [token_provider]: [api_bearer_token] and [path] are the two values of
    the configuration ([None] for a missing key), [generate_bearer_token] the
    call into the service SDK. An empty value counts as false. *)
Definition truthy_value (v : option string) : bool :=
  match v with
  | Some s => Py.truthy s
  | None => false
  end.

Definition token_provider (generate_bearer_token : string -> result (string * string))
    (path_to_credentials_json api_bearer_token : option string)
  : result (string * string) :=
  let bearerToken := api_bearer_token in
  if truthy_value bearerToken then Ok (default EmptyString bearerToken, "Bearer")
  else if truthy_value path_to_credentials_json then
    generate_bearer_token (default EmptyString path_to_credentials_json)
  else Raise ValueError.

End Csv.

(** ** tokenize_data_postgres.py *)

Module Postgres.

(** [get_filtered_columns]: [column_names] is the answer of the
    [information_schema.columns] query. *)
Definition get_filtered_columns (skip_cfg : string) (column_names : list string)
  : list string * list string * list string :=
  let skip_columns := Py.split "," skip_cfg in
  let skip_columns :=
    map (fun col => Py.lower (Py.strip col))
        (filter (fun col => Py.truthy (Py.strip col) = true) skip_columns) in
  let all_columns := map Py.lower column_names in
  let filtered_columns :=
    filter (fun col => Py.lower col ∉ skip_columns) all_columns in
  (filtered_columns, skip_columns, all_columns).

(** [make_api_call] and [process_chunk] have the text of the CSV script. *)
Definition make_api_call {F} := @Csv.make_api_call F.
Definition build_payload := Csv.build_payload.
Definition process_chunk := Csv.process_chunk.

(** What [insert_pg_data] does, in program order. *)
Inductive insert_event : Type :=
| Execute (values : row)
| LogMismatch (expected got : nat)
| LogInsertFailed (values : row)
| PbarUpdate.

(** [insert_pg_data]: the loop over [data]. [execute n values] says whether
    the [n]-th call of [cursor.execute] succeeds; an exception of the call
    is caught and logged. *)
Fixpoint insert_pg_data (execute : nat -> row -> bool) (all_columns : list string)
    (data : list row) (calls : nat) : list insert_event :=
  match data with
  | [] => []
  | values :: data' =>
      if negb (length values =? length all_columns) then
        LogMismatch (length all_columns) (length values)
          :: insert_pg_data execute all_columns data' calls
      else if execute calls values then
        Execute values :: PbarUpdate
          :: insert_pg_data execute all_columns data' (S calls)
      else
        Execute values :: LogInsertFailed values :: PbarUpdate
          :: insert_pg_data execute all_columns data' (S calls)
  end.

End Postgres.

(** ** tokenize_data.py *)

Module Simple.

(** A row as [csv.DictReader] yields it: the value of each field name
    ([None] where the line was too short) and, where the line was too
    long, the surplus values under the key [None]. *)
Record DictRow : Type := {
  known : gmap string (option string);
  rest : option (list string)
}.

(** [dict(zip(fieldnames, row))] and the two corrections of
    [DictReader.__next__]. *)
Definition dict_of_row (fieldnames : list string) (r : row) : DictRow :=
  let d := foldl (fun (d : gmap string (option string)) '(k, v) => <[k := Some v]> d)
                 ∅ (Py.zip fieldnames r) in
  let lf := length fieldnames in
  let lr := length r in
  if lf <? lr then {| known := d; rest := Some (drop lf r) |}
  else if lr <? lf then
    {| known := foldl (fun (d : gmap string (option string)) key => <[key := None]> d)
                      d (drop lr fieldnames);
       rest := None |}
  else {| known := d; rest := None |}.

(** [original_row.get(field)] *)
Definition get (d : DictRow) (field : string) : option string :=
  mjoin (known d !! field).

(** [bool(row)] for a dictionary. *)
Definition truthy (d : DictRow) : bool :=
  negb (bool_decide (known d = ∅)) || bool_decide (is_Some (rest d)).

(** [next(reader, None)]: the reader skips empty lines. *)
Fixpoint next (fieldnames : list string) (reader : list row)
  : option DictRow * list row :=
  match reader with
  | [] => (None, [])
  | [] :: reader' => next fieldnames reader'
  | r :: reader' => (Some (dict_of_row fieldnames r), reader')
  end.

(** [[next(reader, None) for _ in range(ROWS_PER_CHUNK)]] *)
Fixpoint next_rows (fieldnames : list string) (n : nat) (reader : list row)
  : list (option DictRow) * list row :=
  match n with
  | 0 => ([], reader)
  | S n' =>
      let '(r, reader) := next fieldnames reader in
      let '(rs, reader) := next_rows fieldnames n' reader in
      (r :: rs, reader)
  end.

(** The [while True] loop that fills [chunks]; [None] when [fuel] runs out. *)
Fixpoint chunk_loop (fuel : nat) (fieldnames : list string) (ROWS_PER_CHUNK : Z)
    (reader : list row) (chunks : list (list DictRow))
  : option (list (list DictRow)) :=
  match fuel with
  | 0 => None
  | S fuel' =>
      let '(rows, reader) := next_rows fieldnames (Z.to_nat ROWS_PER_CHUNK) reader in
      let rows := omap (fun r : option DictRow =>
                          match r with
                          | Some d => if truthy d then Some d else None
                          | None => None
                          end) rows in
      match rows with
      | [] => Some chunks
      | _ => chunk_loop fuel' fieldnames ROWS_PER_CHUNK reader (chunks ++ [rows])
      end
  end.

(** [make_api_call]: one second of sleep after every failed attempt. *)
Fixpoint attempt_loop {F} (post : nat -> Response) (payload : Payload F)
    (attempts : list nat) (response : option Response)
  : option Response * list (event F) :=
  match attempts with
  | [] => (response, [])
  | attempt :: rest =>
      let response := post attempt in
      if (status_code response =? 200)%Z then (Some response, [Post payload])
      else
        let '(r, t) := attempt_loop post payload rest (Some response) in
        (r, Post payload
              :: LogError (AttemptFailed attempt (status_code response) false)
              :: Sleep 1 :: t)
  end.

Definition make_api_call {F} (post : nat -> Response) (payload : Payload F)
  : eff F Response :=
  match attempt_loop post payload (seq 0 retries) None with
  | (Some response, t) => (Ok response, t)
  | (None, t) => (Raise UnboundLocalError, t)
  end.

(** [csv.DictWriter._dict_to_list]: a key outside [fieldnames] is a
    [ValueError]; a missing key and a [None] value are written empty.
    [extra] says that the dictionary has the key [None]. *)
Definition dict_to_list (fieldnames : list string)
    (d : gmap string (option string)) (extra : bool) : result row :=
  if extra || negb (bool_decide (dom d ⊆ list_to_set fieldnames))
  then Raise ValueError
  else Ok (map (fun key => csv_cell (mjoin (d !! key))) fieldnames).

(** [writer.writerows(rows)]: the rows before the one that raises are
    written. *)
Fixpoint writerows (fieldnames : list string) (rows : list DictRow) (file : list row)
  : result unit * list row :=
  match rows with
  | [] => (Ok tt, file)
  | d :: rows' =>
      match dict_to_list fieldnames (known d) (bool_decide (is_Some (rest d))) with
      | Raise e => (Raise e, file)
      | Ok cells => writerows fieldnames rows' (file ++ [cells])
      end
  end.

(** The dictionary [row] that [process_chunk] builds for one output line. *)
Definition output_dict (fieldnames : list string) (original_row : DictRow)
    (record : ApiRecord) : gmap string (option string) :=
  let toks : gmap string string := default ∅ (tokens record) in
  foldl (fun (r : gmap string (option string)) field =>
           <[field := match toks !! field with
                      | Some t => Some t
                      | None => get original_row field
                      end]> r)
        {[ "skyflow_id" := skyflow_id record ]} fieldnames.

(** The loop over [zip(rows, response_data.get('records', []))]. *)
Fixpoint write_output (fieldnames : list string)
    (pairs : list (DictRow * ApiRecord)) (file : list row)
  : result unit * list row :=
  match pairs with
  | [] => (Ok tt, file)
  | (original_row, record) :: pairs' =>
      match dict_to_list ("skyflow_id" :: fieldnames)
                         (output_dict fieldnames original_row record) false with
      | Raise e => (Raise e, file)
      | Ok cells => write_output fieldnames pairs' (file ++ [cells])
      end
  end.

(** The files of a run and its log. *)
Record world : Type := {
  temp_output : list row;
  failed_records : list row;
  output_csv : list row;
  log : list (event DictRow)
}.

(** ['records' in response_data and all('tokens' in record for record in ...)] *)
Definition well_structured (response_data : ResponseData) : bool :=
  match records response_data with
  | Some recs => Py.all (fun record => bool_decide (is_Some (tokens record))) recs
  | None => false
  end.

(** [process_chunk] *)
Definition process_chunk (post : nat -> Response) (rows : list DictRow)
    (fieldnames : list string) (w : world) : result unit * world :=
  let payload := {| quorum := false; payload_records := rows;
                    tokenization := Some true |} in
  match make_api_call post payload with
  | (Raise e, t) =>
      (Raise e, {| temp_output := temp_output w; failed_records := failed_records w;
                   output_csv := output_csv w; log := log w ++ t |})
  | (Ok response, t) =>
      if (status_code response =? 200)%Z then
        match json response with
        | Raise e =>
            (Raise e, {| temp_output := temp_output w; failed_records := failed_records w;
                         output_csv := output_csv w; log := log w ++ t |})
        | Ok response_data =>
            let t' := if well_structured response_data then []
                      else [LogError TokenizationUnsuccessful] in
            let '(r, temp) :=
              write_output fieldnames
                (Py.zip rows (default [] (records response_data))) (temp_output w) in
            (r, {| temp_output := temp; failed_records := failed_records w;
                   output_csv := output_csv w; log := log w ++ t ++ t' |})
        end
      else
        let '(r, failed) := writerows fieldnames rows (failed_records w) in
        (r, {| temp_output := temp_output w; failed_records := failed;
               output_csv := output_csv w;
               log := log w ++ t ++ [LogError ErrorOccurred] |})
  end.

(** The two files to which the workers append. *)
Inductive file : Type := TempOutput | FailedRecords.

(** A world in which nothing is written yet. *)
Definition nothing : world :=
  {| temp_output := []; failed_records := []; output_csv := []; log := [] |}.

(** What blocks that are written at the same time leave behind, when
    [concurrent] says what two or more writers leave: a worker that has
    nothing to write leaves nothing, and the block of a single writer
    arrives as it is. *)
Definition merged {A} (concurrent : list (nat * list A) -> list A)
    (blocks : list (nat * list A)) : list A :=
  match filter (fun block : nat * list A => block.2 <> []) blocks with
  | [] => []
  | [block] => block.2
  | writers => concurrent writers
  end.

Section Run.

(** [server i attempt]: the answer to the given attempt of chunk [i]. *)
Variable server : nat -> nat -> Response.

(** The workers of the pool run at the same time. Each of them appends its
    lines through a file object of its own and the script takes no lock, so
    what the lines of several workers make of a file is not in the hands of
    the script: [concurrent_appends f blocks] is the content that the blocks,
    each with the number of its chunk, leave in the file [f]. Nothing is
    assumed of it: the blocks may arrive one after the other in any order,
    or in pieces. [concurrent_log] is the same for the records of the log. *)
Variable concurrent_appends : file -> list (nat * list row) -> list row.
Variable concurrent_log :
  list (nat * list (event DictRow)) -> list (event DictRow).

(** One worker: an exception of [process_chunk] is caught by the loop over
    [as_completed] and logged. *)
Definition worker (fieldnames : list string) (w : world)
    (chunk : nat * list DictRow) : world :=
  match process_chunk (server chunk.1) chunk.2 fieldnames w with
  | (Ok _, w') => w'
  | (Raise e, w') =>
      {| temp_output := temp_output w'; failed_records := failed_records w';
         output_csv := output_csv w';
         log := log w' ++ [LogError (GeneratedException e)] |}
  end.

(** [ThreadPoolExecutor(max_workers=MAX_PARALLEL_TASKS)]: a pool of one
    thread runs the chunks one after the other, in the order in which they
    were submitted; a larger pool runs them at the same time. The parser
    admits the values 1 to 7. *)
Definition appended (MAX_PARALLEL_TASKS : Z) (f : file)
    (blocks : list (nat * list row)) : list row :=
  if (MAX_PARALLEL_TASKS =? 1)%Z then flat_map snd blocks
  else merged (concurrent_appends f) blocks.

(** The script from the point where the arguments are parsed and the
    bearer token obtained: [fieldnames] and [lines] are the header and the
    other lines of the input file, [w] the files as an earlier run left
    them. [None] only if the chunk loop runs out of fuel. *)
Definition main (MAX_PARALLEL_TASKS ROWS_PER_CHUNK : Z) (fieldnames : list string)
    (lines : list row) (w : world) : option world :=
  (* the temporary file is new, the failed records file is cleared *)
  let w := {| temp_output := []; failed_records := [];
              output_csv := output_csv w; log := [] |} in
  (* the header of the temporary file *)
  let w := {| temp_output := temp_output w ++ [ "skyflow_id" :: fieldnames ];
              failed_records := failed_records w;
              output_csv := output_csv w; log := log w |} in
  match chunk_loop (S (length lines)) fieldnames ROWS_PER_CHUNK lines [] with
  | None => None
  | Some chunks =>
      (* what each worker appends and logs *)
      let done :=
        map (fun chunk : nat * list DictRow =>
               (chunk.1, worker fieldnames nothing chunk))
            (Py.enumerate chunks) in
      let temp :=
        temp_output w
          ++ appended MAX_PARALLEL_TASKS TempOutput
               (map (fun run : nat * world => (run.1, temp_output run.2)) done) in
      let failed :=
        failed_records w
          ++ appended MAX_PARALLEL_TASKS FailedRecords
               (map (fun run : nat * world => (run.1, failed_records run.2)) done) in
      (* the temporary file is read back in text mode and copied to the
         output file *)
      Some {| temp_output := temp; failed_records := failed;
              output_csv := read_back temp;
              log := log w
                       ++ merged concurrent_log
                            (map (fun run : nat * world => (run.1, log run.2)) done) |}
  end.

End Run.

(** The two global variables of [token_provider]. *)
Record token_state : Type := {
  bearerToken : string;
  tokenType : string
}.

(** [token_provider]: [BEARER_TOKEN] and [PATH_TO_CREDENTIALS_JSON] are the
    command line values, [is_expired] and [generate_bearer_token] the calls
    into the service SDK. *)
Definition token_provider (is_expired : string -> bool)
    (generate_bearer_token : option string -> result (string * string))
    (BEARER_TOKEN PATH_TO_CREDENTIALS_JSON : option string) (g : token_state)
  : result (string * string) * token_state :=
  if negb (match BEARER_TOKEN with Some s => Py.truthy s | None => false end) then
    if is_expired (bearerToken g) then
      match generate_bearer_token PATH_TO_CREDENTIALS_JSON with
      | Ok (b, t) => (Ok (b, t), {| bearerToken := b; tokenType := t |})
      | Raise e => (Raise e, g)
      end
    else (Ok (bearerToken g, tokenType g), g)
  else
    let b := default EmptyString BEARER_TOKEN in
    (Ok (b, "Bearer"), {| bearerToken := b; tokenType := "Bearer" |}).

End Simple.

(** * Vocabulary of the properties *)

(** The response with which [make_api_call] returns: the first of the three
    attempts that has status 200, else the third. *)
Definition outcome (post : nat -> Response) : Response :=
  if (status_code (post 0%nat) =? 200)%Z then post 0
  else if (status_code (post 1%nat) =? 200)%Z then post 1
  else post 2.

(** The payload as [make_api_call] of the CSV and PostgreSQL scripts sends it. *)
Definition sent {F} (payload : Payload F) : Payload F :=
  {| quorum := quorum payload;
     payload_records := payload_records payload;
     tokenization := Some true |}.

(** Two lists of columns that split a third one. *)
Definition columns_partition (tokenize skip all : list string) : Prop :=
  (list_to_set tokenize : gset string) ∩ list_to_set skip = ∅ /\
  (list_to_set tokenize : gset string) ∪ list_to_set skip = list_to_set all.

(** The same, with the skip entries that name no column left aside. *)
Definition columns_reconciled (tokenize skip all : list string) : Prop :=
  (list_to_set tokenize : gset string) ∩ list_to_set skip = ∅ /\
  (list_to_set tokenize : gset string) ∪ (list_to_set skip ∩ list_to_set all)
    = list_to_set all /\
  (list_to_set tokenize : gset string) ∪ list_to_set skip
    = list_to_set all ∪ list_to_set skip.

(** A client that, against a service that always answers 429, posts three
    times, sleeps five seconds each time and returns a response with that
    status. *)
Definition backs_off_five_seconds {F}
    (client : (nat -> Response) -> Payload F -> eff F Response) : Prop :=
  forall post payload,
    (forall attempt, status_code (post attempt) = 429%Z) ->
    length (posts (client post payload).2) = 3 /\
    Forall (fun seconds => seconds = 5%Z) (sleeps (client post payload).2) /\
    exists response,
      (client post payload).1 = Ok response /\ status_code response = 429%Z.

(** The cell of an output row of the CSV script at position [j], under
    column [col]: the value of the row for a column on the skip list, else
    the token of the record for the column if it has one, else the value of
    the row. *)
Definition expected_cell (skip : list string) (record : ApiRecord) (r : row)
    (j : nat) (col : string) : option string :=
  if decide (col ∈ skip) then r !! j
  else match default ∅ (tokens record) !! col with
       | Some t => Some t
       | None => r !! j
       end.

(** The same for [tokenize_data.py], which has no skip list. *)
Definition token_or_original (record : ApiRecord) (original_row : Simple.DictRow)
    (field : string) : option string :=
  match default ∅ (tokens record) !! field with
  | Some t => Some t
  | None => Simple.get original_row field
  end.

(** The line that [tokenize_data.py] writes for a row and its record. A
    source column named [skyflow_id] takes the place of the id of the
    record. *)
Definition output_line (fieldnames : list string) (original_row : Simple.DictRow)
    (record : ApiRecord) : row :=
  csv_cell (if decide ("skyflow_id" ∈ fieldnames)
            then token_or_original record original_row "skyflow_id"
            else skyflow_id record)
  :: map (fun field => csv_cell (token_or_original record original_row field)) fieldnames.

(** The lines that a worker of [tokenize_data.py] appends to the temporary
    file and to the failed records file. *)
Definition chunk_output (post : nat -> Response) (rows : list Simple.DictRow)
    (fieldnames : list string) : list row :=
  if (status_code (outcome post) =? 200)%Z then
    match body (outcome post) with
    | Some response_data =>
        map (fun '(original_row, record) => output_line fieldnames original_row record)
            (Py.zip rows (default [] (records response_data)))
    | None => []
    end
  else [].

Definition chunk_failed (post : nat -> Response) (rows : list Simple.DictRow)
    (fieldnames : list string) : list row :=
  if (status_code (outcome post) =? 200)%Z then []
  else (Simple.writerows fieldnames rows []).2.

(** The values of a dictionary row in the order of the field names. *)
Definition values_in_field_order (fieldnames : list string) (d : Simple.DictRow) : row :=
  map (fun field => csv_cell (Simple.get d field)) fieldnames.

(** A chunk whose three attempts all get a status other than 200. *)
Definition fails (post : nat -> Response) : bool :=
  forallb (fun attempt => negb (status_code (post attempt) =? 200)%Z) (seq 0 retries).

(** A chunk of [n] rows that is answered, at the first attempt with status
    200, by [n] records that each have a token map. *)
Definition succeeds (post : nat -> Response) (n : nat) : bool :=
  (status_code (outcome post) =? 200)%Z &&
  match body (outcome post) with
  | Some {| records := Some recs |} =>
      (length recs =? n)
      && forallb (fun record => bool_decide (is_Some (tokens record))) recs
  | _ => false
  end.

(** The future that the dispatch loop of the CSV script submits for the
    chunk at [offset]. *)
Definition submitted (server : Z -> nat -> Response) (data_rows : list row)
    (rows_per_chunk : Z) (skip all_columns : list string) (offset : Z) : Csv.future :=
  (offset,
   (Csv.process_chunk (server offset)
      (Py.slice data_rows offset (offset + rows_per_chunk)) skip all_columns).1).

(** The batches of offsets that the dispatch loop hands to [as_completed]:
    a batch is closed when it has [max_parallel_tasks] chunks or when its
    last chunk reaches the end of the rows. *)
Fixpoint batches (max_parallel_tasks row_count rows_per_chunk : Z)
    (offsets pending : list Z) : list (list Z) :=
  match offsets with
  | [] => []
  | offset :: rest =>
      let pending := pending ++ [offset] in
      if (max_parallel_tasks <=? Z.of_nat (length pending))%Z
         || (row_count <=? offset + rows_per_chunk)%Z
      then pending :: batches max_parallel_tasks row_count rows_per_chunk rest []
      else batches max_parallel_tasks row_count rows_per_chunk rest pending
  end.

(** The lines that the result of a future adds to the temporary file. *)
Definition written (f : Csv.future) : list row :=
  match f.2 with
  | Ok result => map (map csv_cell) result
  | Raise _ => []
  end.

(** The attempts of [make_api_call] that get a status other than 200 before
    the call returns. *)
Definition failed_attempts (post : nat -> Response) : list nat :=
  if (status_code (post 0%nat) =? 200)%Z then []
  else if (status_code (post 1%nat) =? 200)%Z then [0]
  else if (status_code (post 2%nat) =? 200)%Z then [0; 1]
  else [0; 1; 2].

(** The sleep of the CSV and PostgreSQL clients after a failed attempt. *)
Definition backoff (status : Z) : Z := if (status =? 429)%Z then 5%Z else 1%Z.

(** A line filled up with empty values to the number of field names. *)
Definition padded (fieldnames : list string) (line : row) : row :=
  line ++ replicate (length fieldnames - length line) EmptyString.

(** The rows that [insert_pg_data] hands to [cursor.execute]. *)
Definition executed (trace : list Postgres.insert_event) : list row :=
  omap (fun e => match e with Postgres.Execute values => Some values | _ => None end) trace.

Definition pbar_updates (trace : list Postgres.insert_event) : nat :=
  length (omap (fun e => match e with Postgres.PbarUpdate => Some tt | _ => None end) trace).

Definition mismatches (trace : list Postgres.insert_event) : list nat :=
  omap (fun e => match e with Postgres.LogMismatch _ got => Some got | _ => None end) trace.

(** Lines that reach a file as they were written: what the writers leave is
    their lines, each one whole and once, in some order. *)
Definition lines_kept {A} (concurrent : list (nat * list A) -> list A) : Prop :=
  forall blocks, concurrent blocks ≡ₚ flat_map snd blocks.

(** Blocks that reach a file whole: what the writers leave is their blocks
    one after the other, in some order. *)
Definition whole_blocks {A} (concurrent : list (nat * list A) -> list A) : Prop :=
  forall blocks, exists order, order ≡ₚ blocks /\ concurrent blocks = flat_map snd order.

(** The skip entries of the configuration: the value is cut at the commas,
    each piece is trimmed, the pieces that are then empty are dropped and the
    others lower-cased. *)
Definition configured_skip_entries (skip_cfg : string) : list string :=
  omap (fun piece =>
          match Py.strip piece with
          | EmptyString => None
          | entry => Some (Py.lower entry)
          end)
       (Py.split "," skip_cfg).

(** A cell that the read-back of the temporary file leaves as it is. *)
Definition no_carriage_return (cell : string) : Prop :=
  "013"%char ∉ list_ascii_of_string cell.

(** * Properties *)

(** ** Python builtins *)

Lemma comprehension_total {A B} (f : A -> result B) (g : A -> B) (l : list A) :
  (forall x, x ∈ l -> f x = Ok (g x)) ->
  comprehension f l = Ok (map g l).
Proof.
  induction l as [|x l IH]; intros Hf; simpl; [done|].
  rewrite (Hf x) by set_solver. simpl.
  rewrite IH by (intros y Hy; apply Hf; set_solver). done.
Qed.

Lemma getitem_lookup {A} (l : list A) (i : nat) (x : A) :
  l !! i = Some x -> Py.getitem l i = Ok x.
Proof. unfold Py.getitem. by intros ->. Qed.

Lemma zip_lookup {A B} (l : list A) (k : list B) (i : nat) :
  Py.zip l k !! i =
    match l !! i, k !! i with
    | Some a, Some b => Some (a, b)
    | _, _ => None
    end.
Proof.
  revert k i. induction l as [|a l IH]; intros [|b k] [|i]; simpl; try done.
  by destruct (l !! i).
Qed.

Lemma zip_length {A B} (l : list A) (k : list B) :
  length (Py.zip l k) = min (length l) (length k).
Proof.
  revert k. induction l as [|a l IH]; intros [|b k]; simpl; auto.
Qed.

Lemma enumerate_lookup {A} (l : list A) (i : nat) :
  Py.enumerate l !! i = (fun x => (i, x)) <$> l !! i.
Proof.
  unfold Py.enumerate. rewrite zip_lookup.
  destruct (l !! i) as [x|] eqn:Hx; simpl.
  - rewrite lookup_seq_lt by (by eapply lookup_lt_Some). done.
  - by destruct (seq 0 (length l) !! i).
Qed.

(** Consecutive windows of width [c] put end to end give back a prefix. *)
Lemma windows_concat {A} (l : list A) (c m : nat) :
  concat (map (fun i => take c (drop (i * c) l)) (seq 0 m)) = take (m * c) l.
Proof.
  induction m as [|m IH]; [done|].
  rewrite seq_S, map_app, concat_app, IH. simpl. rewrite app_nil_r.
  replace (c + m * c) with (m * c + c) by lia.
  by rewrite take_take_drop.
Qed.

(** A slice between two bounds inside the list. *)
Lemma slice_inside {A} (l : list A) (lo hi : Z) :
  (0 <= lo <= Z.of_nat (length l))%Z -> (lo <= hi)%Z ->
  Py.slice l lo hi =
    take (Z.to_nat (Z.min (hi - lo) (Z.of_nat (length l) - lo)))
         (drop (Z.to_nat lo) l).
Proof.
  intros Hlo Hhi. unfold Py.slice, Py.slice_bound.
  destruct (Z.ltb_spec lo 0); [lia|].
  destruct (Z.ltb_spec hi 0); [lia|].
  do 2 f_equal; lia.
Qed.

(** [range(0, n, k)] for a positive step: the multiples of [k] below [n]. *)
Lemma range_positive_step (n k : Z) :
  (0 <= n)%Z -> (0 < k)%Z ->
  exists m : nat,
    Py.range 0 n k = Ok (map (fun i : nat => (Z.of_nat i * k)%Z) (seq 0 m)) /\
    (forall i : nat, i < m -> (Z.of_nat i * k < n)%Z) /\
    (n <= Z.of_nat m * k)%Z.
Proof.
  intros Hn Hk. unfold Py.range, Py.range_len.
  destruct (Z.eqb_spec k 0); [lia|].
  destruct (Z.ltb_spec 0 k); [|lia].
  destruct (Z.ltb_spec 0 n).
  - exists (Z.to_nat ((n - 1) / k + 1)).
    split; [by rewrite Z.sub_0_r|].
    assert (0 <= (n - 1) / k)%Z by (apply Z.div_pos; lia).
    pose proof (Z.mul_div_le (n - 1) k Hk).
    pose proof (Z.mul_succ_div_gt (n - 1) k Hk).
    split; [intros i Hi|]; nia.
  - exists 0. split; [done|]. split; [lia|]. simpl. lia.
Qed.

(** ** C3: the chunk partitioner *)

Lemma fetch_file_data_inside (data_rows : list row) (offset k : Z) :
  (0 <= offset < Z.of_nat (length data_rows))%Z -> (0 < k)%Z ->
  exists first,
    Csv.fetch_file_data data_rows offset k =
      Ok (take (Z.to_nat (Z.min k (Z.of_nat (length data_rows) - offset)))
               (drop (Z.to_nat offset) data_rows), first).
Proof.
  intros Hoff Hk. unfold Csv.fetch_file_data.
  destruct data_rows as [|first data_rows]; [simpl in Hoff; lia|].
  exists first. simpl Py.getitem. simpl Py.bind.
  rewrite slice_inside by lia. do 3 f_equal. lia.
Qed.

(** The list of chunks in closed form. *)
Lemma chunks_closed_form (data_rows : list row) (k : Z) :
  (0 < k)%Z ->
  exists m : nat,
    Csv.chunks data_rows (Z.of_nat (length data_rows)) k =
      Ok (map (fun i : nat =>
                 ((Z.of_nat i * k)%Z,
                  take (Z.to_nat (Z.min k (Z.of_nat (length data_rows) - Z.of_nat i * k)))
                       (drop (Z.to_nat (Z.of_nat i * k)) data_rows)))
              (seq 0 m)) /\
    (forall i : nat, i < m -> (Z.of_nat i * k < Z.of_nat (length data_rows))%Z) /\
    (Z.of_nat (length data_rows) <= Z.of_nat m * k)%Z.
Proof.
  intros Hk.
  destruct (range_positive_step (Z.of_nat (length data_rows)) k) as (m & Hr & Hlt & Hge);
    [lia|done|].
  exists m. split; [|done].
  unfold Csv.chunks. rewrite Hr. simpl Py.bind.
  rewrite (comprehension_total _
    (fun offset : Z =>
       (offset, take (Z.to_nat (Z.min k (Z.of_nat (length data_rows) - offset)))
                     (drop (Z.to_nat offset) data_rows)))).
  - by rewrite map_map.
  - intros offset Hin. apply list_elem_of_fmap in Hin as (i & -> & Hi).
    apply elem_of_seq in Hi.
    destruct (fetch_file_data_inside data_rows (Z.of_nat i * k) k) as (first & ->);
      [specialize (Hlt i); lia|done|done].
Qed.

(** C3. For a positive chunk size the chunks that the dispatch loop of the
    CSV script takes from the rows tile them: put end to end they are the
    rows; chunk [i] starts at offset [i * rows_per_chunk], inside the rows,
    and is the run of rows from there; every chunk but the last holds
    [rows_per_chunk] rows, and the last one ends at the last row. *)
Theorem chunks_tile_the_rows (data_rows : list row) (rows_per_chunk : Z) :
  (0 < rows_per_chunk)%Z ->
  let row_count := Z.of_nat (length data_rows) in
  exists cs,
    Csv.chunks data_rows row_count rows_per_chunk = Ok cs /\
    concat (map snd cs) = data_rows /\
    forall (i : nat) (offset : Z) (chunk : list row),
      cs !! i = Some (offset, chunk) ->
      offset = (Z.of_nat i * rows_per_chunk)%Z /\
      (0 <= offset < row_count)%Z /\
      chunk = take (length chunk) (drop (Z.to_nat offset) data_rows) /\
      (0 < Z.of_nat (length chunk) <= rows_per_chunk)%Z /\
      (S i < length cs -> Z.of_nat (length chunk) = rows_per_chunk) /\
      (S i = length cs -> (offset + Z.of_nat (length chunk))%Z = row_count).
Proof.
  intros Hk row_count.
  destruct (chunks_closed_form data_rows rows_per_chunk Hk) as (m & Hcs & Hlt & Hge).
  eexists. split; [exact Hcs|]. split.
  - rewrite map_map. simpl.
    transitivity (take (m * Z.to_nat rows_per_chunk) data_rows); [|apply take_ge; nia].
    rewrite <- windows_concat. f_equal. apply map_ext_in. intros i Hi.
    apply in_seq in Hi. specialize (Hlt i).
    replace (Z.to_nat (Z.of_nat i * rows_per_chunk)) with (i * Z.to_nat rows_per_chunk) by nia.
    destruct (Z.min_spec rows_per_chunk (Z.of_nat (length data_rows) - Z.of_nat i * rows_per_chunk))
      as [[_ ->]|[Hle ->]]; [done|].
    rewrite !take_ge; [done|rewrite length_drop; nia|rewrite length_drop; nia].
  - intros i offset chunk Hi.
    rewrite list_lookup_fmap in Hi.
    destruct (seq 0 m !! i) as [j|] eqn:Hj; [|done].
    apply lookup_seq in Hj as [-> Hj]. simpl in Hi. injection Hi as <- <-.
    rewrite length_map, length_seq. pose proof (Hlt (S i)) as Hnext.
    specialize (Hlt i Hj).
    fold row_count in Hlt, Hge, Hnext |- *.
    set (offset := (Z.of_nat i * rows_per_chunk)%Z) in *.
    assert (Hlen : Z.of_nat (length (take (Z.to_nat (Z.min rows_per_chunk (row_count - offset)))
                                          (drop (Z.to_nat offset) data_rows)))
                   = Z.min rows_per_chunk (row_count - offset)).
    { rewrite length_take, length_drop. unfold row_count in *. lia. }
    split; [done|]. split; [lia|]. split.
    { f_equal. rewrite length_take, length_drop. unfold row_count in *. lia. }
    split; [lia|]. split; intros Hlast; rewrite Hlen; subst offset.
    + specialize (Hnext Hlast). lia.
    + subst m. lia.
Qed.

Lemma chunks_tile_the_rows_witness :
  exists cs,
    Csv.chunks [["a"]; ["b"]; ["c"]] 3 2 = Ok cs /\
    concat (map snd cs) = [["a"]; ["b"]; ["c"]] /\
    forall (i : nat) (offset : Z) (chunk : list row),
      cs !! i = Some (offset, chunk) ->
      offset = (Z.of_nat i * 2)%Z /\
      (0 <= offset < 3)%Z /\
      chunk = take (length chunk) (drop (Z.to_nat offset) [["a"]; ["b"]; ["c"]]) /\
      (0 < Z.of_nat (length chunk) <= 2)%Z /\
      (S i < length cs -> Z.of_nat (length chunk) = 2%Z) /\
      (S i = length cs -> (offset + Z.of_nat (length chunk))%Z = 3%Z).
Proof. apply (chunks_tile_the_rows [["a"]; ["b"]; ["c"]] 2). lia. Defined.

(** ** C4: the column reconciler *)

Lemma lower_char_idemp (c : ascii) : Py.lower_char (Py.lower_char c) = Py.lower_char c.
Proof. by destruct c as [[] [] [] [] [] [] [] []]. Qed.

Lemma lower_idemp (s : string) : Py.lower (Py.lower s) = Py.lower s.
Proof. induction s as [|c s IH]; simpl; [done|]. by rewrite lower_char_idemp, IH. Qed.

(** The capital E with an acute accent is the code point 201, its small
    letter the code point 233; the multiplication sign, 215, is no letter. *)
Lemma lower_beyond_ascii :
  Py.lower (String "E" (String "201" (String "215" EmptyString)))
  = String "e" (String "233" (String "215" EmptyString)).
Proof. reflexivity. Qed.

Lemma filter_agree {A} (P Q : A -> Prop)
    `{!forall x, Decision (P x)} `{!forall x, Decision (Q x)} (l : list A) :
  (forall x, x ∈ l -> (P x <-> Q x)) -> filter P l = filter Q l.
Proof.
  induction l as [|x l IH]; intros Hpq; [done|].
  assert (Hx : P x <-> Q x) by (apply Hpq; left).
  assert (Hl : filter P l = filter Q l) by (apply IH; intros y Hy; apply Hpq; by right).
  rewrite !filter_cons, Hl.
  destruct (decide (P x)), (decide (Q x)); tauto.
Qed.

Lemma filter_not_in_reconciled (skip all : list string) :
  columns_reconciled (filter (fun col => col ∉ skip) all) skip all.
Proof.
  unfold columns_reconciled. repeat split; apply set_eq; intros c;
    rewrite ?elem_of_intersection, ?elem_of_union, ?elem_of_intersection,
      ?elem_of_list_to_set, ?list_elem_of_filter, ?elem_of_empty;
    destruct (decide (c ∈ skip)); tauto.
Qed.

(** C4, as stated, fails: a skip entry that names no column of the source
    stays in the returned skip list, so the two lists together are more
    than the column list. *)
Lemma unmatched_skip_entry_is_returned :
  exists tokenize skip all,
    Csv.get_filtered_columns "zip" [["name"]] = Ok (tokenize, skip, all) /\
    ~ columns_partition tokenize skip all.
Proof.
  exists ["name"], ["zip"], ["name"]. split; [reflexivity|].
  intros [_ Hunion].
  assert (Hin : "zip" ∈ (list_to_set ["name"] ∪ list_to_set ["zip"] : gset string))
    by set_solver.
  rewrite Hunion in Hin. set_solver.
Qed.

Lemma skip_entries_configured (skip_cfg : string) :
  map (fun col => Py.lower (Py.strip col))
      (filter (fun col => Py.truthy (Py.strip col) = true) (Py.split "," skip_cfg))
  = configured_skip_entries skip_cfg.
Proof.
  unfold configured_skip_entries.
  induction (Py.split "," skip_cfg) as [|piece pieces IH]; [done|].
  rewrite filter_cons. cbn [omap list_omap].
  destruct (Py.strip piece) as [|c entry] eqn:Hpiece; cbn [Py.truthy].
  - rewrite decide_False by done. exact IH.
  - rewrite decide_True by done. cbn [map]. by rewrite Hpiece, IH.
Qed.

Lemma configured_skip_entries_elem_of (skip_cfg entry : string) :
  entry ∈ configured_skip_entries skip_cfg <->
  exists piece,
    piece ∈ Py.split "," skip_cfg /\
    Py.strip piece <> EmptyString /\
    entry = Py.lower (Py.strip piece).
Proof.
  unfold configured_skip_entries. rewrite list_elem_of_omap. split.
  - intros (piece & Hin & Hentry). exists piece. split; [done|].
    destruct (Py.strip piece); [done|]. by injection Hentry as <-.
  - intros (piece & Hin & Hne & ->). exists piece. split; [done|].
    by destruct (Py.strip piece).
Qed.

Lemma postgres_filter_lower (skip : list string) (names : list string) :
  filter (fun col => Py.lower col ∉ skip) (map Py.lower names)
  = filter (fun col => col ∉ skip) (map Py.lower names).
Proof.
  apply filter_agree. intros col Hcol.
  apply list_elem_of_fmap in Hcol as (c & -> & _). by rewrite lower_idemp.
Qed.

(** C4, amended. For every header row and every configured skip list, the
    CSV script and the PostgreSQL script return the same three lists. The
    skip list that they return is the list of the configured entries, each
    trimmed and lower-cased, blank entries dropped: every configured entry is
    in it, whether or not it names a column, and nothing else is. The
    tokenize list and this skip list are disjoint; the tokenize list together
    with the skip entries that name a column is the column list, lower-cased
    and without the synthetic id column; the two returned lists together are
    the column list and the skip entries, matched or not. *)
Theorem reconciler_splits_the_columns
    (skip_cfg : string) (headers_row : row) (data_rows : list row) :
  let skip := configured_skip_entries skip_cfg in
  let all := map Py.lower headers_row in
  exists tokenize,
    Csv.get_filtered_columns skip_cfg (headers_row :: data_rows)
      = Ok (tokenize, skip, all) /\
    Postgres.get_filtered_columns skip_cfg headers_row = (tokenize, skip, all) /\
    columns_reconciled tokenize skip all /\
    (forall piece,
       piece ∈ Py.split "," skip_cfg -> Py.strip piece <> EmptyString ->
       Py.lower (Py.strip piece) ∈ skip /\ Py.lower (Py.strip piece) ∉ tokenize) /\
    (forall entry,
       entry ∈ skip ->
       exists piece,
         piece ∈ Py.split "," skip_cfg /\
         Py.strip piece <> EmptyString /\
         entry = Py.lower (Py.strip piece)).
Proof.
  intros skip all. exists (filter (fun col => col ∉ skip) all).
  split; [|split; [|split; [|split]]].
  - unfold Csv.get_filtered_columns. cbn [Py.getitem lookup list_lookup Py.bind].
    by rewrite skip_entries_configured.
  - unfold Postgres.get_filtered_columns.
    by rewrite skip_entries_configured, postgres_filter_lower.
  - apply filter_not_in_reconciled.
  - intros piece Hpiece Hne.
    assert (Py.lower (Py.strip piece) ∈ skip) as Hin
      by (apply configured_skip_entries_elem_of; by exists piece).
    split; [exact Hin|]. rewrite list_elem_of_filter. tauto.
  - intros entry Hentry. by apply configured_skip_entries_elem_of.
Qed.

(** ** C5: the retry loop *)

(** [make_api_call] returns [outcome post], whatever the payload. *)
Lemma csv_make_api_call_outcome {F} (post : nat -> Response) (payload : Payload F) :
  (Csv.make_api_call post payload).1 = Ok (outcome post) /\
  Forall (fun p => p = sent payload) (posts (Csv.make_api_call post payload).2).
Proof.
  unfold Csv.make_api_call, outcome, retries. simpl. fold (sent payload).
  repeat (match goal with
          | |- context [(?a =? ?b)%Z] => destruct (a =? b)%Z
          end; simpl); split; try done; repeat constructor.
Qed.

Lemma simple_make_api_call_outcome {F} (post : nat -> Response) (payload : Payload F) :
  (Simple.make_api_call post payload).1 = Ok (outcome post) /\
  Forall (fun p => p = payload) (posts (Simple.make_api_call post payload).2).
Proof.
  unfold Simple.make_api_call, outcome, retries. simpl.
  repeat (match goal with
          | |- context [(?a =? ?b)%Z] => destruct (a =? b)%Z
          end; simpl); split; try done; repeat constructor.
Qed.

(** C5, as stated, fails for [tokenize_data.py]: its client sleeps one
    second after a 429 as after any other failure. *)
Lemma simple_client_sleeps_one_second :
  ~ backs_off_five_seconds (@Simple.make_api_call Simple.DictRow).
Proof.
  intros H.
  destruct (H (fun _ => {| status_code := 429; body := None |})
              {| quorum := false; payload_records := []; tokenization := Some true |})
    as (_ & Hsleeps & _); [done|].
  by inversion Hsleeps.
Qed.

(** C5, amended. Against a service that answers 429 to every attempt, each
    client posts the payload exactly three times and returns the third
    response. The clients of the CSV and PostgreSQL scripts sleep five
    seconds after each of the three attempts, the last one included; the
    client of [tokenize_data.py] sleeps one second after each. *)
Theorem three_attempts_on_429 (post : nat -> Response) :
  (forall attempt, status_code (post attempt) = 429%Z) ->
  (forall payload : Payload (gmap string string),
     Csv.make_api_call post payload =
       (Ok (post 2),
        [Post (sent payload); LogError (AttemptFailed 0 429 true); Sleep 5;
         Post (sent payload); LogError (AttemptFailed 1 429 true); Sleep 5;
         Post (sent payload); LogError (AttemptFailed 2 429 true); Sleep 5]) /\
     Postgres.make_api_call post payload = Csv.make_api_call post payload /\
     status_code (post 2) = 429%Z) /\
  (forall payload : Payload Simple.DictRow,
     Simple.make_api_call post payload =
       (Ok (post 2),
        [Post payload; LogError (AttemptFailed 0 429 false); Sleep 1;
         Post payload; LogError (AttemptFailed 1 429 false); Sleep 1;
         Post payload; LogError (AttemptFailed 2 429 false); Sleep 1])).
Proof.
  intros H. split; intros payload.
  - split; [|by split].
    unfold Csv.make_api_call, retries. simpl. rewrite !H. reflexivity.
  - unfold Simple.make_api_call, retries. simpl. rewrite !H. reflexivity.
Qed.

Lemma three_attempts_on_429_witness :
  let post := fun _ : nat => {| status_code := 429; body := None |} in
  let payload : Payload Simple.DictRow :=
    {| quorum := false; payload_records := []; tokenization := Some true |} in
  Simple.make_api_call post payload
  = (Ok (post 2),
     [Post payload; LogError (AttemptFailed 0 429 false); Sleep 1;
      Post payload; LogError (AttemptFailed 1 429 false); Sleep 1;
      Post payload; LogError (AttemptFailed 2 429 false); Sleep 1]).
Proof.
  intros post payload.
  refine (proj2 (three_attempts_on_429 post _) payload).
  intros attempt. reflexivity.
Defined.

(** ** C9: the configured chunk size *)

(** C9, as stated, fails: with [rows_per_chunk = -1] the CSV script raises
    nothing; it dispatches no chunk, posts nothing and writes an output file
    that holds the header alone. *)
Lemma negative_chunk_size_is_accepted :
  Csv.main (fun _ _ => {| status_code := 200; body := None |}) id
           {| Csv.rows_per_chunk := -1; Csv.max_parallel_tasks := 5;
              Csv.skip_columns_cfg := "" |}
           [["name"]; ["A"]; ["B"]]
  = (Ok tt,
     {| Csv.temp_file := [];
        Csv.output_file := Some [["skyflow_id"; "name"]];
        Csv.log := [] |}).
Proof. reflexivity. Qed.

(** C9, amended. The scripts do not check the chunk size. In the CSV script,
    on a file with a header row and with a positive [max_parallel_tasks]:
    a chunk size of 0 ends the run with the [ValueError] of [range], before
    any chunk is dispatched and any file written; a negative chunk size
    raises nothing, no chunk is dispatched and the output holds the header
    alone; a chunk size of 1 or more raises nothing when the chunks are
    formed. *)
Theorem chunk_size_is_not_checked
    (server : Z -> nat -> Response) (as_completed : list Csv.future -> list Csv.future)
    (config : Csv.Config) (headers_row : row) (data_rows : list row) :
  (0 < Csv.max_parallel_tasks config)%Z ->
  let run := Csv.main server as_completed config (headers_row :: data_rows) in
  (Csv.rows_per_chunk config = 0%Z -> run = (Raise ValueError, Csv.start)) /\
  ((Csv.rows_per_chunk config < 0)%Z ->
     run = (Ok tt, {| Csv.temp_file := [];
                      Csv.output_file := Some [ "skyflow_id" :: headers_row ];
                      Csv.log := [] |})) /\
  ((1 <= Csv.rows_per_chunk config)%Z ->
     exists cs, Csv.chunks data_rows (Csv.get_file_row_count (headers_row :: data_rows))
                           (Csv.rows_per_chunk config) = Ok cs).
Proof.
  intros Hmt run. subst run. unfold Csv.main. simpl Py.getitem. cbv iota.
  unfold Csv.get_filtered_columns. simpl Py.getitem. simpl Py.bind.
  destruct (Z.leb_spec (Csv.max_parallel_tasks config) 0) as [|_]; [lia|].
  split; [|split].
  - intros ->. reflexivity.
  - intros Hneg. unfold Py.range, Py.range_len.
    destruct (Z.eqb_spec (Csv.rows_per_chunk config) 0); [lia|].
    destruct (Z.ltb_spec 0 (Csv.rows_per_chunk config)); [lia|].
    destruct (Z.ltb_spec (Csv.rows_per_chunk config) 0); [|lia].
    unfold Csv.get_file_row_count.
    destruct (Z.ltb_spec (Z.of_nat (length (headers_row :: data_rows)) - 1) 0);
      [simpl in *; lia|].
    reflexivity.
  - intros Hpos.
    destruct (chunks_closed_form data_rows (Csv.rows_per_chunk config)) as (m & Hcs & _);
      [lia|].
    eexists. unfold Csv.get_file_row_count.
    replace (Z.of_nat (length (headers_row :: data_rows)) - 1)%Z
      with (Z.of_nat (length data_rows)) by (simpl; lia).
    exact Hcs.
Qed.

Lemma chunk_size_is_not_checked_witness :
  Csv.main (fun _ _ => {| status_code := 200; body := None |}) id
           {| Csv.rows_per_chunk := 0; Csv.max_parallel_tasks := 5;
              Csv.skip_columns_cfg := "" |}
           [["name"]; ["A"]; ["B"]]
  = (Raise ValueError, Csv.start).
Proof.
  refine (proj1 (chunk_size_is_not_checked
                   (fun _ _ => {| status_code := 200; body := None |}) id
                   {| Csv.rows_per_chunk := 0; Csv.max_parallel_tasks := 5;
                      Csv.skip_columns_cfg := "" |}
                   ["name"] [["A"]; ["B"]] _) _).
  - simpl. lia.
  - reflexivity.
Defined.

(** ** C6: a malformed response with status 200 *)

(** C6 fails on the code. A chunk of two rows is answered with status 200
    and an empty [records] list. In [tokenize_data.py] nothing is logged, no
    output row is written and the failed records file stays empty. In the CSV
    script [process_chunk] raises [IndexError], which ends the whole run
    before the output file is written. When the response has no [records]
    key, both scripts log an error and write the rows nowhere. *)
Theorem malformed_response_loses_the_rows :
  let lines := [["A"; "111"]; ["B"; "222"]] in
  let empty_records := {| status_code := 200; body := Some {| records := Some [] |} |} in
  let no_records := {| status_code := 200; body := Some {| records := None |} |} in
  let w0 := {| Simple.temp_output := []; Simple.failed_records := [];
               Simple.output_csv := []; Simple.log := [] |} in
  let config := {| Csv.rows_per_chunk := 2; Csv.max_parallel_tasks := 5;
                   Csv.skip_columns_cfg := "" |} in
  (forall concurrent_appends concurrent_log MAX_PARALLEL_TASKS,
     exists w,
       Simple.main (fun _ _ => empty_records) concurrent_appends concurrent_log
                   MAX_PARALLEL_TASKS 2 ["name"; "ssn"] lines w0 = Some w /\
       Simple.output_csv w = [["skyflow_id"; "name"; "ssn"]] /\
       Simple.failed_records w = [] /\
       errors (Simple.log w) = []) /\
  (forall concurrent_appends concurrent_log MAX_PARALLEL_TASKS,
     exists w,
       Simple.main (fun _ _ => no_records) concurrent_appends concurrent_log
                   MAX_PARALLEL_TASKS 2 ["name"; "ssn"] lines w0 = Some w /\
       Simple.output_csv w = [["skyflow_id"; "name"; "ssn"]] /\
       Simple.failed_records w = [] /\
       errors (Simple.log w) = [TokenizationUnsuccessful]) /\
  (Csv.process_chunk (fun _ => empty_records) lines [] ["skyflow_id"; "name"; "ssn"]).1
    = Raise IndexError /\
  (exists w,
     Csv.main (fun _ _ => empty_records) id config (["name"; "ssn"] :: lines)
       = (Raise IndexError, w) /\
     Csv.files w = [[]] /\
     errors (Csv.log w) = []) /\
  (exists w,
     Csv.main (fun _ _ => no_records) id config (["name"; "ssn"] :: lines) = (Ok tt, w) /\
     Csv.files w = [[]; [["skyflow_id"; "name"; "ssn"]]] /\
     errors (Csv.log w) = [UnexpectedResponseStructure]).
Proof.
  intros lines empty_records no_records w0 config.
  split; [|split; [|repeat split; try (eexists; repeat split); vm_compute; reflexivity]].
  - intros concurrent_appends concurrent_log MAX_PARALLEL_TASKS.
    unfold Simple.main, Simple.appended.
    destruct (MAX_PARALLEL_TASKS =? 1)%Z; eexists; repeat split; vm_compute; reflexivity.
  - intros concurrent_appends concurrent_log MAX_PARALLEL_TASKS.
    unfold Simple.main, Simple.appended.
    destruct (MAX_PARALLEL_TASKS =? 1)%Z; eexists; repeat split; vm_compute; reflexivity.
Qed.

(** ** C7: the request payload *)

Lemma comprehension_Forall2 {A B} (f : A -> result B) (P : A -> B -> Prop) (l : list A) :
  (forall x, x ∈ l -> exists y, f x = Ok y /\ P x y) ->
  exists ys, comprehension f l = Ok ys /\ Forall2 P l ys.
Proof.
  induction l as [|x l IH]; intros Hf; simpl.
  - by exists [].
  - destruct (Hf x) as (y & -> & Hy); [by left|].
    destruct IH as (ys & -> & Hys); [intros z Hz; apply Hf; by right|].
    exists (y :: ys). split; [done|]. by constructor.
Qed.

(** The loop that fills one ["fields"] object, from any position [s] of the
    row and any object [acc]: a column on the skip list or outside [l] keeps
    what [acc] has for it; any other column gets the value at its last
    position. *)
Lemma fields_loop (r : row) (skip : list string) (l : list string) :
  forall (s : nat) (acc : gmap string string),
    s + length l <= length r ->
    exists fields,
      for_each
        (fun (fields : gmap string string) '(i, col) =>
           if decide (col ∈ skip) then Ok fields
           else do v <- Py.getitem r i; Ok (<[col := v]> fields))
        (Py.zip (seq s (length l)) l) acc = Ok fields /\
      forall col,
        (col ∈ skip \/ col ∉ l -> fields !! col = acc !! col) /\
        (col ∉ skip -> col ∈ l -> is_Some (fields !! col)) /\
        (col ∉ skip ->
         forall j, l !! j = Some col -> (forall j', j < j' -> l !! j' <> Some col) ->
                   fields !! col = r !! (s + j)).
Proof.
  induction l as [|x l IH]; intros s acc Hlen.
  - exists acc. split; [done|]. intros col. split; [done|].
    split; [intros _ Hin; by apply elem_of_nil in Hin|]. by intros _ j Hj.
  - simpl in Hlen. simpl.
    destruct (lookup_lt_is_Some_2 r s) as [v Hv]; [lia|].
    set (acc' := if decide (x ∈ skip) then acc else <[x := v]> acc).
    destruct (IH (S s) acc') as (fields & Hloop & Hfields); [lia|].
    exists fields. split.
    { subst acc'. destruct (decide (x ∈ skip)); simpl; [done|].
      unfold Py.getitem. rewrite Hv. simpl. done. }
    intros col. destruct (Hfields col) as (Hkeep & Hsome & Hlast).
    assert (Hacc' : col <> x \/ col ∈ skip -> acc' !! col = acc !! col).
    { subst acc'. intros Hc. destruct (decide (x ∈ skip)); [done|].
      rewrite lookup_insert_ne; [done|]. intros ->. tauto. }
    split; [|split].
    + intros Hc. rewrite Hkeep, Hacc'; [done| |].
      * destruct Hc as [Hc|Hc]; [by right|]. left. intros ->. apply Hc. by left.
      * destruct Hc as [Hc|Hc]; [by left|]. right. intros Hin. apply Hc. by right.
    + intros Hns Hin. destruct (decide (col ∈ l)) as [Hl|Hl]; [by apply Hsome|].
      apply elem_of_cons in Hin as [->|Hin]; [|done].
      rewrite Hkeep by (by right). subst acc'.
      rewrite decide_False by done. rewrite lookup_insert_eq. by eexists.
    + intros Hns [|j] Hj Hlastj.
      * simpl in Hj. injection Hj as ->.
        assert (Hl : col ∉ l).
        { intros Hin. apply list_elem_of_lookup in Hin as [j' Hj'].
          by apply (Hlastj (S j')); [lia|]. }
        rewrite Hkeep by (by right). subst acc'.
        rewrite decide_False by done. rewrite lookup_insert_eq.
        by rewrite Nat.add_0_r.
      * simpl in Hj. rewrite (Hlast Hns j Hj).
        { f_equal. lia. }
        intros j' Hj'. apply (Hlastj (S j')). lia.
Qed.

Lemma NoDup_lookup_last (l : list string) (j : nat) (col : string) :
  NoDup l -> l !! j = Some col -> forall j', j < j' -> l !! j' <> Some col.
Proof.
  intros Hnd Hj j' Hlt Hj'.
  pose proof (proj1 (NoDup_alt l) Hnd j j' col Hj Hj'). lia.
Qed.

Lemma fields_of_row_spec (r : row) (skip all_columns : list string) :
  length (drop 1 all_columns) <= length r ->
  exists fields,
    Csv.fields_of_row r skip all_columns = Ok fields /\
    dom fields = list_to_set (filter (fun col => col ∉ skip) (drop 1 all_columns)) /\
    (forall col, col ∈ skip -> fields !! col = None) /\
    (NoDup (drop 1 all_columns) ->
     forall j col, drop 1 all_columns !! j = Some col -> col ∉ skip ->
                   fields !! col = r !! j).
Proof.
  intros Hlen. unfold Csv.fields_of_row, Py.enumerate.
  destruct (fields_loop r skip (drop 1 all_columns) 0 ∅) as (fields & -> & Hfields);
    [simpl; lia|].
  exists fields. split; [done|]. split; [|split].
  - apply set_eq. intros col.
    rewrite elem_of_dom, elem_of_list_to_set, list_elem_of_filter.
    destruct (Hfields col) as (Hkeep & Hsome & _). split.
    + intros Hin. destruct (decide (col ∈ skip)) as [Hs|Hs].
      { rewrite Hkeep in Hin by (by left). by destruct Hin. }
      destruct (decide (col ∈ drop 1 all_columns)) as [Hl|Hl]; [done|].
      rewrite Hkeep in Hin by (by right). by destruct Hin.
    + intros [Hs Hl]. by apply Hsome.
  - intros col Hs. destruct (Hfields col) as (Hkeep & _). by rewrite Hkeep by (by left).
  - intros Hnd j col Hj Hs. destruct (Hfields col) as (_ & _ & Hlast).
    rewrite (Hlast Hs j Hj); [done|]. by eapply NoDup_lookup_last.
Qed.

(** [process_chunk] of the CSV script once the payload is built. *)
Lemma csv_process_chunk_eq (post : nat -> Response) (rows : list row)
    (skip all_columns : list string) (payload : Payload (gmap string string)) :
  Csv.build_payload rows skip all_columns = Ok payload ->
  Csv.process_chunk post rows skip all_columns =
    let t := (Csv.make_api_call post payload).2 in
    if (status_code (outcome post) =? 200)%Z then
      match body (outcome post) with
      | None => (Raise JSONDecodeError, t)
      | Some response_data =>
          if Csv.well_structured response_data then
            (comprehension
               (fun '(i, row) =>
                  Csv.tokenized_row (default [] (records response_data)) i row
                                    skip all_columns)
               (Py.enumerate rows), t)
          else (Ok [], t ++ [LogError UnexpectedResponseStructure])
      end
    else (Ok [], t ++ [LogError (FailedApiCall (status_code (outcome post)))]).
Proof.
  intros Hp. unfold Csv.process_chunk. rewrite Hp. simpl.
  destruct (csv_make_api_call_outcome post payload) as [Hr _].
  destruct (Csv.make_api_call post payload) as [r t]. simpl in Hr. subst r. simpl.
  destruct (status_code (outcome post) =? 200)%Z; simpl; [|done].
  unfold json. destruct (body (outcome post)) as [response_data|]; simpl;
    [|by rewrite app_nil_r].
  destruct (Csv.well_structured response_data); simpl; [|done].
  destruct (comprehension _ _); simpl; by rewrite app_nil_r.
Qed.


Lemma build_payload_records (rows : list row) (skip all_columns : list string) :
  Forall (fun r : row => length (drop 1 all_columns) <= length r) rows ->
  NoDup (drop 1 all_columns) ->
  exists recs,
    Csv.build_payload rows skip all_columns
      = Ok {| quorum := false; payload_records := recs; tokenization := None |} /\
    Forall2
      (fun r (fields : gmap string string) =>
         dom fields = list_to_set (filter (fun col => col ∉ skip) (drop 1 all_columns)) /\
         (forall col, col ∈ skip -> fields !! col = None) /\
         (forall j col, drop 1 all_columns !! j = Some col -> col ∉ skip ->
                        fields !! col = r !! j))
      rows recs.
Proof.
  intros Hrows Hnd. unfold Csv.build_payload.
  destruct (comprehension_Forall2
              (fun r => Csv.fields_of_row r skip all_columns)
              (fun r (fields : gmap string string) =>
                 dom fields = list_to_set (filter (fun col => col ∉ skip) (drop 1 all_columns)) /\
                 (forall col, col ∈ skip -> fields !! col = None) /\
                 (forall j col, drop 1 all_columns !! j = Some col -> col ∉ skip ->
                                fields !! col = r !! j))
              rows) as (recs & Hrecs & Hall).
  { intros r Hr. rewrite Forall_forall in Hrows.
    destruct (fields_of_row_spec r skip all_columns (Hrows r Hr))
      as (fields & Hf & Hdom & Hskip & Hval).
    exists fields. split; [done|]. split; [done|]. split; [done|]. by apply Hval. }
  exists recs. rewrite Hrecs. by split.
Qed.




(** ** C8: the output rows of a successful chunk *)

Lemma index_NoDup (l : list string) :
  forall (j : nat) (x : string),
    NoDup l -> l !! j = Some x -> Py.index x l = Ok j.
Proof.
  induction l as [|y l IH]; intros j x Hnd Hj; [done|].
  apply NoDup_cons in Hnd as [Hy Hnd].
  change (Py.index x (y :: l))
    with (if decide (x = y) then Ok 0 else Py.bind (Py.index x l) (fun i => Ok (S i))).
  destruct j as [|j]; simpl in Hj.
  - injection Hj as ->. by case_decide.
  - case_decide as Hxy.
    + subst y. exfalso. apply Hy. by eapply list_elem_of_lookup_2.
    + by rewrite (IH j x Hnd Hj).
Qed.

Lemma tokenized_row_spec (recs : list ApiRecord) (i : nat) (r : row)
    (skip all_columns : list string) (record : ApiRecord) :
  recs !! i = Some record ->
  is_Some (tokens record) ->
  NoDup (drop 1 all_columns) ->
  length (drop 1 all_columns) <= length r ->
  exists cells,
    Csv.tokenized_row recs i r skip all_columns = Ok (skyflow_id record :: cells) /\
    length cells = length (drop 1 all_columns) /\
    forall j col, drop 1 all_columns !! j = Some col ->
                  cells !! j = Some (expected_cell skip record r j col).
Proof.
  intros Hrec [toks Htoks] Hnd Hlen. unfold Csv.tokenized_row.
  rewrite (getitem_lookup _ _ _ Hrec). simpl. rewrite Htoks.
  set (cols := drop 1 all_columns) in *.
  destruct (comprehension_Forall2
    (fun col =>
       if decide (col ∈ skip) then
         do j <- Py.index col cols; do v <- Py.getitem r j; Ok (Some v)
       else
         do toks0 <- Ok toks; do j <- Py.index col cols; do v <- Py.getitem r j;
         Ok (Some (default v (toks0 !! col))))
    (fun col cell => forall j, cols !! j = Some col -> cell = expected_cell skip record r j col)
    cols) as (cells & -> & Hcells).
  { intros col Hcol. apply list_elem_of_lookup in Hcol as [j Hj].
    destruct (lookup_lt_is_Some_2 r j) as [v Hv].
    { apply lookup_lt_Some in Hj. lia. }
    assert (Huniq : forall j0, cols !! j0 = Some col -> j0 = j).
    { intros j0 Hj0. by apply (proj1 (NoDup_alt cols) Hnd j0 j col). }
    unfold expected_cell. rewrite Htoks. simpl.
    destruct (decide (col ∈ skip)); simpl;
      rewrite (index_NoDup cols j col Hnd Hj); simpl;
      rewrite (getitem_lookup _ _ _ Hv); simpl; eexists; (split; [done|]);
      intros j0 Hj0; rewrite (Huniq j0 Hj0), Hv; [done|].
    by destruct (toks !! col). }
  simpl. eexists. split; [done|]. split.
  - symmetry. by eapply Forall2_length.
  - intros j col Hj. destruct (Forall2_lookup_l _ _ _ _ _ Hcells Hj) as (cell & -> & HP).
    by rewrite (HP j Hj).
Qed.

(** The lookup of a dictionary filled by a loop of assignments. *)
Lemma foldl_insert_lookup {V} (g : string -> V) (l : list string) :
  forall (init : gmap string V) (k : string),
    foldl (fun (r : gmap string V) field => <[field := g field]> r) init l !! k
    = if decide (k ∈ l) then Some (g k) else init !! k.
Proof.
  induction l as [|x l IH]; intros init k; simpl foldl.
  - case_decide as Hin; [by apply elem_of_nil in Hin|done].
  - rewrite IH.
    destruct (decide (k ∈ l)) as [Hl|Hl], (decide (k ∈ x :: l)) as [Hxl|Hxl];
      try done.
    + exfalso. apply Hxl. by right.
    + apply elem_of_cons in Hxl as [->|Hxl]; [|done]. by rewrite lookup_insert_eq.
    + rewrite lookup_insert_ne; [done|]. intros ->. apply Hxl. by left.
Qed.

Lemma output_dict_lookup (fieldnames : list string) (d : Simple.DictRow)
    (record : ApiRecord) (k : string) :
  Simple.output_dict fieldnames d record !! k
  = if decide (k ∈ fieldnames) then Some (token_or_original record d k)
    else if decide (k = "skyflow_id") then Some (skyflow_id record) else None.
Proof.
  unfold Simple.output_dict.
  rewrite (foldl_insert_lookup (fun field => token_or_original record d field)).
  destruct (decide (k ∈ fieldnames)); [done|].
  destruct (decide (k = "skyflow_id")) as [->|Hne].
  - by rewrite lookup_singleton_eq.
  - by rewrite lookup_singleton_ne.
Qed.

Lemma output_dict_to_list (fieldnames : list string) (d : Simple.DictRow)
    (record : ApiRecord) :
  Simple.dict_to_list ("skyflow_id" :: fieldnames)
                      (Simple.output_dict fieldnames d record) false
  = Ok (output_line fieldnames d record).
Proof.
  unfold Simple.dict_to_list. simpl orb.
  rewrite bool_decide_eq_true_2.
  - simpl. unfold output_line. f_equal. f_equal.
    + rewrite output_dict_lookup.
      destruct (decide ("skyflow_id" ∈ fieldnames)); [done|].
      by rewrite decide_True.
    + apply map_ext_in. intros field Hin. apply list_elem_of_In in Hin.
      rewrite output_dict_lookup. by rewrite decide_True.
  - apply elem_of_subseteq. intros k Hk.
    apply elem_of_dom in Hk. rewrite output_dict_lookup in Hk.
    rewrite elem_of_union, elem_of_singleton, elem_of_list_to_set.
    destruct (decide (k ∈ fieldnames)); [by right|].
    destruct (decide (k = "skyflow_id")) as [->|]; [by left|]. by destruct Hk.
Qed.

Lemma write_output_spec (fieldnames : list string)
    (pairs : list (Simple.DictRow * ApiRecord)) :
  forall file,
    Simple.write_output fieldnames pairs file
    = (Ok tt, file ++ map (fun '(original_row, record) =>
                             output_line fieldnames original_row record) pairs).
Proof.
  induction pairs as [|[d record] pairs IH]; intros file; simpl.
  - by rewrite app_nil_r.
  - rewrite output_dict_to_list, IH. by rewrite <- app_assoc.
Qed.

Lemma writerows_app (fieldnames : list string) (rows : list Simple.DictRow) :
  forall file,
    Simple.writerows fieldnames rows file
    = ((Simple.writerows fieldnames rows []).1,
       file ++ (Simple.writerows fieldnames rows []).2).
Proof.
  induction rows as [|d rows IH]; intros file; simpl.
  - by rewrite app_nil_r.
  - destruct (Simple.dict_to_list _ _ _) as [cells|e]; simpl.
    + rewrite (IH (file ++ [cells])), (IH [cells]). simpl. by rewrite <- app_assoc.
    + by rewrite app_nil_r.
Qed.

(** What a call of [process_chunk] of [tokenize_data.py] does to the files. *)
Lemma simple_process_chunk_files (post : nat -> Response)
    (rows : list Simple.DictRow) (fieldnames : list string) (w : Simple.world) :
  let w' := (Simple.process_chunk post rows fieldnames w).2 in
  Simple.temp_output w' = Simple.temp_output w ++ chunk_output post rows fieldnames /\
  Simple.failed_records w' = Simple.failed_records w ++ chunk_failed post rows fieldnames /\
  Simple.output_csv w' = Simple.output_csv w.
Proof.
  unfold Simple.process_chunk, chunk_output, chunk_failed.
  set (payload := {| quorum := false; payload_records := rows; tokenization := Some true |}).
  destruct (simple_make_api_call_outcome post payload) as [Hr _].
  destruct (Simple.make_api_call post payload) as [r t]. simpl in Hr. subst r.
  destruct (status_code (outcome post) =? 200)%Z.
  - unfold json. destruct (body (outcome post)) as [response_data|]; simpl.
    + rewrite write_output_spec. simpl. by rewrite app_nil_r.
    + by rewrite !app_nil_r.
  - rewrite writerows_app. simpl. by rewrite app_nil_r.
Qed.

Lemma csv_success_rows (post : nat -> Response) (recs : list ApiRecord)
    (rows : list row) (skip all_columns : list string) :
  status_code (outcome post) = 200%Z ->
  body (outcome post) = Some {| records := Some recs |} ->
  Forall (fun record => is_Some (tokens record)) recs ->
  length recs = length rows ->
  Forall (fun r : row => length (drop 1 all_columns) <= length r) rows ->
  NoDup (drop 1 all_columns) ->
  exists out,
    (Csv.process_chunk post rows skip all_columns).1 = Ok out /\
    length out = length rows /\
    forall i r record,
      rows !! i = Some r -> recs !! i = Some record ->
      exists cells,
        out !! i = Some (skyflow_id record :: cells) /\
        length cells = length (drop 1 all_columns) /\
        forall j col, drop 1 all_columns !! j = Some col ->
                      cells !! j = Some (expected_cell skip record r j col).
Proof.
  intros Hstatus Hbody Htokens Hlen Hrows Hnd.
  destruct (build_payload_records rows skip all_columns Hrows Hnd) as (precs & Hp & _).
  rewrite (csv_process_chunk_eq _ _ _ _ _ Hp). cbv zeta.
  rewrite Hstatus, Hbody. simpl.
  assert (Hws : Csv.well_structured {| records := Some recs |} = true).
  { unfold Csv.well_structured, Py.all. simpl. apply forallb_forall.
    intros record Hin. apply bool_decide_eq_true_2.
    rewrite Forall_forall in Htokens. apply Htokens. by apply list_elem_of_In. }
  rewrite Hws. simpl.
  destruct (comprehension_Forall2
    (fun '(i, r) => Csv.tokenized_row recs i r skip all_columns)
    (fun '(i, r) o =>
       forall record, recs !! i = Some record ->
         exists cells,
           o = skyflow_id record :: cells /\
           length cells = length (drop 1 all_columns) /\
           forall j col, drop 1 all_columns !! j = Some col ->
                         cells !! j = Some (expected_cell skip record r j col))
    (Py.enumerate rows)) as (out & -> & Hout).
  { intros [i r] Hin. apply list_elem_of_lookup in Hin as [idx Hidx].
    rewrite enumerate_lookup in Hidx.
    destruct (rows !! idx) as [r0|] eqn:Hr0; [|done]. simpl in Hidx.
    injection Hidx as <- <-.
    destruct (lookup_lt_is_Some_2 recs idx) as [record Hrecord].
    { apply lookup_lt_Some in Hr0. lia. }
    destruct (tokenized_row_spec recs idx r0 skip all_columns record)
      as (cells & Hrow & Hcells); [done| |done| |].
    { rewrite Forall_forall in Htokens. apply Htokens.
      by eapply list_elem_of_lookup_2. }
    { rewrite Forall_forall in Hrows. apply Hrows. by eapply list_elem_of_lookup_2. }
    eexists. split; [exact Hrow|]. intros record' Hrecord'.
    assert (record' = record) as -> by congruence. by exists cells. }
  exists out. split; [done|]. split.
  { apply Forall2_length in Hout. rewrite <- Hout.
    unfold Py.enumerate. rewrite zip_length, length_seq. lia. }
  intros i r record Hi Hrecord.
  assert (Hen : Py.enumerate rows !! i = Some (i, r)).
  { by rewrite enumerate_lookup, Hi. }
  destruct (Forall2_lookup_l _ _ _ _ _ Hout Hen) as (o & Ho & HP).
  destruct (HP record Hrecord) as (cells & -> & Hcells). by exists cells.
Qed.


Lemma simple_success_rows (post : nat -> Response) (recs : list ApiRecord)
    (rows : list Simple.DictRow) (fieldnames : list string) :
  status_code (outcome post) = 200%Z ->
  body (outcome post) = Some {| records := Some recs |} ->
  length recs = length rows ->
  chunk_failed post rows fieldnames = [] /\
  length (chunk_output post rows fieldnames) = length rows /\
  forall i d record,
    rows !! i = Some d -> recs !! i = Some record ->
    chunk_output post rows fieldnames !! i = Some (output_line fieldnames d record).
Proof.
  intros Hstatus Hbody Hlen. unfold chunk_failed, chunk_output.
  rewrite Hstatus, Hbody. simpl. split; [done|]. split.
  - rewrite length_map, zip_length. lia.
  - intros i d record Hi Hrecord.
    by rewrite list_lookup_fmap, zip_lookup, Hi, Hrecord.
Qed.



(** ** Lists of chunks *)

Lemma flat_map_Permutation {A B} (f : A -> list B) (l l' : list A) :
  l ≡ₚ l' -> flat_map f l ≡ₚ flat_map f l'.
Proof.
  induction 1 as [|x l l' _ IH|x y l|l l' l'' _ IH _ IH']; simpl.
  - done.
  - by rewrite IH.
  - rewrite !app_assoc. f_equiv. apply Permutation_app_comm.
  - by rewrite IH.
Qed.

Lemma flat_map_filter {A B} (f : A -> list B) (P : A -> Prop)
    `{!forall x, Decision (P x)} (l : list A) :
  (forall x, x ∈ l -> ~ P x -> f x = []) ->
  flat_map f l = flat_map f (filter P l).
Proof.
  induction l as [|x l IH]; intros Hnil; [done|].
  assert (Hl : flat_map f l = flat_map f (filter P l)).
  { apply IH. intros y Hy. apply Hnil. by right. }
  rewrite filter_cons. simpl. destruct (decide (P x)) as [HP|HP]; simpl.
  - by rewrite Hl.
  - rewrite (Hnil x); [done|by left|done].
Qed.

Lemma flat_map_nil {A B} (f : A -> list B) (l : list A) :
  (forall x, x ∈ l -> f x = []) -> flat_map f l = [].
Proof.
  induction l as [|x l IH]; intros Hnil; [done|]. simpl.
  rewrite (Hnil x) by (by left). apply IH. intros y Hy. apply Hnil. by right.
Qed.

(** When one element alone of a list without repetition contributes, the
    whole is its contribution. *)
Lemma flat_map_single {A B} (f : A -> list B) (P : A -> Prop)
    `{!forall x, Decision (P x)} (x0 : A) (l : list A) :
  NoDup l -> x0 ∈ l -> P x0 ->
  (forall x, x ∈ l -> P x -> x = x0) ->
  (forall x, x ∈ l -> ~ P x -> f x = []) ->
  flat_map f l = f x0.
Proof.
  induction l as [|y l IH]; intros Hnd Hin HP0 Huniq Hnil.
  - by apply elem_of_nil in Hin.
  - apply NoDup_cons in Hnd as [Hy Hnd]. simpl.
    destruct (decide (P y)) as [HP|HP].
    + assert (y = x0) as -> by (apply Huniq; [by left|done]).
      rewrite (flat_map_nil f l); [by rewrite app_nil_r|].
      intros x Hx. apply Hnil; [by right|]. intros HPx.
      assert (x = x0) as -> by (apply Huniq; [by right|done]). done.
    + rewrite (Hnil y); [|by left|done]. simpl.
      apply IH; [done| |done| |].
      * apply elem_of_cons in Hin as [->|Hin]; done.
      * intros x Hx. apply Huniq. by right.
      * intros x Hx. apply Hnil. by right.
Qed.

Lemma enumerate_elem_of {A} (l : list A) (i : nat) (x : A) :
  (i, x) ∈ Py.enumerate l <-> l !! i = Some x.
Proof.
  rewrite list_elem_of_lookup. split.
  - intros [j Hj]. rewrite enumerate_lookup in Hj.
    destruct (l !! j) as [y|] eqn:Hy; [|done]. simpl in Hj. by injection Hj as <- <-.
  - intros Hi. exists i. by rewrite enumerate_lookup, Hi.
Qed.

Lemma enumerate_NoDup {A} (l : list A) : NoDup (Py.enumerate l).
Proof.
  apply NoDup_alt. intros i j [k x] Hi Hj.
  rewrite enumerate_lookup in Hi, Hj.
  destruct (l !! i) as [y|]; [|done]. destruct (l !! j) as [z|]; [|done].
  simpl in *. congruence.
Qed.

Lemma Forall_exists_map {A B} (h : A -> B) (Q : A -> Prop) (l : list B) :
  Forall (fun d => exists a, Q a /\ d = h a) l ->
  exists ls, l = map h ls /\ Forall Q ls.
Proof.
  induction 1 as [|d l (a & Ha & ->) _ (ls & -> & Hls)].
  - by exists [].
  - exists (a :: ls). split; [done|]. by constructor.
Qed.

Lemma flat_map_elem_of {A B} (f : A -> list B) (l : list A) (y : B) :
  y ∈ flat_map f l <-> exists x, x ∈ l /\ y ∈ f x.
Proof.
  rewrite list_elem_of_In, in_flat_map. split.
  - intros (x & Hx & Hy). exists x. by rewrite !list_elem_of_In.
  - intros (x & Hx & Hy). exists x. by rewrite <- !list_elem_of_In.
Qed.

(** ** The run of [tokenize_data.py] *)

Lemma worker_files (server : nat -> nat -> Response) (fieldnames : list string)
    (w : Simple.world) (chunk : nat * list Simple.DictRow) :
  let w' := Simple.worker server fieldnames w chunk in
  Simple.temp_output w'
    = Simple.temp_output w ++ chunk_output (server chunk.1) chunk.2 fieldnames /\
  Simple.failed_records w'
    = Simple.failed_records w ++ chunk_failed (server chunk.1) chunk.2 fieldnames.
Proof.
  destruct (simple_process_chunk_files (server chunk.1) chunk.2 fieldnames w)
    as (Htemp & Hfailed & _).
  cbv zeta in *. unfold Simple.worker.
  destruct (Simple.process_chunk (server chunk.1) chunk.2 fieldnames w) as [[[]|e] w'];
    simpl in *; by split.
Qed.

Lemma worker_blocks (server : nat -> nat -> Response) (fieldnames : list string)
    (chunk : nat * list Simple.DictRow) :
  let w' := Simple.worker server fieldnames Simple.nothing chunk in
  Simple.temp_output w' = chunk_output (server chunk.1) chunk.2 fieldnames /\
  Simple.failed_records w' = chunk_failed (server chunk.1) chunk.2 fieldnames.
Proof. apply (worker_files server fieldnames Simple.nothing chunk). Qed.

Lemma filter_none {A} (P : A -> Prop) `{!forall x, Decision (P x)} (l : list A) :
  (forall x, x ∈ l -> ~ P x) -> filter P l = [].
Proof.
  induction l as [|x l IH]; intros Hnone; [done|].
  rewrite filter_cons, decide_False by (apply Hnone; by left).
  apply IH. intros y Hy. apply Hnone. by right.
Qed.

Lemma filter_map {A B} (P : B -> Prop) `{!forall y, Decision (P y)}
    (g : A -> B) (l : list A) :
  filter P (map g l) = map g (filter (fun x => P (g x)) l).
Proof.
  induction l as [|x l IH]; [done|]. cbn [map]. rewrite !filter_cons, IH.
  by destruct (decide (P (g x))).
Qed.

Lemma filter_single {A} (P : A -> Prop) `{!forall x, Decision (P x)}
    (x0 : A) (l : list A) :
  NoDup l -> x0 ∈ l ->
  (forall x, x ∈ l -> P x -> x = x0) ->
  filter P l = if decide (P x0) then [x0] else [].
Proof.
  induction l as [|x l IH]; intros Hnd Hin Honly; [by apply elem_of_nil in Hin|].
  apply NoDup_cons in Hnd as [Hx Hnd]. rewrite filter_cons.
  assert (forall y, y ∈ l -> P y -> y = x0) as Honly'
    by (intros y Hy; apply Honly; by right).
  apply elem_of_cons in Hin as [->|Hin].
  - assert (filter P l = []) as ->; [|by destruct (decide (P x))].
    apply filter_none. intros y Hy Hp.
    apply Hx. by rewrite <- (Honly' y Hy Hp).
  - rewrite (IH Hnd Hin Honly'). destruct (decide (P x)) as [Hp|Hp]; [|done].
    exfalso. apply Hx. rewrite (Honly x); [done|by left|done].
Qed.

Lemma flat_map_snd_writers {A} (blocks : list (nat * list A)) :
  flat_map snd blocks
  = flat_map snd (filter (fun block : nat * list A => block.2 <> []) blocks).
Proof.
  apply flat_map_filter. intros block _ Hempty.
  destruct (decide (block.2 = [])) as [|Hne]; [done|]. by exfalso; apply Hempty.
Qed.




Lemma whole_blocks_lines_kept {A} (concurrent : list (nat * list A) -> list A) :
  whole_blocks concurrent -> lines_kept concurrent.
Proof.
  intros Hwhole blocks. destruct (Hwhole blocks) as (order & Hperm & ->).
  by apply flat_map_Permutation.
Qed.

(** A pool of one thread, or lines that arrive as they were written. *)
Lemma appended_kept_map {B}
    (concurrent_appends : Simple.file -> list (nat * list row) -> list row)
    (MAX_PARALLEL_TASKS : Z) (f : Simple.file) (g : B -> nat * list row) (l : list B) :
  MAX_PARALLEL_TASKS = 1%Z \/ lines_kept (concurrent_appends f) ->
  Simple.appended concurrent_appends MAX_PARALLEL_TASKS f (map g l)
  ≡ₚ flat_map (fun x => (g x).2) l.
Proof.
  intros Hkept.
  assert (flat_map snd (map g l) = flat_map (fun x => (g x).2) l) as <-
    by (by rewrite !flat_map_concat_map, map_map).
  unfold Simple.appended.
  destruct (Z.eqb_spec MAX_PARALLEL_TASKS 1) as [|Hmt]; [done|].
  destruct Hkept as [|Hkept]; [done|]. unfold Simple.merged.
  rewrite (flat_map_snd_writers (map g l)).
  destruct (filter _ (map g l)) as [|b1 [|b2 writers]]; [done| |apply Hkept].
  simpl. by rewrite app_nil_r.
Qed.

(** When one chunk alone has something to write, its block arrives whole
    whatever the pool does. *)
Lemma merged_single {A B} (concurrent : list (nat * list A) -> list A)
    (g : B -> nat * list A) (x0 : B) (l : list B) :
  NoDup l -> x0 ∈ l ->
  (forall x, x ∈ l -> (g x).2 <> [] -> x = x0) ->
  Simple.merged concurrent (map g l) = (g x0).2.
Proof.
  intros Hnd Hin Honly. unfold Simple.merged.
  rewrite filter_map.
  rewrite (filter_single (fun x => (g x).2 <> []) x0 l Hnd Hin) by exact Honly.
  destruct (decide ((g x0).2 <> [])) as [Hp|Hp]; simpl in *; [done|].
  destruct (decide ((g x0).2 = [])) as [->|Hne]; [done|]. by exfalso; apply Hp.
Qed.

Lemma appended_single {B}
    (concurrent_appends : Simple.file -> list (nat * list row) -> list row)
    (MAX_PARALLEL_TASKS : Z) (f : Simple.file)
    (g : B -> nat * list row) (x0 : B) (l : list B) :
  NoDup l -> x0 ∈ l ->
  (forall x, x ∈ l -> (g x).2 <> [] -> x = x0) ->
  Simple.appended concurrent_appends MAX_PARALLEL_TASKS f (map g l) = (g x0).2.
Proof.
  intros Hnd Hin Honly. unfold Simple.appended.
  destruct (MAX_PARALLEL_TASKS =? 1)%Z; [|by apply merged_single].
  rewrite flat_map_snd_writers.
  rewrite filter_map.
  rewrite (filter_single (fun x => (g x).2 <> []) x0 l Hnd Hin) by exact Honly.
  destruct (decide ((g x0).2 <> [])) as [Hp|Hp]; simpl in *; [by rewrite app_nil_r|].
  destruct (decide ((g x0).2 = [])) as [->|Hne]; [done|]. by exfalso; apply Hp.
Qed.

Lemma appended_nothing {B}
    (concurrent_appends : Simple.file -> list (nat * list row) -> list row)
    (MAX_PARALLEL_TASKS : Z) (f : Simple.file)
    (g : B -> nat * list row) (l : list B) :
  (forall x, x ∈ l -> (g x).2 = []) ->
  Simple.appended concurrent_appends MAX_PARALLEL_TASKS f (map g l) = [].
Proof.
  intros Hnone.
  assert (filter (fun block : nat * list row => block.2 <> []) (map g l) = []) as Hfilter.
  { apply filter_none. intros block Hblock Hne.
    apply list_elem_of_fmap in Hblock as (x & -> & Hx). by apply Hne, Hnone. }
  unfold Simple.appended, Simple.merged.
  destruct (MAX_PARALLEL_TASKS =? 1)%Z; [|by rewrite Hfilter].
  by rewrite flat_map_snd_writers, Hfilter.
Qed.

(** The reader gets shorter with every row that it yields. *)
Lemma next_shrinks (fieldnames : list string) (reader : list row) :
  length (Simple.next fieldnames reader).2 <= length reader /\
  (is_Some (Simple.next fieldnames reader).1 ->
   length (Simple.next fieldnames reader).2 < length reader).
Proof.
  induction reader as [|r reader IH]; simpl.
  - split; [done|]. by intros [? ?].
  - destruct r as [|c r]; simpl; [|lia].
    destruct IH as [Hle Hlt]. split; [lia|]. intros H. specialize (Hlt H). lia.
Qed.

Lemma next_rows_shrinks {B} (f : option Simple.DictRow -> option B)
    (fieldnames : list string) (n : nat) :
  f None = None ->
  forall reader : list row,
    length (Simple.next_rows fieldnames n reader).2 <= length reader /\
    (omap f (Simple.next_rows fieldnames n reader).1 <> [] ->
     length (Simple.next_rows fieldnames n reader).2 < length reader).
Proof.
  intros Hf. induction n as [|n IH]; intros reader; simpl.
  - split; [done|]. by intros H.
  - destruct (next_shrinks fieldnames reader) as [Hle Hlt].
    destruct (Simple.next fieldnames reader) as [o reader1]. simpl in Hle, Hlt.
    destruct (IH reader1) as [Hle' Hlt'].
    destruct (Simple.next_rows fieldnames n reader1) as [rs reader2]. simpl in *.
    split; [lia|]. intros Hne.
    destruct o as [d|].
    + assert (length reader1 < length reader) by (apply Hlt; by eexists). lia.
    + rewrite Hf in Hne. specialize (Hlt' Hne). lia.
Qed.

(** The chunk loop ends before its fuel does. *)
Lemma chunk_loop_total (fieldnames : list string) (ROWS_PER_CHUNK : Z) (fuel : nat) :
  forall (reader : list row) (chunks : list (list Simple.DictRow)),
    length reader < fuel ->
    is_Some (Simple.chunk_loop fuel fieldnames ROWS_PER_CHUNK reader chunks).
Proof.
  induction fuel as [|fuel IH]; intros reader chunks Hfuel; [lia|].
  simpl.
  pose proof (next_rows_shrinks
    (fun r : option Simple.DictRow =>
       match r with
       | Some d => if Simple.truthy d then Some d else None
       | None => None
       end) fieldnames (Z.to_nat ROWS_PER_CHUNK) eq_refl reader) as [Hle Hlt].
  destruct (Simple.next_rows fieldnames (Z.to_nat ROWS_PER_CHUNK) reader) as [rs reader'].
  simpl in Hle, Hlt.
  destruct (omap _ rs) as [|d ds] eqn:Hrows; [by eexists|].
  apply IH. assert (length reader' < length reader) by (by apply Hlt). lia.
Qed.

(** The files that a run of [tokenize_data.py] leaves behind. *)
(** The files of a run: the header and what the workers append. *)
Lemma simple_main_files (server : nat -> nat -> Response)
    (concurrent_appends : Simple.file -> list (nat * list row) -> list row)
    (concurrent_log : list (nat * list (event Simple.DictRow))
                      -> list (event Simple.DictRow))
    (MAX_PARALLEL_TASKS ROWS_PER_CHUNK : Z) (fieldnames : list string)
    (lines : list row) (w0 : Simple.world) :
  exists chunks w,
    Simple.chunk_loop (S (length lines)) fieldnames ROWS_PER_CHUNK lines [] = Some chunks /\
    Simple.main server concurrent_appends concurrent_log MAX_PARALLEL_TASKS
                ROWS_PER_CHUNK fieldnames lines w0 = Some w /\
    Simple.temp_output w
      = ("skyflow_id" :: fieldnames)
          :: Simple.appended concurrent_appends MAX_PARALLEL_TASKS Simple.TempOutput
               (map (fun chunk : nat * list Simple.DictRow =>
                       (chunk.1, chunk_output (server chunk.1) chunk.2 fieldnames))
                    (Py.enumerate chunks)) /\
    Simple.failed_records w
      = Simple.appended concurrent_appends MAX_PARALLEL_TASKS Simple.FailedRecords
          (map (fun chunk : nat * list Simple.DictRow =>
                  (chunk.1, chunk_failed (server chunk.1) chunk.2 fieldnames))
               (Py.enumerate chunks)) /\
    Simple.output_csv w = read_back (Simple.temp_output w).
Proof.
  destruct (chunk_loop_total fieldnames ROWS_PER_CHUNK (S (length lines)) lines [])
    as [chunks Hchunks]; [lia|].
  unfold Simple.main. rewrite Hchunks.
  eexists chunks, _. split; [done|]. split; [reflexivity|].
  cbn [Simple.temp_output Simple.failed_records Simple.output_csv app].
  rewrite !map_map. cbn [fst snd]. repeat split.
  - do 2 f_equal. apply map_ext. intros chunk.
    by destruct (worker_blocks server fieldnames chunk) as [-> _].
  - f_equal. apply map_ext. intros chunk.
    by destruct (worker_blocks server fieldnames chunk) as [_ ->].
Qed.

Lemma dict_to_list_values (fieldnames : list string) (d : Simple.DictRow) (cells : row) :
  Simple.dict_to_list fieldnames (Simple.known d) (bool_decide (is_Some (Simple.rest d)))
    = Ok cells ->
  cells = values_in_field_order fieldnames d.
Proof.
  unfold Simple.dict_to_list. destruct (_ || _); [done|]. by intros [= <-].
Qed.

Lemma writerows_lines (fieldnames : list string) (rows : list Simple.DictRow) (line : row) :
  line ∈ (Simple.writerows fieldnames rows []).2 ->
  exists d, d ∈ rows /\ line = values_in_field_order fieldnames d.
Proof.
  induction rows as [|d rows IH]; simpl.
  - intros Hin. by apply elem_of_nil in Hin.
  - destruct (Simple.dict_to_list _ _ _) as [cells|e] eqn:Hcells; simpl.
    + rewrite writerows_app. simpl. intros [->|Hin]%elem_of_cons.
      * exists d. split; [by left|]. by apply dict_to_list_values.
      * destruct (IH Hin) as (d' & Hd' & ->). exists d'. split; [by right|done].
    + intros Hin. by apply elem_of_nil in Hin.
Qed.

(** ** C10: the failed records file *)

(** C10. [tokenize_data.py] clears the failed records file before the
    chunks are formed and dispatched: what the file holds after the run does
    not depend on what it held before, and it is empty when no call of the
    run ended with a status other than 200. The workers append to the file
    with no lock; when their lines reach it as they were written (a pool of
    one thread, or appends that the pool does not cut), the file holds the
    lines that the workers of this run appended and no other, and every line
    is a row, in field order, of a chunk of this run whose call returned a
    status other than 200. *)
Theorem failed_records_file_is_cleared
    (server : nat -> nat -> Response)
    (concurrent_appends : Simple.file -> list (nat * list row) -> list row)
    (concurrent_log : list (nat * list (event Simple.DictRow))
                      -> list (event Simple.DictRow))
    (MAX_PARALLEL_TASKS ROWS_PER_CHUNK : Z) (fieldnames : list string)
    (lines : list row) (w0 : Simple.world) :
  exists chunks w,
    Simple.chunk_loop (S (length lines)) fieldnames ROWS_PER_CHUNK lines [] = Some chunks /\
    Simple.main server concurrent_appends concurrent_log MAX_PARALLEL_TASKS
                ROWS_PER_CHUNK fieldnames lines w0 = Some w /\
    (forall w0' w',
       Simple.main server concurrent_appends concurrent_log MAX_PARALLEL_TASKS
                   ROWS_PER_CHUNK fieldnames lines w0' = Some w' ->
       Simple.failed_records w' = Simple.failed_records w) /\
    ((forall i rows, chunks !! i = Some rows ->
                     status_code (outcome (server i)) = 200%Z) ->
     Simple.failed_records w = []) /\
    (MAX_PARALLEL_TASKS = 1%Z \/ lines_kept (concurrent_appends Simple.FailedRecords) ->
     Simple.failed_records w
       ≡ₚ flat_map (fun chunk => chunk_failed (server chunk.1) chunk.2 fieldnames)
                   (Py.enumerate chunks) /\
     forall line, line ∈ Simple.failed_records w ->
       exists chunk d,
         chunk ∈ Py.enumerate chunks /\
         status_code (outcome (server chunk.1)) <> 200%Z /\
         d ∈ chunk.2 /\
         line = values_in_field_order fieldnames d).
Proof.
  destruct (simple_main_files server concurrent_appends concurrent_log MAX_PARALLEL_TASKS
              ROWS_PER_CHUNK fieldnames lines w0)
    as (chunks & w & Hchunks & Hmain & _ & Hfailed & _).
  exists chunks, w. split; [done|]. split; [done|]. split; [|split].
  - intros w0' w' Hmain'.
    destruct (simple_main_files server concurrent_appends concurrent_log
                MAX_PARALLEL_TASKS ROWS_PER_CHUNK fieldnames lines w0')
      as (chunks' & w'' & Hchunks' & Hmain'' & _ & Hfailed' & _).
    assert (w'' = w') as -> by congruence.
    assert (chunks' = chunks) as -> by congruence.
    by rewrite Hfailed, Hfailed'.
  - intros Hall. rewrite Hfailed. apply appended_nothing.
    intros [i rows] Hin. apply enumerate_elem_of in Hin. cbn [fst snd].
    unfold chunk_failed. by rewrite (Hall i rows Hin).
  - intros Hkept.
    pose proof (appended_kept_map concurrent_appends MAX_PARALLEL_TASKS
                  Simple.FailedRecords
                  (fun chunk : nat * list Simple.DictRow =>
                     (chunk.1, chunk_failed (server chunk.1) chunk.2 fieldnames))
                  (Py.enumerate chunks) Hkept) as Happ.
    cbn [snd] in Happ. rewrite <- Hfailed in Happ. split; [exact Happ|].
    intros line Hline. rewrite Happ in Hline.
    apply flat_map_elem_of in Hline as (chunk & Hchunk & Hin).
    unfold chunk_failed in Hin.
    destruct (Z.eqb_spec (status_code (outcome (server chunk.1))) 200) as [|Hne];
      [by apply elem_of_nil in Hin|].
    destruct (writerows_lines _ _ _ Hin) as (d & Hd & ->). by exists chunk, d.
Qed.

(** ** Chunks that fail and chunks that succeed *)

Lemma fails_outcome (post : nat -> Response) :
  fails post = true -> status_code (outcome post) <> 200%Z.
Proof.
  unfold fails, retries, outcome. simpl. rewrite !andb_true_iff, !negb_true_iff.
  intros (H0 & H1 & H2 & _). rewrite H0, H1. by apply Z.eqb_neq.
Qed.

Lemma succeeds_outcome (post : nat -> Response) (n : nat) :
  succeeds post n = true ->
  status_code (outcome post) = 200%Z /\
  exists recs,
    body (outcome post) = Some {| records := Some recs |} /\
    length recs = n /\
    Forall (fun record => is_Some (tokens record)) recs.
Proof.
  unfold succeeds. rewrite andb_true_iff. intros [Hs Hb].
  split; [by apply Z.eqb_eq|].
  destruct (body (outcome post)) as [[[recs|]]|]; try done.
  apply andb_true_iff in Hb as [Hlen Htok]. exists recs. split; [done|].
  split; [by apply Nat.eqb_eq|].
  apply Forall_forall. intros record Hin.
  rewrite forallb_forall in Htok. apply list_elem_of_In in Hin.
  specialize (Htok record Hin). by apply bool_decide_eq_true in Htok.
Qed.

Lemma chunk_files_of_failure (post : nat -> Response) (rows : list Simple.DictRow)
    (fieldnames : list string) :
  fails post = true ->
  chunk_output post rows fieldnames = [] /\
  chunk_failed post rows fieldnames = (Simple.writerows fieldnames rows []).2.
Proof.
  intros Hf%fails_outcome%Z.eqb_neq. unfold chunk_output, chunk_failed. by rewrite Hf.
Qed.

(** ** Rows of [csv.DictReader] *)

(** The dictionary of a line that has one value per field name. *)
Lemma zip_dict_lookup (fieldnames : list string) :
  forall (line : row) (init : gmap string (option string)),
    NoDup fieldnames ->
    length line = length fieldnames ->
    let d := foldl (fun (d : gmap string (option string)) '(k, v) => <[k := Some v]> d)
                   init (Py.zip fieldnames line) in
    (forall j f, fieldnames !! j = Some f -> d !! f = Some <$> line !! j) /\
    (forall key, key ∉ fieldnames -> d !! key = init !! key).
Proof.
  induction fieldnames as [|f fieldnames IH]; intros [|c line] init Hnd Hlen;
    try done.
  apply NoDup_cons in Hnd as [Hf Hnd]. simpl in Hlen.
  destruct (IH line (<[f := Some c]> init) Hnd) as [Hin Hout]; [lia|].
  cbv zeta in *. simpl. split.
  - intros [|j] f' Hj; simpl in *.
    + injection Hj as <-. rewrite Hout by done. by rewrite lookup_insert_eq.
    + by apply Hin.
  - intros key Hkey. rewrite Hout.
    + rewrite lookup_insert_ne; [done|]. intros ->. apply Hkey. by left.
    + intros Hin'. apply Hkey. by right.
Qed.

Lemma dict_of_row_aligned (fieldnames : list string) (line : row) :
  NoDup fieldnames ->
  length line = length fieldnames ->
  let d := Simple.dict_of_row fieldnames line in
  Simple.dict_to_list fieldnames (Simple.known d) (bool_decide (is_Some (Simple.rest d)))
    = Ok line /\
  values_in_field_order fieldnames d = line.
Proof.
  intros Hnd Hlen d.
  assert (Hd : Simple.dict_to_list fieldnames (Simple.known d)
                 (bool_decide (is_Some (Simple.rest d))) = Ok line);
    [|split; [done|]; symmetry; by apply dict_to_list_values].
  subst d. unfold Simple.dict_of_row. rewrite Hlen, Nat.ltb_irrefl. simpl Simple.rest.
  simpl Simple.known.
  destruct (zip_dict_lookup fieldnames line ∅ Hnd Hlen) as [Hin Hout]. cbv zeta in *.
  set (d := foldl _ ∅ _) in *.
  unfold Simple.dict_to_list.
  rewrite bool_decide_eq_false_2 by (by intros [? ?]). simpl orb.
  rewrite bool_decide_eq_true_2.
  - simpl. f_equal. apply list_eq. intros j. rewrite list_lookup_fmap.
    destruct (fieldnames !! j) as [f|] eqn:Hj; simpl.
    + rewrite (Hin j f Hj).
      destruct (lookup_lt_is_Some_2 line j) as [c ->]; [|done].
      apply lookup_lt_Some in Hj. lia.
    + symmetry. apply lookup_ge_None. apply lookup_ge_None in Hj. lia.
  - apply elem_of_subseteq. intros key Hkey. apply elem_of_dom in Hkey.
    apply elem_of_list_to_set. destruct (decide (key ∈ fieldnames)) as [|Hn]; [done|].
    rewrite (Hout key Hn), lookup_empty in Hkey. by destruct Hkey.
Qed.

(** [writerows] on rows that came from aligned lines writes the lines. *)
Lemma writerows_aligned (fieldnames : list string) (failing_lines : list row) :
  NoDup fieldnames ->
  Forall (fun line => length line = length fieldnames) failing_lines ->
  Simple.writerows fieldnames (map (Simple.dict_of_row fieldnames) failing_lines) []
    = (Ok tt, failing_lines).
Proof.
  intros Hnd. induction failing_lines as [|line failing_lines IH]; intros Hall; [done|].
  apply Forall_cons in Hall as [Hline Hall]. simpl.
  destruct (dict_of_row_aligned fieldnames line Hnd Hline) as [-> _].
  rewrite writerows_app, (IH Hall). done.
Qed.

(** Every row that the reader yields is the dictionary of a line. *)
Lemma next_from (fieldnames : list string) (reader : list row) :
  (forall d, (Simple.next fieldnames reader).1 = Some d ->
             exists line, line ∈ reader /\ d = Simple.dict_of_row fieldnames line) /\
  (forall line, line ∈ (Simple.next fieldnames reader).2 -> line ∈ reader).
Proof.
  induction reader as [|r reader [IHd IHr]]; simpl.
  - split; [done|]. by intros line Hin.
  - destruct r as [|c r]; simpl.
    + split.
      * intros d Hd. destruct (IHd d Hd) as (line & Hin & ->). exists line. split; [by right|done].
      * intros line Hin. right. by apply IHr.
    + split.
      * intros d [= <-]. exists (c :: r). split; [by left|done].
      * intros line Hin. by right.
Qed.

Lemma next_rows_from (fieldnames : list string) (n : nat) :
  forall reader : list row,
    (forall d, Some d ∈ (Simple.next_rows fieldnames n reader).1 ->
               exists line, line ∈ reader /\ d = Simple.dict_of_row fieldnames line) /\
    (forall line, line ∈ (Simple.next_rows fieldnames n reader).2 -> line ∈ reader).
Proof.
  induction n as [|n IH]; intros reader; simpl.
  - split; [|done]. intros d Hin. by apply elem_of_nil in Hin.
  - destruct (next_from fieldnames reader) as [Hd Hr].
    destruct (Simple.next fieldnames reader) as [o reader1]. simpl in Hd, Hr.
    destruct (IH reader1) as [Hd' Hr'].
    destruct (Simple.next_rows fieldnames n reader1) as [rs reader2]. simpl in *.
    split.
    + intros d [Heq|Hin]%elem_of_cons.
      * subst o. by apply Hd.
      * destruct (Hd' d Hin) as (line & Hline & ->). exists line. split; [by apply Hr|done].
    + intros line Hin. by apply Hr, Hr'.
Qed.

Lemma chunk_loop_from (fieldnames : list string) (ROWS_PER_CHUNK : Z)
    (lines : list row) (fuel : nat) :
  forall (reader : list row) (acc chunks : list (list Simple.DictRow)),
    Simple.chunk_loop fuel fieldnames ROWS_PER_CHUNK reader acc = Some chunks ->
    (forall line, line ∈ reader -> line ∈ lines) ->
    Forall (Forall (fun d => exists line,
                        line ∈ lines /\ d = Simple.dict_of_row fieldnames line)) acc ->
    Forall (Forall (fun d => exists line,
                        line ∈ lines /\ d = Simple.dict_of_row fieldnames line)) chunks.
Proof.
  induction fuel as [|fuel IH]; intros reader acc chunks Hloop Hsub Hacc; [done|].
  simpl in Hloop.
  destruct (next_rows_from fieldnames (Z.to_nat ROWS_PER_CHUNK) reader) as [Hd Hr].
  destruct (Simple.next_rows fieldnames (Z.to_nat ROWS_PER_CHUNK) reader) as [rs reader'].
  simpl in Hd, Hr.
  destruct (omap _ rs) as [|d ds] eqn:Hrows.
  - by injection Hloop as <-.
  - apply (IH _ _ _ Hloop); [intros line Hin; by apply Hsub, Hr|].
    apply Forall_app. split; [done|]. apply Forall_singleton.
    rewrite <- Hrows. apply Forall_forall. intros d' Hin.
    apply list_elem_of_omap in Hin as (o & Ho & Hf).
    destruct o as [d0|]; [|done]. destruct (Simple.truthy d0); [|done].
    injection Hf as <-. destruct (Hd d0 Ho) as (line & Hline & ->).
    exists line. split; [by apply Hsub|done].
Qed.

(** ** The run of [tokenize_data.py] with one failing chunk *)

Lemma simple_isolates_failing_chunk
    (server : nat -> nat -> Response)
    (concurrent_appends : Simple.file -> list (nat * list row) -> list row)
    (concurrent_log : list (nat * list (event Simple.DictRow))
                      -> list (event Simple.DictRow))
    (MAX_PARALLEL_TASKS ROWS_PER_CHUNK : Z) (fieldnames : list string)
    (lines : list row) (w0 : Simple.world)
    (chunks : list (list Simple.DictRow)) (k : nat) (failing_rows : list Simple.DictRow) :
  NoDup fieldnames ->
  Forall (fun line => length line = length fieldnames) lines ->
  Simple.chunk_loop (S (length lines)) fieldnames ROWS_PER_CHUNK lines [] = Some chunks ->
  chunks !! k = Some failing_rows ->
  fails (server k) = true ->
  (forall i rows, chunks !! i = Some rows -> i <> k ->
                  succeeds (server i) (length rows) = true) ->
  exists w failing_lines,
    Simple.main server concurrent_appends concurrent_log MAX_PARALLEL_TASKS
                ROWS_PER_CHUNK fieldnames lines w0 = Some w /\
    failing_rows = map (Simple.dict_of_row fieldnames) failing_lines /\
    Forall (fun line => line ∈ lines) failing_lines /\
    Simple.failed_records w = failing_lines /\
    Simple.output_csv w = read_back (Simple.temp_output w) /\
    (MAX_PARALLEL_TASKS = 1%Z \/ lines_kept (concurrent_appends Simple.TempOutput) ->
     exists out,
       Simple.temp_output w = ("skyflow_id" :: fieldnames) :: out /\
       out ≡ₚ flat_map (fun chunk => chunk_output (server chunk.1) chunk.2 fieldnames)
                       (filter (fun chunk => chunk.1 <> k) (Py.enumerate chunks))).
Proof.
  intros Hnd Hlines Hchunks Hk Hfail Hok.
  destruct (simple_main_files server concurrent_appends concurrent_log MAX_PARALLEL_TASKS
              ROWS_PER_CHUNK fieldnames lines w0)
    as (chunks' & w & Hchunks' & Hmain & Htemp & Hfailed & Hout).
  assert (chunks' = chunks) as -> by congruence.
  pose proof (chunk_loop_from fieldnames ROWS_PER_CHUNK lines _ _ _ _ Hchunks
                (fun line H => H) (Forall_nil_2 _)) as Hfrom.
  rewrite Forall_forall in Hfrom.
  destruct (Forall_exists_map (Simple.dict_of_row fieldnames) (fun line => line ∈ lines)
              failing_rows) as (failing_lines & Hrows & Hin).
  { apply Hfrom. by eapply list_elem_of_lookup_2. }
  exists w, failing_lines.
  split; [done|]. split; [done|]. split; [done|]. split; [|split; [done|]].
  - rewrite Hfailed.
    rewrite (appended_single concurrent_appends MAX_PARALLEL_TASKS Simple.FailedRecords
               (fun chunk : nat * list Simple.DictRow =>
                  (chunk.1, chunk_failed (server chunk.1) chunk.2 fieldnames))
               (k, failing_rows)).
    + cbn [fst snd].
      destruct (chunk_files_of_failure (server k) failing_rows fieldnames Hfail)
        as [_ ->].
      rewrite Hrows, writerows_aligned; [done|done|].
      apply Forall_forall. intros line Hline.
      rewrite Forall_forall in Hlines, Hin. by apply Hlines, Hin.
    + apply enumerate_NoDup.
    + by apply enumerate_elem_of.
    + intros [i rows] Hi Hne. cbn [fst snd] in Hne. apply enumerate_elem_of in Hi.
      destruct (decide (i = k)) as [->|Hik]; [congruence|].
      destruct (succeeds_outcome _ _ (Hok i rows Hi Hik)) as (Hs & _).
      exfalso. apply Hne. unfold chunk_failed. by rewrite Hs.
  - intros Hkept.
    pose proof (appended_kept_map concurrent_appends MAX_PARALLEL_TASKS
                  Simple.TempOutput
                  (fun chunk : nat * list Simple.DictRow =>
                     (chunk.1, chunk_output (server chunk.1) chunk.2 fieldnames))
                  (Py.enumerate chunks) Hkept) as Happ.
    cbn [snd] in Happ.
    eexists. split; [exact Htemp|]. rewrite Happ.
    rewrite <- flat_map_filter; [done|].
    intros [i rows] Hi Hik. simpl in *.
    assert (i = k) as -> by (destruct (decide (i = k)); [done|by exfalso; apply Hik]).
    by apply chunk_files_of_failure.
Qed.

(** ** The run of the CSV script *)

Lemma collect_app (a b : list Csv.future) :
  forall temp : list row,
    Csv.collect (a ++ b) temp =
      match Csv.collect a temp with
      | (Ok _, temp') => Csv.collect b temp'
      | (Raise e, temp') => (Raise e, temp')
      end.
Proof.
  induction a as [|[offset [result|e]] a IH]; intros temp; simpl; [done|apply IH|done].
Qed.


Lemma collect_all_ok (l : list Csv.future) :
  forall temp : list row,
    Forall (fun f : Csv.future => exists result, f.2 = Ok result) l ->
    Csv.collect l temp = (Ok tt, temp ++ flat_map written l).
Proof.
  induction l as [|[offset r] l IH]; intros temp Hall; simpl.
  - by rewrite app_nil_r.
  - apply Forall_cons in Hall as [[result Hr] Hall]. simpl in Hr. subst r.
    rewrite (IH _ Hall). by rewrite <- app_assoc.
Qed.

Lemma fetch_file_data_ok (data_rows : list row) (offset k : Z) :
  data_rows <> [] ->
  exists first,
    Csv.fetch_file_data data_rows offset k
      = Ok (Py.slice data_rows offset (offset + k), first).
Proof.
  intros Hne. destruct data_rows as [|first data_rows]; [done|]. by exists first.
Qed.

(** The dispatch loop comes to collecting, batch after batch, the futures
    in the order that [as_completed] gives them. *)
Lemma dispatch_collect (server : Z -> nat -> Response)
    (as_completed : list Csv.future -> list Csv.future)
    (data_rows : list row) (row_count rows_per_chunk max_parallel_tasks : Z)
    (skip all_columns : list string) (offsets : list Z) :
  forall (pending : list Z) (w : Csv.world),
    (offsets <> [] -> data_rows <> []) ->
    let sub := submitted server data_rows rows_per_chunk skip all_columns in
    let sched :=
      flat_map as_completed
        (map (map sub) (batches max_parallel_tasks row_count rows_per_chunk offsets pending)) in
    let r := Csv.dispatch server as_completed data_rows row_count rows_per_chunk
                          max_parallel_tasks skip all_columns offsets (map sub pending) w in
    r.1 = (Csv.collect sched (Csv.temp_file w)).1 /\
    Csv.temp_file r.2 = (Csv.collect sched (Csv.temp_file w)).2 /\
    Csv.output_file r.2 = Csv.output_file w.
Proof.
  induction offsets as [|offset rest IH]; intros pending w Hne sub; [done|].
  destruct (fetch_file_data_ok data_rows offset rows_per_chunk) as [first Hfetch];
    [by apply Hne|].
  cbn [Csv.dispatch batches]. rewrite Hfetch.
  assert (Hsub : sub offset
                 = (offset, (Csv.process_chunk (server offset)
                               (Py.slice data_rows offset (offset + rows_per_chunk))
                               skip all_columns).1)) by done.
  destruct (Csv.process_chunk (server offset) _ skip all_columns) as [result trace].
  simpl in Hsub.
  replace (map sub pending ++ [(offset, result)]) with (map sub (pending ++ [offset]))
    by (by rewrite map_app, <- Hsub).
  rewrite length_map.
  destruct ((max_parallel_tasks <=? Z.of_nat (length (pending ++ [offset])))%Z
            || (row_count <=? offset + rows_per_chunk)%Z).
  - cbn [map flat_map Csv.temp_file Csv.output_file Csv.log]. rewrite collect_app.
    destruct (Csv.collect (as_completed (map sub (pending ++ [offset]))) (Csv.temp_file w))
      as [[u|e] temp]; [|done].
    destruct (IH [] {| Csv.temp_file := temp; Csv.output_file := Csv.output_file w;
                       Csv.log := Csv.log w ++ trace |}) as (H1 & H2 & H3);
      [intros _; by apply Hne|].
    cbv zeta in H1, H2, H3. simpl in H1, H2, H3. done.
  - destruct (IH (pending ++ [offset])
                 {| Csv.temp_file := Csv.temp_file w; Csv.output_file := Csv.output_file w;
                    Csv.log := Csv.log w ++ trace |}) as (H1 & H2 & H3);
      [intros _; by apply Hne|].
    cbv zeta in H1, H2, H3. simpl in H1, H2, H3. done.
Qed.

Lemma range_no_rows (k : Z) (offsets : list Z) :
  Py.range 0 0 k = Ok offsets -> offsets = [].
Proof.
  unfold Py.range, Py.range_len. destruct (k =? 0)%Z; [done|].
  destruct (0 <? k)%Z; simpl; [by intros [= <-]|].
  destruct (k <? 0)%Z; simpl; by intros [= <-].
Qed.

(** [__main__] of the CSV script on a file with a header row, once the pool
    and the range of offsets exist. *)
Lemma csv_main_collect (server : Z -> nat -> Response)
    (as_completed : list Csv.future -> list Csv.future)
    (config : Csv.Config) (headers_row : row) (data_rows : list row) (offsets : list Z) :
  (0 < Csv.max_parallel_tasks config)%Z ->
  Py.range 0 (Z.of_nat (length data_rows)) (Csv.rows_per_chunk config) = Ok offsets ->
  let skip := map (fun col => Py.lower (Py.strip col))
                  (filter (fun col => Py.truthy (Py.strip col) = true)
                          (Py.split "," (Csv.skip_columns_cfg config))) in
  let all_columns := "skyflow_id" :: map Py.lower headers_row in
  let sched :=
    flat_map as_completed
      (map (map (submitted server data_rows (Csv.rows_per_chunk config) skip all_columns))
           (batches (Csv.max_parallel_tasks config) (Z.of_nat (length data_rows))
                    (Csv.rows_per_chunk config) offsets [])) in
  let r := Csv.main server as_completed config (headers_row :: data_rows) in
  r.1 = (Csv.collect sched []).1 /\
  Csv.temp_file r.2 = (Csv.collect sched []).2 /\
  Csv.output_file r.2
    = if Py.raises (Csv.collect sched []).1 then None
      else Some (("skyflow_id" :: headers_row) :: read_back (Csv.collect sched []).2).
Proof.
  intros Hmt Hrange skip all_columns sched r. subst r. unfold Csv.main.
  change (Py.getitem (headers_row :: data_rows) 0) with (Ok headers_row : result row).
  cbv iota beta.
  change (drop 1 (headers_row :: data_rows)) with data_rows.
  unfold Csv.get_filtered_columns.
  change (Py.getitem ([headers_row] ++ data_rows) 0) with (Ok headers_row : result row).
  unfold Py.bind. fold skip. cbv iota beta zeta. fold all_columns.
  destruct (Z.leb_spec (Csv.max_parallel_tasks config) 0) as [|_]; [lia|].
  unfold Csv.get_file_row_count.
  replace (Z.of_nat (length (headers_row :: data_rows)) - 1)%Z
    with (Z.of_nat (length data_rows)) by (simpl; lia).
  rewrite Hrange.
  destruct (dispatch_collect server as_completed data_rows (Z.of_nat (length data_rows))
              (Csv.rows_per_chunk config) (Csv.max_parallel_tasks config)
              skip all_columns offsets [] Csv.start) as (H1 & H2 & H3).
  { intros Hne ->. simpl in Hrange. apply range_no_rows in Hrange. done. }
  cbv zeta in H1, H2, H3. simpl map in H1, H2, H3. fold sched in H1, H2.
  change (Csv.temp_file Csv.start) with ([] : list row) in H1, H2.
  destruct (Csv.dispatch _ _ _ _ _ _ _ _ _ _ _) as [[[]|e] w]; simpl in H1, H2, H3 |- *;
    rewrite <- H1, <- ?H2; simpl; [done|].
  by rewrite H3.
Qed.

Lemma range_negative_step (n k : Z) :
  (0 <= n)%Z -> (k < 0)%Z -> Py.range 0 n k = Ok [].
Proof.
  intros Hn Hk. unfold Py.range, Py.range_len.
  destruct (Z.eqb_spec k 0); [lia|].
  destruct (Z.ltb_spec 0 k); [lia|].
  destruct (Z.ltb_spec k 0); [|lia].
  destruct (Z.ltb_spec n 0); [lia|done].
Qed.

(** The last offset of the range reaches the end of the rows. *)
Lemma range_last (n k : Z) (offsets : list Z) (o : Z) :
  (0 <= n)%Z -> Py.range 0 n k = Ok offsets -> last offsets = Some o -> (n <= o + k)%Z.
Proof.
  intros Hn Hrange Hlast. destruct (Z.lt_trichotomy k 0) as [Hk|[->|Hk]].
  - rewrite range_negative_step in Hrange by done. by injection Hrange as <-.
  - done.
  - destruct (range_positive_step n k Hn Hk) as (m & Hr & _ & Hge).
    rewrite Hr in Hrange. injection Hrange as <-.
    rewrite last_lookup, length_map, length_seq, list_lookup_fmap in Hlast.
    destruct m as [|m]; [done|]. simpl pred in Hlast.
    rewrite lookup_seq_lt in Hlast by lia. simpl in Hlast. injection Hlast as <-. lia.
Qed.

(** Put end to end, the batches are the offsets. *)
Lemma batches_concat (mt n k : Z) (offsets : list Z) :
  forall pending : list Z,
    offsets <> [] ->
    (forall o, last offsets = Some o -> (n <= o + k)%Z) ->
    concat (batches mt n k offsets pending) = pending ++ offsets.
Proof.
  induction offsets as [|offset rest IH]; intros pending Hne Hlast; [done|].
  cbn [batches].
  destruct rest as [|offset' rest].
  - assert ((n <=? offset + k)%Z = true) as ->.
    { apply Z.leb_le. by apply Hlast. }
    rewrite orb_true_r. simpl. by rewrite app_nil_r.
  - assert (Hrest : forall pending',
              concat (batches mt n k (offset' :: rest) pending')
              = pending' ++ offset' :: rest).
    { intros pending'. apply IH; [done|]. intros o Ho. apply Hlast.
      by rewrite last_cons_cons. }
    destruct (_ || _).
    + cbn [concat]. rewrite Hrest. simpl. by rewrite <- app_assoc.
    + rewrite Hrest. by rewrite <- app_assoc.
Qed.

Lemma batches_concat_range (mt n k : Z) (offsets : list Z) :
  (0 <= n)%Z -> Py.range 0 n k = Ok offsets ->
  concat (batches mt n k offsets []) = offsets.
Proof.
  intros Hn Hrange. destruct offsets as [|offset rest]; [done|].
  rewrite batches_concat; [done|done|]. intros o. by apply range_last.
Qed.

Lemma flat_map_permuted {A} (as_completed : list A -> list A) (bs : list (list A)) :
  (forall l, as_completed l ≡ₚ l) -> flat_map as_completed bs ≡ₚ concat bs.
Proof.
  intros Hperm. induction bs as [|b bs IH]; simpl; [done|]. by rewrite Hperm, IH.
Qed.


Lemma slice_elem_of {A} (l : list A) (lo hi : Z) (x : A) :
  x ∈ Py.slice l lo hi -> x ∈ l.
Proof.
  unfold Py.slice. intros Hin. by apply subseteq_take, subseteq_drop in Hin.
Qed.

(** In the CSV script a chunk that fails gives an empty result and an entry
    in the log. *)
Lemma csv_failure_rows (post : nat -> Response) (rows : list row)
    (skip all_columns : list string) :
  fails post = true ->
  Forall (fun r : row => length (drop 1 all_columns) <= length r) rows ->
  NoDup (drop 1 all_columns) ->
  (Csv.process_chunk post rows skip all_columns).1 = Ok [] /\
  FailedApiCall (status_code (outcome post))
    ∈ errors (Csv.process_chunk post rows skip all_columns).2.
Proof.
  intros Hf Hrows Hnd.
  destruct (build_payload_records rows skip all_columns Hrows Hnd) as (precs & Hp & _).
  rewrite (csv_process_chunk_eq _ _ _ _ _ Hp). cbv zeta.
  apply fails_outcome, Z.eqb_neq in Hf. rewrite Hf. simpl. split; [done|].
  unfold errors. rewrite omap_app. apply elem_of_app. right. by left.
Qed.

Lemma errors_elem_of {F} (m : log_message) (trace : list (event F)) :
  m ∈ errors trace <-> LogError m ∈ trace.
Proof.
  unfold errors. rewrite list_elem_of_omap. split.
  - intros ([| |m'] & Hin & Hm); try done. by injection Hm as ->.
  - intros Hin. by exists (LogError m).
Qed.

(** The log of a run that reaches its end holds what every worker logged. *)
Lemma dispatch_log (server : Z -> nat -> Response)
    (as_completed : list Csv.future -> list Csv.future)
    (data_rows : list row) (row_count rows_per_chunk max_parallel_tasks : Z)
    (skip all_columns : list string) (offsets : list Z) :
  forall (futures : list Csv.future) (w w' : Csv.world) (u : unit),
    Csv.dispatch server as_completed data_rows row_count rows_per_chunk
                 max_parallel_tasks skip all_columns offsets futures w = (Ok u, w') ->
    (forall e, e ∈ Csv.log w -> e ∈ Csv.log w') /\
    forall offset, offset ∈ offsets ->
      forall e,
        e ∈ (Csv.process_chunk (server offset)
               (Py.slice data_rows offset (offset + rows_per_chunk))
               skip all_columns).2 ->
        e ∈ Csv.log w'.
Proof.
  induction offsets as [|offset rest IH]; intros futures w w' u Hrun.
  - cbn [Csv.dispatch] in Hrun. injection Hrun as _ <-. split; [done|].
    intros o Ho. by apply elem_of_nil in Ho.
  - cbn [Csv.dispatch] in Hrun. unfold Csv.fetch_file_data in Hrun.
    destruct (Py.getitem data_rows 0) as [first|e]; [|done]. cbn [Py.bind] in Hrun.
    destruct (Csv.process_chunk (server offset)
                (Py.slice data_rows offset (offset + rows_per_chunk)) skip all_columns)
      as [result trace] eqn:Hchunk.
    assert (forall w1 futures1,
              Csv.log w1 = Csv.log w ++ trace ->
              Csv.dispatch server as_completed data_rows row_count rows_per_chunk
                           max_parallel_tasks skip all_columns rest futures1 w1
              = (Ok u, w') ->
              (forall e, e ∈ Csv.log w -> e ∈ Csv.log w') /\
              forall o, o ∈ offset :: rest ->
                forall e,
                  e ∈ (Csv.process_chunk (server o)
                         (Py.slice data_rows o (o + rows_per_chunk))
                         skip all_columns).2 ->
                  e ∈ Csv.log w') as Hstep.
    { intros w1 futures1 Hlog Hrest. destruct (IH _ _ _ _ Hrest) as [Hkeep Hall].
      split.
      - intros e He. apply Hkeep. rewrite Hlog. apply elem_of_app. by left.
      - intros o Ho e He. apply elem_of_cons in Ho as [->|Ho]; [|by apply (Hall o)].
        apply Hkeep. rewrite Hlog, Hchunk in *. apply elem_of_app. by right. }
    destruct (_ || _).
    + destruct (Csv.collect _ _) as [[u'|e] temp]; [|done].
      by eapply Hstep; [|exact Hrun].
    + by eapply Hstep; [|exact Hrun].
Qed.

Lemma csv_main_log (server : Z -> nat -> Response)
    (as_completed : list Csv.future -> list Csv.future)
    (config : Csv.Config) (headers_row : row) (data_rows : list row)
    (offsets : list Z) (w : Csv.world) :
  Csv.main server as_completed config (headers_row :: data_rows) = (Ok tt, w) ->
  Py.range 0 (Z.of_nat (length data_rows)) (Csv.rows_per_chunk config) = Ok offsets ->
  let skip := map (fun col => Py.lower (Py.strip col))
                  (filter (fun col => Py.truthy (Py.strip col) = true)
                          (Py.split "," (Csv.skip_columns_cfg config))) in
  let all_columns := "skyflow_id" :: map Py.lower headers_row in
  forall offset, offset ∈ offsets ->
    forall e,
      e ∈ (Csv.process_chunk (server offset)
             (Py.slice data_rows offset (offset + Csv.rows_per_chunk config))
             skip all_columns).2 ->
      e ∈ Csv.log w.
Proof.
  intros Hmain Hrange skip all_columns offset Hoff e He. unfold Csv.main in Hmain.
  change (Py.getitem (headers_row :: data_rows) 0) with (Ok headers_row : result row)
    in Hmain.
  cbv iota beta in Hmain.
  change (drop 1 (headers_row :: data_rows)) with data_rows in Hmain.
  unfold Csv.get_filtered_columns in Hmain.
  change (Py.getitem ([headers_row] ++ data_rows) 0) with (Ok headers_row : result row)
    in Hmain.
  unfold Py.bind in Hmain. fold skip in Hmain. cbv iota beta zeta in Hmain.
  fold all_columns in Hmain.
  destruct (Csv.max_parallel_tasks config <=? 0)%Z; [done|].
  unfold Csv.get_file_row_count in Hmain.
  replace (Z.of_nat (length (headers_row :: data_rows)) - 1)%Z
    with (Z.of_nat (length data_rows)) in Hmain by (simpl; lia).
  rewrite Hrange in Hmain.
  destruct (Csv.dispatch _ _ _ _ _ _ _ _ _ _ _) as [[u|e'] w'] eqn:Hrun; [|done].
  injection Hmain as <-. cbn [Csv.log].
  destruct (dispatch_log _ _ _ _ _ _ _ _ _ _ _ _ _ Hrun) as [_ Hall].
  by apply (Hall offset).
Qed.

Lemma csv_isolates_failing_chunk (server : Z -> nat -> Response)
    (as_completed : list Csv.future -> list Csv.future)
    (config : Csv.Config) (headers_row : row) (data_rows : list row)
    (offsets : list Z) (k_off : Z) :
  (forall l, as_completed l ≡ₚ l) ->
  (0 < Csv.max_parallel_tasks config)%Z ->
  NoDup (map Py.lower headers_row) ->
  Forall (fun r : row => length headers_row <= length r) data_rows ->
  Py.range 0 (Z.of_nat (length data_rows)) (Csv.rows_per_chunk config) = Ok offsets ->
  k_off ∈ offsets ->
  fails (server k_off) = true ->
  (forall offset, offset ∈ offsets -> offset <> k_off ->
     succeeds (server offset)
              (length (Py.slice data_rows offset (offset + Csv.rows_per_chunk config)))
     = true) ->
  let skip := map (fun col => Py.lower (Py.strip col))
                  (filter (fun col => Py.truthy (Py.strip col) = true)
                          (Py.split "," (Csv.skip_columns_cfg config))) in
  let all_columns := "skyflow_id" :: map Py.lower headers_row in
  let sub := submitted server data_rows (Csv.rows_per_chunk config) skip all_columns in
  exists w out,
    Csv.main server as_completed config (headers_row :: data_rows) = (Ok tt, w) /\
    Csv.files w = [out; ("skyflow_id" :: headers_row) :: read_back out] /\
    out ≡ₚ flat_map (fun offset => written (sub offset))
                    (filter (fun offset => offset <> k_off) offsets) /\
    written (sub k_off) = [] /\
    FailedApiCall (status_code (outcome (server k_off))) ∈ errors (Csv.log w).
Proof.
  intros Hperm Hmt Hnd Hrows Hrange Hkin Hfail Hok skip all_columns sub.
  assert (Hslice : forall offset,
            Forall (fun r : row => length (drop 1 all_columns) <= length r)
                   (Py.slice data_rows offset (offset + Csv.rows_per_chunk config))).
  { intros offset. apply Forall_forall. intros r Hr%slice_elem_of.
    rewrite Forall_forall in Hrows.
    change (drop 1 all_columns) with (map Py.lower headers_row).
    rewrite length_map. by apply Hrows. }
  assert (Hkoff : (sub k_off).2 = Ok []).
  { by apply csv_failure_rows. }
  assert (Hall : forall offset, offset ∈ offsets -> exists result, (sub offset).2 = Ok result).
  { intros offset Hin. destruct (decide (offset = k_off)) as [->|Hne]; [by eexists|].
    destruct (succeeds_outcome _ _ (Hok offset Hin Hne)) as (Hs & recs & Hb & Hlen & Htok).
    destruct (csv_success_rows (server offset) recs
                (Py.slice data_rows offset (offset + Csv.rows_per_chunk config))
                skip all_columns Hs Hb Htok Hlen (Hslice offset) Hnd) as (out & Hout & _).
    by exists out. }
  destruct (csv_main_collect server as_completed config headers_row data_rows offsets
              Hmt Hrange) as (H1 & H2 & H3).
  cbv zeta in H1, H2, H3. fold skip all_columns sub in H1, H2, H3.
  set (bs := batches _ _ _ offsets []) in *.
  assert (Hsched : flat_map as_completed (map (map sub) bs) ≡ₚ map sub offsets).
  { rewrite (flat_map_permuted as_completed _ Hperm), <- concat_map.
    unfold bs. rewrite batches_concat_range; [done|lia|done]. }
  assert (Hfutures : Forall (fun f : Csv.future => exists result, f.2 = Ok result)
                            (flat_map as_completed (map (map sub) bs))).
  { apply Forall_forall. intros f Hf. rewrite Hsched in Hf.
    apply list_elem_of_fmap in Hf as (offset & -> & Hin). by apply Hall. }
  rewrite (collect_all_ok _ _ Hfutures) in H1, H2, H3.
  cbn [fst snd Py.raises app] in H1, H2, H3.
  destruct (Csv.main server as_completed config (headers_row :: data_rows)) as [r w]
    eqn:Hmain.
  cbn [fst snd] in H1, H2, H3. subst r.
  exists w, (flat_map written (flat_map as_completed (map (map sub) bs))).
  split; [done|]. split; [|split; [|split]].
  - unfold Csv.files. by rewrite H2, H3.
  - rewrite (flat_map_Permutation _ _ _ Hsched), flat_map_concat_map, map_map,
      <- flat_map_concat_map.
    rewrite <- flat_map_filter; [done|].
    intros offset _ Hoff.
    assert (offset = k_off) as -> by (destruct (decide (offset = k_off)); [done|by exfalso; apply Hoff]).
    unfold written. by rewrite Hkoff.
  - unfold written. by rewrite Hkoff.
  - apply errors_elem_of.
    apply (csv_main_log server as_completed config headers_row data_rows offsets w
             Hmain Hrange k_off Hkin).
    apply errors_elem_of. by apply csv_failure_rows.
Qed.


(** ** C2: the order of the output rows *)




(** ** Every row is in a chunk *)

(** CSV script: the row at position [i] is in the chunk whose offset is the
    multiple of the chunk size below [i]. *)
Lemma csv_rows_covered (data_rows : list row) (k : Z) (offsets : list Z) :
  (0 < k)%Z ->
  Py.range 0 (Z.of_nat (length data_rows)) k = Ok offsets ->
  forall (i : nat) (r : row),
    data_rows !! i = Some r ->
    exists (offset : Z) (j : nat),
      offset ∈ offsets /\
      Py.slice data_rows offset (offset + k) !! j = Some r /\
      Z.of_nat i = (offset + Z.of_nat j)%Z /\
      (Z.of_nat j < k)%Z.
Proof.
  intros Hk Hrange i r Hi.
  destruct (range_positive_step (Z.of_nat (length data_rows)) k) as (m & Hr & Hlt & Hge);
    [lia|done|].
  rewrite Hr in Hrange. injection Hrange as <-.
  pose proof (lookup_lt_Some _ _ _ Hi) as Hlen.
  pose proof (Z.div_mod (Z.of_nat i) k ltac:(lia)) as Hdiv.
  pose proof (Z.mod_pos_bound (Z.of_nat i) k Hk) as Hmod.
  assert (Hq : (0 <= Z.of_nat i / k)%Z) by (apply Z.div_pos; lia).
  set (q := Z.to_nat (Z.of_nat i / k)).
  set (j := Z.to_nat (Z.of_nat i mod k)).
  assert (Hqm : q < m) by (subst q; nia).
  exists (Z.of_nat q * k)%Z, j. split; [|split; [|split]].
  - apply list_elem_of_fmap. exists q. split; [done|]. apply elem_of_seq. lia.
  - rewrite slice_inside by (subst q; nia).
    rewrite lookup_take_lt by (subst q j; nia).
    rewrite lookup_drop. rewrite <- Hi. f_equal. subst q j. nia.
  - subst q j. nia.
  - subst j. lia.
Qed.

(** [tokenize_data.py]: a line that is not empty gives a dictionary that
    counts as true, so that the filter of the chunk loop keeps it. First,
    a loop of assignments leaves no empty dictionary. *)
Lemma foldl_zip_non_empty (l : list (string * string)) :
  forall init : gmap string (option string),
    init <> ∅ ->
    foldl (fun (d : gmap string (option string)) '(k, v) => <[k := Some v]> d) init l <> ∅.
Proof.
  induction l as [|[k v] l IH]; intros init Hinit; [done|].
  simpl. apply IH, insert_non_empty.
Qed.

Lemma foldl_restval_non_empty (l : list string) :
  forall init : gmap string (option string),
    init <> ∅ ->
    foldl (fun (d : gmap string (option string)) key => <[key := None]> d) init l <> ∅.
Proof.
  induction l as [|key l IH]; intros init Hinit; [done|].
  simpl. apply IH, insert_non_empty.
Qed.

Lemma dict_of_row_truthy (fieldnames : list string) (r : row) :
  r <> [] -> Simple.truthy (Simple.dict_of_row fieldnames r) = true.
Proof.
  intros Hr. destruct r as [|c r]; [done|]. unfold Simple.truthy, Simple.dict_of_row.
  destruct (Nat.ltb_spec (length fieldnames) (length (c :: r))) as [|Hle]; simpl.
  { by rewrite orb_true_r. }
  destruct fieldnames as [|f fieldnames]; [simpl in Hle; lia|].
  apply orb_true_iff. left. apply negb_true_iff, bool_decide_eq_false_2.
  simpl. destruct (S (length r) <? S (length fieldnames)); simpl;
    [apply foldl_restval_non_empty|]; apply foldl_zip_non_empty, insert_non_empty.
Qed.

Lemma next_spec (fieldnames : list string) (reader : list row) :
  (Simple.next fieldnames reader).1
    = Simple.dict_of_row fieldnames <$> head (filter (fun r : row => r <> []) reader) /\
  filter (fun r : row => r <> []) (Simple.next fieldnames reader).2
    = tail (filter (fun r : row => r <> []) reader).
Proof.
  induction reader as [|r reader IH]; [done|].
  destruct r as [|c r].
  - rewrite filter_cons_False by (by intros H). exact IH.
  - rewrite filter_cons_True by done. done.
Qed.

Lemma next_rows_spec (fieldnames : list string) (n : nat) :
  forall reader : list row,
    omap (fun r : option Simple.DictRow =>
            match r with
            | Some d => if Simple.truthy d then Some d else None
            | None => None
            end) (Simple.next_rows fieldnames n reader).1
      = map (Simple.dict_of_row fieldnames)
            (take n (filter (fun r : row => r <> []) reader)) /\
    filter (fun r : row => r <> []) (Simple.next_rows fieldnames n reader).2
      = drop n (filter (fun r : row => r <> []) reader).
Proof.
  induction n as [|n IH]; intros reader; [done|].
  cbn [Simple.next_rows]. destruct (next_spec fieldnames reader) as [Ho Hr].
  destruct (Simple.next fieldnames reader) as [o reader1]. cbn [fst snd] in Ho, Hr.
  destruct (IH reader1) as [Hrs Hrest].
  destruct (Simple.next_rows fieldnames n reader1) as [rs reader2].
  cbn [fst snd] in Hrs, Hrest |- *.
  rewrite Hrest, Hr. cbn [omap list_omap]. rewrite Hrs, Hr. subst o.
  destruct (filter (fun r : row => r <> []) reader) as [|r ne] eqn:Hne; cbn.
  - by rewrite take_nil, drop_nil.
  - assert (r <> []) as Hnonempty.
    { assert (Hin : r ∈ filter (fun r : row => r <> []) reader) by (rewrite Hne; by left).
      by apply list_elem_of_filter in Hin as [? _]. }
    by rewrite (dict_of_row_truthy fieldnames r Hnonempty).
Qed.

(** Put end to end, the chunks of [tokenize_data.py] are the dictionaries of
    the lines that are not empty, in their order. *)
Lemma chunk_loop_concat (fieldnames : list string) (ROWS_PER_CHUNK : Z) (fuel : nat) :
  0 < Z.to_nat ROWS_PER_CHUNK ->
  forall (reader : list row) (acc chunks : list (list Simple.DictRow)),
    Simple.chunk_loop fuel fieldnames ROWS_PER_CHUNK reader acc = Some chunks ->
    concat chunks
    = concat acc ++ map (Simple.dict_of_row fieldnames)
                        (filter (fun r : row => r <> []) reader).
Proof.
  intros Hpos. induction fuel as [|fuel IH]; intros reader acc chunks Hloop; [done|].
  simpl in Hloop.
  destruct (next_rows_spec fieldnames (Z.to_nat ROWS_PER_CHUNK) reader) as [Hrows Hrest].
  destruct (Simple.next_rows fieldnames (Z.to_nat ROWS_PER_CHUNK) reader) as [rs reader'].
  simpl in Hrows, Hrest. rewrite Hrows in Hloop.
  set (ne := filter (fun r : row => r <> []) reader) in *.
  destruct (map _ (take _ ne)) as [|d ds] eqn:Hchunk.
  - injection Hloop as <-.
    apply fmap_nil_inv, take_nil_inv in Hchunk as [Hz| ->]; [lia|].
    by rewrite app_nil_r.
  - rewrite (IH _ _ _ Hloop), Hrest, <- Hchunk, concat_app. simpl.
    rewrite app_nil_r, <- app_assoc, <- map_app, take_drop. done.
Qed.

(** ** C1: one chunk that fails *)

(** C1, as stated, fails for the CSV script, which has no failure sink: of
    four rows in chunks of two, the second chunk gets status 500 at every
    attempt; the run ends normally, the rows of the first chunk are in the
    output, and no file that the run writes holds the rows of the second. *)
Lemma csv_failed_chunk_is_kept_nowhere :
  let ok :=
    {| status_code := 200;
       body := Some {| records :=
                 Some [ {| skyflow_id := Some "id0"; tokens := Some {[ "name" := "tA" ]} |};
                        {| skyflow_id := Some "id1"; tokens := Some {[ "name" := "tB" ]} |} ] |} |} in
  let server (offset : Z) (attempt : nat) :=
    if (offset =? 2)%Z then {| status_code := 500; body := None |} else ok in
  let config := {| Csv.rows_per_chunk := 2; Csv.max_parallel_tasks := 5;
                   Csv.skip_columns_cfg := "" |} in
  let run := Csv.main server id config [["name"]; ["A"]; ["B"]; ["C"]; ["D"]] in
  run.1 = Ok tt /\
  Csv.files run.2
  = [ [["id0"; "tA"]; ["id1"; "tB"]];
      [["skyflow_id"; "name"]; ["id0"; "tA"]; ["id1"; "tB"]] ] /\
  ~ (exists file, file ∈ Csv.files run.2 /\ file = [["C"]; ["D"]]).
Proof.
  intros ok server config run.
  assert (Hfiles : Csv.files run.2
                   = [ [["id0"; "tA"]; ["id1"; "tB"]];
                       [["skyflow_id"; "name"]; ["id0"; "tA"]; ["id1"; "tB"]] ])
    by (vm_compute; reflexivity).
  split; [vm_compute; reflexivity|]. split; [exact Hfiles|].
  intros (file & Hin & ->). rewrite Hfiles in Hin.
  repeat (apply elem_of_cons in Hin as [Hin|Hin]; [discriminate Hin|]).
  by apply elem_of_nil in Hin.
Qed.

(** C1, amended. One chunk gets a status other than 200 at each of its three
    attempts, every other chunk is answered with status 200 and one record
    with a token map per row, the rows have a value for every column, the
    column names are distinct and the chunk size is positive. Then the run
    ends normally and the chunks cover the rows of the source. In
    [tokenize_data.py] the failed records file holds exactly the lines of the
    failing chunk, in their order and field order, whatever the pool does;
    the workers append to the temporary file with no lock, and when their
    lines reach it as they were written (a pool of one thread, or appends
    that the pool does not cut), the temporary file holds, after the header,
    the output rows of the other chunks and nothing else, and every row
    outside the failing chunk has its output row in the output file, which
    is the temporary file as it is read back.
    In the CSV script, whatever the order in which the chunks complete, the
    same holds of the temporary file and the output file; the script has no
    failure sink: the failure of the chunk is logged, it writes the temporary
    file and the output file alone, and the failing chunk adds nothing to
    either. *)
Theorem one_failing_chunk_is_isolated :
  (forall (server : nat -> nat -> Response)
          (concurrent_appends : Simple.file -> list (nat * list row) -> list row)
          (concurrent_log : list (nat * list (event Simple.DictRow))
                            -> list (event Simple.DictRow))
          (MAX_PARALLEL_TASKS ROWS_PER_CHUNK : Z) (fieldnames : list string)
          (lines : list row)
          (w0 : Simple.world) (chunks : list (list Simple.DictRow)) (k : nat)
          (failing_rows : list Simple.DictRow),
     NoDup fieldnames ->
     Forall (fun line => length line = length fieldnames) lines ->
     Simple.chunk_loop (S (length lines)) fieldnames ROWS_PER_CHUNK lines [] = Some chunks ->
     chunks !! k = Some failing_rows ->
     fails (server k) = true ->
     (forall i rows, chunks !! i = Some rows -> i <> k ->
                     succeeds (server i) (length rows) = true) ->
     exists w failing_lines,
       Simple.main server concurrent_appends concurrent_log MAX_PARALLEL_TASKS
                   ROWS_PER_CHUNK fieldnames lines w0 = Some w /\
       concat chunks
         = map (Simple.dict_of_row fieldnames) (filter (fun line : row => line <> []) lines) /\
       failing_rows = map (Simple.dict_of_row fieldnames) failing_lines /\
       Forall (fun line => line ∈ lines) failing_lines /\
       Simple.failed_records w = failing_lines /\
       (MAX_PARALLEL_TASKS = 1%Z \/ lines_kept (concurrent_appends Simple.TempOutput) ->
        exists out,
          Simple.temp_output w = ("skyflow_id" :: fieldnames) :: out /\
          Simple.output_csv w = read_back (("skyflow_id" :: fieldnames) :: out) /\
          out ≡ₚ flat_map (fun chunk => chunk_output (server chunk.1) chunk.2 fieldnames)
                          (filter (fun chunk => chunk.1 <> k) (Py.enumerate chunks)) /\
          forall i rows j d,
            chunks !! i = Some rows -> i <> k -> rows !! j = Some d ->
            exists record,
              output_line fieldnames d record ∈ out /\
              map Py.universal_newlines (output_line fieldnames d record)
                ∈ Simple.output_csv w)) /\
  (forall (server : Z -> nat -> Response)
          (as_completed : list Csv.future -> list Csv.future)
          (config : Csv.Config) (headers_row : row) (data_rows : list row)
          (offsets : list Z) (k_off : Z),
     (forall l, as_completed l ≡ₚ l) ->
     (0 < Csv.max_parallel_tasks config)%Z ->
     (0 < Csv.rows_per_chunk config)%Z ->
     NoDup (map Py.lower headers_row) ->
     Forall (fun r : row => length headers_row <= length r) data_rows ->
     Py.range 0 (Z.of_nat (length data_rows)) (Csv.rows_per_chunk config) = Ok offsets ->
     k_off ∈ offsets ->
     fails (server k_off) = true ->
     (forall offset, offset ∈ offsets -> offset <> k_off ->
        succeeds (server offset)
                 (length (Py.slice data_rows offset (offset + Csv.rows_per_chunk config)))
        = true) ->
     let skip := map (fun col => Py.lower (Py.strip col))
                     (filter (fun col => Py.truthy (Py.strip col) = true)
                             (Py.split "," (Csv.skip_columns_cfg config))) in
     let all_columns := "skyflow_id" :: map Py.lower headers_row in
     let sub := submitted server data_rows (Csv.rows_per_chunk config) skip all_columns in
     exists w out,
       Csv.main server as_completed config (headers_row :: data_rows) = (Ok tt, w) /\
       Csv.files w = [out; ("skyflow_id" :: headers_row) :: read_back out] /\
       out ≡ₚ flat_map (fun offset => written (sub offset))
                       (filter (fun offset => offset <> k_off) offsets) /\
       written (sub k_off) = [] /\
       FailedApiCall (status_code (outcome (server k_off))) ∈ errors (Csv.log w) /\
       (forall (i : nat) (r : row),
          data_rows !! i = Some r ->
          ~ (k_off <= Z.of_nat i < k_off + Csv.rows_per_chunk config)%Z ->
          exists record cells,
            map csv_cell (skyflow_id record :: cells) ∈ out /\
            map Py.universal_newlines (map csv_cell (skyflow_id record :: cells))
              ∈ read_back out /\
            forall c col, map Py.lower headers_row !! c = Some col ->
                          cells !! c = Some (expected_cell skip record r c col))).
Proof.
  split.
  - intros server concurrent_appends concurrent_log MAX_PARALLEL_TASKS ROWS_PER_CHUNK
           fieldnames lines w0 chunks k failing_rows Hnd Hlines Hchunks Hk Hfail Hok.
    destruct (simple_isolates_failing_chunk server concurrent_appends concurrent_log
                MAX_PARALLEL_TASKS ROWS_PER_CHUNK fieldnames lines w0 chunks k
                failing_rows Hnd Hlines Hchunks Hk Hfail Hok)
      as (w & failing_lines & Hmain & Hrows & Hin & Hfailed & Hcsv & Hwhole).
    exists w, failing_lines.
    split; [done|]. split; [|split; [done|split; [done|split; [done|]]]].
    + assert (Hpos : 0 < Z.to_nat ROWS_PER_CHUNK).
      { destruct (Z.to_nat ROWS_PER_CHUNK) as [|n] eqn:Hn; [|lia].
        exfalso. cbn [Simple.chunk_loop] in Hchunks. rewrite Hn in Hchunks.
        simpl in Hchunks. injection Hchunks as <-. done. }
      by rewrite (chunk_loop_concat _ _ _ Hpos _ _ _ Hchunks).
    + intros Hw. destruct (Hwhole Hw) as (out & Htemp & Hout).
      exists out. split; [done|]. split; [by rewrite Hcsv, Htemp|]. split; [done|].
      intros i rows j d Hi Hik Hj.
      destruct (succeeds_outcome _ _ (Hok i rows Hi Hik)) as (Hs & recs & Hb & Hlen & _).
      destruct (lookup_lt_is_Some_2 recs j) as [record Hrecord].
      { apply lookup_lt_Some in Hj. lia. }
      destruct (simple_success_rows (server i) recs rows fieldnames Hs Hb Hlen)
        as (_ & _ & Hline).
      assert (output_line fieldnames d record ∈ out) as Hline_out.
      { rewrite Hout. apply flat_map_elem_of. exists (i, rows). split.
        - apply list_elem_of_filter. split; [done|]. by apply enumerate_elem_of.
        - eapply list_elem_of_lookup_2. by apply Hline. }
      exists record. split; [exact Hline_out|].
      rewrite Hcsv, Htemp. unfold read_back. apply list_elem_of_fmap.
      exists (output_line fieldnames d record). split; [done|]. by right.
  - intros server as_completed config headers_row data_rows offsets k_off
           Hperm Hmt Hk Hnd Hrows Hrange Hkin Hfail Hok skip all_columns sub.
    destruct (csv_isolates_failing_chunk server as_completed config headers_row data_rows
                offsets k_off Hperm Hmt Hnd Hrows Hrange Hkin Hfail Hok)
      as (w & out & Hmain & Hfiles & Hout & Hkoff & Hlog).
    fold skip all_columns sub in Hout, Hkoff.
    exists w, out.
    split; [done|]. split; [done|]. split; [done|]. split; [done|]. split; [done|].
    intros i r Hi Houtside.
    destruct (csv_rows_covered data_rows (Csv.rows_per_chunk config) offsets Hk Hrange i r Hi)
      as (offset & j & Hin & Hj & Hij & Hjk).
    assert (Hne : offset <> k_off) by (intros ->; lia).
    destruct (succeeds_outcome _ _ (Hok offset Hin Hne)) as (Hs & recs & Hb & Hlen & Htok).
    destruct (csv_success_rows (server offset) recs
                (Py.slice data_rows offset (offset + Csv.rows_per_chunk config))
                skip all_columns Hs Hb Htok Hlen) as (block & Hblock & _ & Hcells).
    { apply Forall_forall. intros r' Hr'%slice_elem_of.
      rewrite Forall_forall in Hrows.
      change (drop 1 all_columns) with (map Py.lower headers_row).
      rewrite length_map. by apply Hrows. }
    { done. }
    destruct (lookup_lt_is_Some_2 recs j) as [record Hrecord].
    { apply lookup_lt_Some in Hj. lia. }
    destruct (Hcells j r record Hj Hrecord) as (cells & Hrow & _ & Hcell).
    assert (map csv_cell (skyflow_id record :: cells) ∈ out) as Hrow_out.
    { rewrite Hout. apply flat_map_elem_of. exists offset. split.
      - by apply list_elem_of_filter.
      - unfold written, sub, submitted. simpl. rewrite Hblock.
        apply list_elem_of_fmap. exists (skyflow_id record :: cells).
        split; [done|]. by eapply list_elem_of_lookup_2. }
    exists record, cells. split; [exact Hrow_out|]. split; [|exact Hcell].
    unfold read_back. apply list_elem_of_fmap.
    by exists (map csv_cell (skyflow_id record :: cells)).
Qed.

Lemma one_failing_chunk_is_isolated_witness :
  let ok :=
    {| status_code := 200;
       body := Some {| records :=
                 Some [ {| skyflow_id := Some "id0"; tokens := Some {[ "name" := "tA" ]} |};
                        {| skyflow_id := Some "id1"; tokens := Some {[ "name" := "tB" ]} |} ] |} |} in
  let server (i attempt : nat) :=
    if i =? 1 then {| status_code := 500; body := None |} else ok in
  let lines := [["A"]; ["B"]; ["C"]; ["D"]] in
  let w0 := {| Simple.temp_output := []; Simple.failed_records := [["old"]];
               Simple.output_csv := []; Simple.log := [] |} in
  let last_first (f : Simple.file) (blocks : list (nat * list row)) :=
    flat_map snd (reverse blocks) in
  exists w,
    Simple.main server last_first (flat_map snd) 2 2 ["name"] lines w0 = Some w /\
    Simple.failed_records w = [["C"]; ["D"]].
Proof.
  intros ok server lines w0 last_first.
  destruct (proj1 one_failing_chunk_is_isolated server last_first (flat_map snd)
              2%Z 2%Z ["name"] lines w0
              [ [Simple.dict_of_row ["name"] ["A"]; Simple.dict_of_row ["name"] ["B"]];
                [Simple.dict_of_row ["name"] ["C"]; Simple.dict_of_row ["name"] ["D"]] ]
              1 [Simple.dict_of_row ["name"] ["C"]; Simple.dict_of_row ["name"] ["D"]])
    as (w & failing_lines & Hmain & _ & _ & _ & Hfailed & _).
  - refine (bool_decide_unpack _ _). vm_compute. exact I.
  - repeat constructor.
  - vm_compute. reflexivity.
  - reflexivity.
  - reflexivity.
  - intros [|[|i]] rows Hi Hne; simpl in Hi.
    + injection Hi as <-. reflexivity.
    + exfalso. apply Hne. reflexivity.
    + discriminate Hi.
  - exists w. split; [exact Hmain|].
    vm_compute in Hmain. injection Hmain as <-. reflexivity.
Defined.

(** * Further properties of the scripts *)

(** ** The retry loop *)

(** X1. Whatever the service answers, [make_api_call] returns a response and
    never raises: the first of the three attempts with status 200, else the
    third. It posts the payload once per attempt up to and including the
    first success, at most three times, and sleeps once after every failed
    attempt and never after a success: in the CSV and PostgreSQL clients five
    seconds after a 429 and one second after any other status, in
    [tokenize_data.py] one second. The response it returns has status 200
    unless all three attempts failed. *)
Theorem retry_stops_at_first_success (post : nat -> Response) :
  (forall payload : Payload (gmap string string),
     let trace := (Csv.make_api_call post payload).2 in
     (Csv.make_api_call post payload).1 = Ok (outcome post) /\
     posts trace
       = replicate (min 3 (S (length (failed_attempts post)))) (sent payload) /\
     sleeps trace
       = map (fun a => backoff (status_code (post a))) (failed_attempts post) /\
     errors trace
       = map (fun a => AttemptFailed a (status_code (post a))
                                     (status_code (post a) =? 429)%Z)
             (failed_attempts post)) /\
  (forall payload : Payload Simple.DictRow,
     let trace := (Simple.make_api_call post payload).2 in
     (Simple.make_api_call post payload).1 = Ok (outcome post) /\
     posts trace = replicate (min 3 (S (length (failed_attempts post)))) payload /\
     sleeps trace = map (fun _ => 1%Z) (failed_attempts post) /\
     errors trace
       = map (fun a => AttemptFailed a (status_code (post a)) false)
             (failed_attempts post)) /\
  (status_code (outcome post) = 200%Z <-> length (failed_attempts post) < 3).
Proof.
  unfold Csv.make_api_call, Simple.make_api_call, retries, outcome, failed_attempts,
    backoff.
  simpl. fold (sent (F := gmap string string)).
  destruct (Z.eqb_spec (status_code (post 0)) 200) as [H0|H0];
    [|destruct (Z.eqb_spec (status_code (post 1)) 200) as [H1|H1];
      [|destruct (Z.eqb_spec (status_code (post 2)) 200) as [H2|H2]]];
    (split; [intros payload|split; [intros payload|]]); simpl;
    repeat (match goal with
            | |- context [(?a =? 429)%Z] => destruct (a =? 429)%Z
            end; simpl);
    try (repeat split; reflexivity);
    try (split; [lia|done]); try (split; [done|intros; lia]).
Qed.

(** ** The token providers *)

(** X2. In the CSV and PostgreSQL scripts a configured bearer token that is
    not empty is used as it is, with the type [Bearer], and the credentials
    file is then never read; without one, a credentials path that is not
    empty is handed to the SDK; with neither (a missing key or the empty
    value of the generated template) the provider raises [ValueError] and the
    SDK is not called. *)
Theorem static_token_is_preferred
    (generate_bearer_token : string -> result (string * string))
    (path api_bearer_token : option string) :
  (forall token, api_bearer_token = Some token -> token <> EmptyString ->
     forall generate',
       Csv.token_provider generate' path api_bearer_token = Ok (token, "Bearer")) /\
  (api_bearer_token = None \/ api_bearer_token = Some EmptyString ->
     (forall p, path = Some p -> p <> EmptyString ->
        Csv.token_provider generate_bearer_token path api_bearer_token
          = generate_bearer_token p) /\
     (path = None \/ path = Some EmptyString ->
        forall generate',
          Csv.token_provider generate' path api_bearer_token = Raise ValueError)).
Proof.
  split.
  - intros token -> Hne generate'. unfold Csv.token_provider. simpl.
    by destruct token.
  - intros Hbearer. split.
    + intros p -> Hp. unfold Csv.token_provider.
      destruct Hbearer as [-> | ->]; simpl; by destruct p.
    + intros Hpath generate'. unfold Csv.token_provider.
      by destruct Hbearer as [-> | ->], Hpath as [-> | ->].
Qed.

(** X3. In [tokenize_data.py] a token that the provider has returned is
    kept: when a bearer token was given on the command line, or when the
    token in hand is not expired, a second call returns the same token and
    type, leaves the two global variables as they are and does not ask the
    SDK for a new token. *)
Theorem token_is_kept_until_it_expires
    (is_expired : string -> bool)
    (generate_bearer_token : option string -> result (string * string))
    (BEARER_TOKEN PATH_TO_CREDENTIALS_JSON : option string)
    (g g1 : Simple.token_state) (token type : string) :
  Simple.token_provider is_expired generate_bearer_token
                        BEARER_TOKEN PATH_TO_CREDENTIALS_JSON g
    = (Ok (token, type), g1) ->
  (exists b, BEARER_TOKEN = Some b /\ b <> EmptyString) \/ is_expired token = false ->
  forall generate',
    Simple.token_provider is_expired generate' BEARER_TOKEN PATH_TO_CREDENTIALS_JSON g1
      = (Ok (token, type), g1).
Proof.
  unfold Simple.token_provider. intros Hfirst Hkeep generate'.
  destruct (negb _) eqn:Hbt.
  - destruct Hkeep as [(b & -> & Hb)|Hfresh]; [by destruct b|].
    destruct (is_expired (Simple.bearerToken g)) eqn:Hexp.
    + destruct (generate_bearer_token PATH_TO_CREDENTIALS_JSON) as [[b t]|e]; [|done].
      injection Hfirst as <- <- <-. simpl. by rewrite Hfresh.
    + injection Hfirst as <- <- <-. by rewrite Hexp.
  - by injection Hfirst as <- <- <-.
Qed.

Lemma token_is_kept_until_it_expires_witness :
  Simple.token_provider (fun t => bool_decide (t = EmptyString))
                        (fun _ => Raise ValueError) None (Some "cred.json")
                        {| Simple.bearerToken := "abc"; Simple.tokenType := "Bearer" |}
  = (Ok ("abc", "Bearer"),
     {| Simple.bearerToken := "abc"; Simple.tokenType := "Bearer" |}).
Proof.
  apply (token_is_kept_until_it_expires
           (fun t => bool_decide (t = EmptyString))
           (fun _ => Ok ("abc", "Bearer")) None (Some "cred.json")
           {| Simple.bearerToken := ""; Simple.tokenType := "" |}).
  - reflexivity.
  - right. reflexivity.
Defined.

(** ** The insertion into PostgreSQL *)

Lemma insert_pg_data_trace (execute : nat -> row -> bool) (all_columns : list string)
    (data : list row) :
  forall calls : nat,
    let trace := Postgres.insert_pg_data execute all_columns data calls in
    executed trace
      = filter (fun values : row => length values = length all_columns) data /\
    mismatches trace
      = map length
            (filter (fun values : row => length values <> length all_columns) data) /\
    pbar_updates trace = length (executed trace).
Proof.
  cbv zeta. induction data as [|values data IH]; intros calls; [done|].
  cbn [Postgres.insert_pg_data]. rewrite !filter_cons.
  destruct (Nat.eqb_spec (length values) (length all_columns)) as [Heq|Hne]; simpl negb;
    cbv iota.
  - rewrite decide_True by done.
    rewrite (decide_False (P := length values <> length all_columns)) by (intros H; done).
    destruct (IH (S calls)) as (He & Hm & Hp).
    assert (forall t,
      executed (Postgres.Execute values :: Postgres.PbarUpdate :: t) = values :: executed t /\
      mismatches (Postgres.Execute values :: Postgres.PbarUpdate :: t) = mismatches t /\
      pbar_updates (Postgres.Execute values :: Postgres.PbarUpdate :: t)
        = S (pbar_updates t)) as Hok by done.
    assert (forall t,
      executed (Postgres.Execute values :: Postgres.LogInsertFailed values
                  :: Postgres.PbarUpdate :: t) = values :: executed t /\
      mismatches (Postgres.Execute values :: Postgres.LogInsertFailed values
                  :: Postgres.PbarUpdate :: t) = mismatches t /\
      pbar_updates (Postgres.Execute values :: Postgres.LogInsertFailed values
                  :: Postgres.PbarUpdate :: t) = S (pbar_updates t)) as Hko by done.
    destruct (execute calls values);
      [destruct (Hok (Postgres.insert_pg_data execute all_columns data (S calls)))
         as (-> & -> & ->)
      |destruct (Hko (Postgres.insert_pg_data execute all_columns data (S calls)))
         as (-> & -> & ->)];
      rewrite He, Hm in *; simpl; (repeat split; by rewrite Hp).
  - rewrite decide_False by done. rewrite decide_True by done.
    destruct (IH calls) as (He & Hm & Hp).
    assert (forall t,
      executed (Postgres.LogMismatch (length all_columns) (length values) :: t)
        = executed t /\
      mismatches (Postgres.LogMismatch (length all_columns) (length values) :: t)
        = length values :: mismatches t /\
      pbar_updates (Postgres.LogMismatch (length all_columns) (length values) :: t)
        = pbar_updates t) as Hskip by done.
    destruct (Hskip (Postgres.insert_pg_data execute all_columns data calls))
      as (-> & -> & ->).
    rewrite He, Hm in *. done.
Qed.

Lemma filter_complement_length {A} (P : A -> Prop) `{!forall x, Decision (P x)}
    (l : list A) :
  length (filter P l) + length (filter (fun x => ~ P x) l) = length l.
Proof.
  induction l as [|x l IH]; [done|]. rewrite !filter_cons.
  destruct (decide (P x)) as [Hp|Hp].
  - rewrite (decide_False (P := ~ P x)) by tauto. simpl. lia.
  - rewrite (decide_True (P := ~ P x)) by done. simpl. lia.
Qed.

(** X4. [insert_pg_data] hands to [cursor.execute] exactly the rows that
    have as many values as the table has columns, each once and in the order
    of the data, whether or not earlier calls failed; a row of another width
    is logged and never executed. The progress bar moves once per executed
    row, so it stays behind the total by the number of rows skipped. *)
Theorem insert_skips_rows_of_wrong_width
    (execute : nat -> row -> bool) (all_columns : list string) (data : list row)
    (calls : nat) :
  let trace := Postgres.insert_pg_data execute all_columns data calls in
  executed trace = filter (fun values : row => length values = length all_columns) data /\
  mismatches trace
    = map length (filter (fun values : row => length values <> length all_columns) data) /\
  pbar_updates trace = length (executed trace) /\
  pbar_updates trace + length (mismatches trace) = length data.
Proof.
  destruct (insert_pg_data_trace execute all_columns data calls) as (He & Hm & Hp).
  cbv zeta in *. repeat split; [done..|].
  rewrite Hp, He, Hm, length_map.
  apply (filter_complement_length (fun values : row => length values = length all_columns)).
Qed.

(** ** What a chunk returns *)

Lemma retry_posts_at_least_once {F} (post : nat -> Response) (payload : Payload F) :
  exists p, posts (Csv.make_api_call post payload).2 = sent payload :: p.
Proof.
  unfold Csv.make_api_call, retries. simpl. fold (sent payload).
  repeat (match goal with
          | |- context [(?a =? ?b)%Z] => destruct (a =? b)%Z
          end; simpl);
    by eexists.
Qed.

Lemma comprehension_inv {A B} (f : A -> result B) (l : list A) :
  forall ys, comprehension f l = Ok ys -> Forall2 (fun x y => f x = Ok y) l ys.
Proof.
  induction l as [|x l IH]; intros ys Hys; simpl in Hys.
  - injection Hys as <-. constructor.
  - destruct (f x) as [y|e] eqn:Hfx; [|discriminate Hys]. simpl in Hys.
    destruct (comprehension f l) as [ys'|e]; [|discriminate Hys]. simpl in Hys.
    injection Hys as <-. constructor; [exact Hfx|by apply IH].
Qed.

Lemma comprehension_raises {A B} (f : A -> result B) (l : list A) (e : exn) :
  (exists x, x ∈ l /\ f x = Raise e) ->
  (forall y e', y ∈ l -> f y = Raise e' -> e' = e) ->
  comprehension f l = Raise e.
Proof.
  induction l as [|a l IH]; intros (x & Hx & Hfx) Honly.
  - by apply elem_of_nil in Hx.
  - simpl. destruct (f a) as [y|e'] eqn:Hfa.
    + simpl. rewrite IH; [done| |].
      * apply elem_of_cons in Hx as [->|Hx]; [congruence|by exists x].
      * intros y' e'' Hy'. apply Honly. by right.
    + simpl. f_equal. apply (Honly a); [by left|done].
Qed.

Lemma tokenized_row_length (recs : list ApiRecord) (i : nat) (r : row)
    (skip all_columns : list string) (cells : list (option string)) :
  Csv.tokenized_row recs i r skip all_columns = Ok cells ->
  length cells = S (length (drop 1 all_columns)).
Proof.
  unfold Csv.tokenized_row. destruct (Py.getitem recs i) as [record|e]; [|done].
  cbn [Py.bind].
  match goal with
  | |- Py.bind ?c _ = _ -> _ => destruct c as [cs|e] eqn:Hcs; [|done]
  end.
  cbn [Py.bind]. intros [= <-]. apply comprehension_inv, Forall2_length in Hcs.
  simpl. by rewrite Hcs.
Qed.

Lemma build_payload_raises (post : nat -> Response) (rows : list row)
    (skip all_columns : list string) (e : exn) :
  Csv.build_payload rows skip all_columns = Raise e ->
  Csv.process_chunk post rows skip all_columns = (Raise e, []).
Proof. unfold Csv.process_chunk. by intros ->. Qed.

Lemma csv_process_chunk_width (post : nat -> Response) (rows : list row)
    (skip all_columns : list string) (result : list (list (option string))) :
  (Csv.process_chunk post rows skip all_columns).1 = Ok result ->
  Forall (fun cells => length cells = S (length (drop 1 all_columns))) result.
Proof.
  destruct (Csv.build_payload rows skip all_columns) as [payload|e] eqn:Hpayload.
  - rewrite (csv_process_chunk_eq _ _ _ _ _ Hpayload). cbv zeta.
    destruct (status_code (outcome post) =? 200)%Z; [|by intros [= <-]].
    destruct (body (outcome post)) as [response_data|]; [|done].
    destruct (Csv.well_structured response_data); [|by intros [= <-]].
    cbn [fst]. intros Hc. apply comprehension_inv in Hc.
    induction Hc as [|[i r] cells l ys Hrow _ IH]; constructor; [|exact IH].
    by apply tokenized_row_length in Hrow.
  - by rewrite (build_payload_raises _ _ _ _ _ Hpayload).
Qed.

(** X5. Every row that [process_chunk] returns has one cell per entry of
    [all_columns] (the id of the record and one cell per source column,
    skipped columns included), whatever the response was. So when the rows
    have gone through the temporary file, [insert_pg_data] finds no row of
    the wrong width among them: it executes every one and logs no
    mismatch. *)
Theorem tokenized_rows_fit_the_table
    (post : nat -> Response) (rows : list row) (skip all_columns : list string)
    (result : list (list (option string)))
    (execute : nat -> row -> bool) (calls : nat) :
  all_columns <> [] ->
  (Postgres.process_chunk post rows skip all_columns).1 = Ok result ->
  let tokenized_data := map (map csv_cell) result in
  let trace := Postgres.insert_pg_data execute all_columns tokenized_data calls in
  Forall (fun cells => length cells = length all_columns) result /\
  executed trace = tokenized_data /\
  mismatches trace = [] /\
  pbar_updates trace = length result.
Proof.
  intros Hne Hresult tokenized_data trace.
  apply csv_process_chunk_width in Hresult.
  assert (S (length (drop 1 all_columns)) = length all_columns) as Hlen
    by (destruct all_columns; [done|reflexivity]).
  rewrite Hlen in Hresult.
  assert (Forall (fun values : row => length values = length all_columns) tokenized_data)
    as Hdata.
  { subst tokenized_data. apply Forall_fmap. eapply Forall_impl; [exact Hresult|].
    intros cells Hc. simpl. by rewrite length_map. }
  destruct (insert_pg_data_trace execute all_columns tokenized_data calls)
    as (He & Hm & Hp).
  fold trace in He, Hm, Hp. split; [exact Hresult|].
  assert (filter (fun values : row => length values = length all_columns) tokenized_data
          = tokenized_data) as Hall.
  { clear -Hdata. induction Hdata as [|x l Hx _ IH]; [done|].
    rewrite filter_cons, decide_True by done. by rewrite IH. }
  assert (filter (fun values : row => length values <> length all_columns) tokenized_data
          = []) as Hnone.
  { clear -Hdata. induction Hdata as [|x l Hx _ IH]; [done|].
    rewrite filter_cons, decide_False by (intros H; done). exact IH. }
  rewrite Hp, He, Hm, Hall, Hnone. repeat split.
  subst tokenized_data. by rewrite length_map.
Qed.

Lemma tokenized_rows_fit_the_table_witness :
  let response :=
    {| status_code := 200;
       body := Some {| records :=
                         Some [ {| skyflow_id := None;
                                   tokens := Some {[ "ssn" := "tok1" ]} |} ] |} |} in
  executed (Postgres.insert_pg_data (fun _ _ => false) ["skyflow_id"; "name"; "ssn"]
                                    [[""; "A"; "tok1"]] 0)
    = [[""; "A"; "tok1"]].
Proof.
  intros response.
  refine (proj1 (proj2
            (tokenized_rows_fit_the_table
               (fun _ => response) [["A"; "111"]] ["name"] ["skyflow_id"; "name"; "ssn"]
               [[None; Some "A"; Some "tok1"]] (fun _ _ => false) 0 _ _))).
  - discriminate.
  - vm_compute. reflexivity.
Defined.

Lemma fields_loop_raises (r : row) (skip : list string) (l : list string) :
  forall (s : nat) (acc : gmap string string),
    (exists j col, l !! j = Some col /\ (col ∉ skip) /\ length r <= s + j) ->
    for_each
      (fun (fields : gmap string string) '(i, col) =>
         if decide (col ∈ skip) then Ok fields
         else do v <- Py.getitem r i; Ok (<[col := v]> fields))
      (Py.zip (seq s (length l)) l) acc = Raise IndexError.
Proof.
  induction l as [|col0 l IH]; intros s acc (j & col & Hj & Hcol & Hlen).
  - by rewrite lookup_nil in Hj.
  - cbn [length seq Py.zip for_each].
    assert (forall acc', j <> 0 ->
              for_each
                (fun (fields : gmap string string) '(i, col) =>
                   if decide (col ∈ skip) then Ok fields
                   else do v <- Py.getitem r i; Ok (<[col := v]> fields))
                (Py.zip (seq (S s) (length l)) l) acc' = Raise IndexError) as Hrest.
    { intros acc' Hj0. apply IH. destruct j as [|j]; [done|].
      exists j, col. repeat split; [done..|lia]. }
    destruct (decide (col0 ∈ skip)) as [Hskip|Hskip].
    + cbn [Py.bind]. apply Hrest. intros ->. simpl in Hj. by injection Hj as ->.
    + unfold Py.getitem. destruct (r !! s) as [v|] eqn:Hv; [|done].
      cbn [Py.bind]. apply Hrest. intros ->.
      apply lookup_lt_Some in Hv. lia.
Qed.

Lemma fields_loop_only_IndexError (r : row) (skip : list string)
    (l : list (nat * string)) :
  forall (acc : gmap string string) (e : exn),
    for_each
      (fun (fields : gmap string string) '(i, col) =>
         if decide (col ∈ skip) then Ok fields
         else do v <- Py.getitem r i; Ok (<[col := v]> fields))
      l acc = Raise e ->
    e = IndexError.
Proof.
  induction l as [|[i col] l IH]; intros acc e; [done|].
  cbn [for_each]. destruct (decide (col ∈ skip)); cbn [Py.bind]; [apply IH|].
  unfold Py.getitem. destruct (r !! i); cbn [Py.bind]; [apply IH|congruence].
Qed.

Lemma short_row_raises (post : nat -> Response) (rows : list row)
    (skip all_columns : list string) (r : row) (j : nat) (col : string) :
  r ∈ rows ->
  drop 1 all_columns !! j = Some col ->
  col ∉ skip ->
  length r <= j ->
  Csv.process_chunk post rows skip all_columns = (Raise IndexError, []).
Proof.
  intros Hr Hj Hcol Hlen. apply build_payload_raises. unfold Csv.build_payload.
  rewrite (comprehension_raises _ rows IndexError); [done| |].
  - exists r. split; [exact Hr|]. unfold Csv.fields_of_row, Py.enumerate.
    apply fields_loop_raises. exists j, col. repeat split; [done..|lia].
  - intros y e' _. unfold Csv.fields_of_row. apply fields_loop_only_IndexError.
Qed.

(** X6. A row that has no value at the position of a column that is to be
    tokenized ends [process_chunk] with [IndexError] while the payload is
    built: the service is not called for any row of the chunk and nothing is
    logged. *)
Theorem short_row_stops_the_chunk_before_the_call
    (post : nat -> Response) (rows : list row) (skip all_columns : list string)
    (r : row) (j : nat) (col : string) :
  r ∈ rows ->
  drop 1 all_columns !! j = Some col ->
  col ∉ skip ->
  length r <= j ->
  Csv.process_chunk post rows skip all_columns = (Raise IndexError, []) /\
  Postgres.process_chunk post rows skip all_columns = (Raise IndexError, []) /\
  posts (Csv.process_chunk post rows skip all_columns).2 = [].
Proof.
  intros Hr Hj Hcol Hlen.
  pose proof (short_row_raises post rows skip all_columns r j col Hr Hj Hcol Hlen) as H1.
  unfold Postgres.process_chunk. by rewrite H1.
Qed.

Lemma short_row_stops_the_chunk_before_the_call_witness :
  Csv.process_chunk (fun _ => {| status_code := 200; body := None |})
                    [["A"; "111"]; ["B"]] [] ["skyflow_id"; "name"; "ssn"]
  = (Raise IndexError, []).
Proof.
  refine (proj1 (short_row_stops_the_chunk_before_the_call
                   (fun _ => {| status_code := 200; body := None |})
                   [["A"; "111"]; ["B"]] [] ["skyflow_id"; "name"; "ssn"]
                   ["B"] 1 "ssn" _ eq_refl _ _)).
  - right. left.
  - apply not_elem_of_nil.
  - simpl. lia.
Defined.

(** X7. When the service answers 200 with fewer records than the chunk has
    rows (each record with a token map), [process_chunk] of the CSV and
    PostgreSQL scripts raises [IndexError] at the first row without a
    record, after the call has been made; the rows that did get a record are
    not returned either. With more records than rows the surplus records are
    ignored. *)
Theorem fewer_records_than_rows_raises
    (post : nat -> Response) (recs : list ApiRecord)
    (rows : list row) (skip all_columns : list string) :
  status_code (outcome post) = 200%Z ->
  body (outcome post) = Some {| records := Some recs |} ->
  Forall (fun record => is_Some (tokens record)) recs ->
  Forall (fun r : row => length (drop 1 all_columns) <= length r) rows ->
  NoDup (drop 1 all_columns) ->
  (length recs < length rows ->
     (Csv.process_chunk post rows skip all_columns).1 = Raise IndexError /\
     posts (Csv.process_chunk post rows skip all_columns).2 <> []) /\
  (length rows <= length recs ->
     exists out, (Csv.process_chunk post rows skip all_columns).1 = Ok out /\
                 length out = length rows).
Proof.
  intros Hstatus Hbody Htokens Hrows Hnodup.
  destruct (build_payload_records rows skip all_columns Hrows Hnodup)
    as (precs & Hpayload & _).
  assert (Csv.well_structured {| records := Some recs |} = true) as Hws.
  { unfold Csv.well_structured, Py.all. simpl. apply forallb_forall.
    intros record Hin. apply bool_decide_eq_true_2.
    rewrite Forall_forall in Htokens. apply Htokens. by apply list_elem_of_In. }
  pose proof (csv_process_chunk_eq post rows skip all_columns _ Hpayload) as Heq.
  cbv zeta in Heq. rewrite Hstatus, Hbody in Heq. simpl Z.eqb in Heq. cbv iota in Heq.
  rewrite Hws in Heq.
  change (default [] (records {| records := Some recs |})) with recs in Heq.
  assert (forall i r, rows !! i = Some r -> i < length recs ->
            exists cells, Csv.tokenized_row recs i r skip all_columns = Ok cells) as Hok.
  { intros i r Hi Hlt. destruct (lookup_lt_is_Some_2 recs i Hlt) as [record Hrec].
    destruct (tokenized_row_spec recs i r skip all_columns record Hrec) as (cells & Hc & _).
    - rewrite Forall_forall in Htokens. apply Htokens. by eapply list_elem_of_lookup_2.
    - exact Hnodup.
    - rewrite Forall_forall in Hrows. apply Hrows. by eapply list_elem_of_lookup_2.
    - by eexists. }
  split.
  - intros Hlt. rewrite Heq. cbn [fst snd]. split.
    + apply comprehension_raises.
      * destruct (lookup_lt_is_Some_2 rows (length recs) Hlt) as [r Hr].
        exists (length recs, r). split; [by apply enumerate_elem_of|].
        unfold Csv.tokenized_row, Py.getitem.
        by rewrite (lookup_ge_None_2 recs (length recs)) by lia.
      * intros [i r] e' Hin Hraise. apply enumerate_elem_of in Hin.
        destruct (decide (i < length recs)) as [Hi|Hi].
        -- destruct (Hok i r Hin Hi) as [cells Hc]. congruence.
        -- unfold Csv.tokenized_row, Py.getitem in Hraise.
           rewrite (lookup_ge_None_2 recs i) in Hraise by lia. simpl in Hraise.
           congruence.
    + destruct (retry_posts_at_least_once post
                  {| quorum := false; payload_records := precs; tokenization := None |})
        as [p Hp].
      rewrite Hp. discriminate.
  - intros Hle. rewrite Heq. cbn [fst].
    destruct (comprehension_Forall2
                (fun '(i, row) => Csv.tokenized_row recs i row skip all_columns)
                (fun _ _ => True) (Py.enumerate rows)) as (out & Hout & Hall).
    + intros [i r] Hin. apply enumerate_elem_of in Hin.
      destruct (Hok i r Hin) as [cells Hc].
      * apply lookup_lt_Some in Hin. lia.
      * by exists cells.
    + exists out. split; [exact Hout|]. apply Forall2_length in Hall.
      rewrite <- Hall. unfold Py.enumerate. rewrite zip_length, length_seq. lia.
Qed.

Lemma fewer_records_than_rows_raises_witness :
  let response :=
    {| status_code := 200;
       body := Some {| records :=
                         Some [ {| skyflow_id := Some "id1";
                                   tokens := Some {[ "name" := "tokA" ]} |} ] |} |} in
  (Csv.process_chunk (fun _ => response) [["A"]; ["B"]] []
                     ["skyflow_id"; "name"]).1 = Raise IndexError.
Proof.
  intros response.
  refine (proj1 (proj1 (fewer_records_than_rows_raises
                          (fun _ => response)
                          [ {| skyflow_id := Some "id1";
                               tokens := Some {[ "name" := "tokA" ]} |} ]
                          [["A"]; ["B"]] [] ["skyflow_id"; "name"]
                          eq_refl eq_refl _ _ _) _)).
  - constructor; [eexists; reflexivity|constructor].
  - repeat constructor.
  - refine (bool_decide_unpack _ _). vm_compute. exact I.
  - simpl. lia.
Defined.

(** ** The run of the CSV script *)

Lemma dispatch_output_file (server : Z -> nat -> Response)
    (as_completed : list Csv.future -> list Csv.future)
    (data_rows : list row) (row_count rows_per_chunk max_parallel_tasks : Z)
    (skip all_columns : list string) (offsets : list Z) :
  forall (futures : list Csv.future) (w : Csv.world),
    Csv.output_file
      (Csv.dispatch server as_completed data_rows row_count rows_per_chunk
                    max_parallel_tasks skip all_columns offsets futures w).2
    = Csv.output_file w.
Proof.
  induction offsets as [|offset rest IH]; intros futures w; [done|].
  cbn [Csv.dispatch].
  destruct (Csv.fetch_file_data data_rows offset rows_per_chunk) as [[input_data h]|e];
    [|done].
  destruct (Csv.process_chunk (server offset) input_data skip all_columns)
    as [result trace].
  destruct (_ || _).
  - destruct (Csv.collect _ _) as [[u|e] temp]; [|done]. by rewrite IH.
  - by rewrite IH.
Qed.

Lemma universal_newlines_id (cell : string) :
  no_carriage_return cell -> Py.universal_newlines cell = cell.
Proof.
  unfold no_carriage_return. induction cell as [|c cell IH]; intros Hcr; [done|].
  cbn [Py.universal_newlines]. cbn [list_ascii_of_string] in Hcr.
  apply not_elem_of_cons in Hcr as [Hc Hcr].
  destruct (Ascii.eqb_spec c "013") as [->|_]; [done|]. by rewrite IH.
Qed.

(** X8. The CSV script writes its output file at the very end or not at
    all: a run that ends with an exception leaves no output file, whatever
    was already written to the temporary file, and a run that ends normally
    writes the header of the input file, in its original case and with
    [skyflow_id] in front, followed by one line for each line of the
    temporary file, in the same order: the line as it is read back, which is
    the line itself when no cell of it holds a carriage return and else the
    line with a line feed for every carriage return. *)
Theorem output_file_is_written_at_the_end_or_not_at_all
    (server : Z -> nat -> Response) (as_completed : list Csv.future -> list Csv.future)
    (config : Csv.Config) (rows : list row) :
  let run := Csv.main server as_completed config rows in
  match run.1 with
  | Raise _ => Csv.output_file run.2 = None
  | Ok _ =>
      exists headers_row out,
        rows !! 0 = Some headers_row /\
        Csv.output_file run.2 = Some (("skyflow_id" :: headers_row) :: out) /\
        length out = length (Csv.temp_file run.2) /\
        forall i line,
          Csv.temp_file run.2 !! i = Some line ->
          out !! i = Some (map Py.universal_newlines line) /\
          (Forall no_carriage_return line -> out !! i = Some line)
  end.
Proof.
  unfold Csv.main. destruct rows as [|headers_row data_rows]; [done|].
  cbn [Py.getitem lookup list_lookup]. unfold Csv.get_filtered_columns.
  cbn [app Py.getitem lookup list_lookup Py.bind].
  destruct (Csv.max_parallel_tasks config <=? 0)%Z; [done|].
  destruct (Py.range 0 _ _) as [offsets|e]; [|done].
  match goal with
  | |- context [Csv.dispatch ?s ?a ?d ?n ?k ?m ?sk ?al ?o ?f ?w] =>
      pose proof (dispatch_output_file s a d n k m sk al o f w) as Hout;
      destruct (Csv.dispatch s a d n k m sk al o f w) as [[u|e] w']
  end; [|exact Hout].
  cbn [fst snd Csv.output_file Csv.temp_file].
  exists headers_row, (read_back (Csv.temp_file w')).
  split; [done|]. split; [done|]. unfold read_back. split; [by rewrite length_map|].
  intros i line Hline.
  assert (map (map Py.universal_newlines) (Csv.temp_file w') !! i
          = Some (map Py.universal_newlines line)) as Hi
    by (by rewrite list_lookup_fmap, Hline).
  split; [exact Hi|]. intros Hcr. rewrite Hi. f_equal. clear Hline Hi.
  induction Hcr as [|cell line Hcell _ IH]; [done|].
  cbn [map]. by rewrite (universal_newlines_id cell Hcell), IH.
Qed.

Lemma collect_raises (l : list Csv.future) :
  forall temp : list row,
    (exists f, f ∈ l /\ Py.raises f.2 = true) ->
    Py.raises (Csv.collect l temp).1 = true.
Proof.
  induction l as [|[offset [result|e]] l IH]; intros temp (f & Hf & Hraises).
  - by apply elem_of_nil in Hf.
  - cbn [Csv.collect]. apply IH. exists f. split; [|done].
    apply elem_of_cons in Hf as [->|Hf]; [done|exact Hf].
  - done.
Qed.

Lemma range_ok (start stop step : Z) :
  step <> 0%Z -> exists offsets, Py.range start stop step = Ok offsets.
Proof.
  intros Hstep. unfold Py.range. destruct (Z.eqb_spec step 0); [done|by eexists].
Qed.

(** X9. In the CSV script one row that is too short for a column that is
    to be tokenized ends the whole run: the [IndexError] of its chunk comes
    out of [future.result()], which the dispatch loop does not guard, so the
    run ends with an exception and writes no output file, whatever the
    service answers for the other chunks and in whatever order the chunks
    complete. *)
Theorem one_short_row_aborts_the_run
    (server : Z -> nat -> Response) (as_completed : list Csv.future -> list Csv.future)
    (config : Csv.Config) (headers_row : row) (data_rows : list row)
    (i : nat) (r : row) (j : nat) (col : string) :
  (forall l, as_completed l ≡ₚ l) ->
  (0 < Csv.max_parallel_tasks config)%Z ->
  (0 < Csv.rows_per_chunk config)%Z ->
  data_rows !! i = Some r ->
  map Py.lower headers_row !! j = Some col ->
  col ∉ map (fun col => Py.lower (Py.strip col))
            (filter (fun col => Py.truthy (Py.strip col) = true)
                    (Py.split "," (Csv.skip_columns_cfg config))) ->
  length r <= j ->
  let run := Csv.main server as_completed config (headers_row :: data_rows) in
  Py.raises run.1 = true /\ Csv.output_file run.2 = None.
Proof.
  intros Hperm Hmt Hk Hi Hj Hcol Hlen run.
  destruct (range_ok 0 (Z.of_nat (length data_rows)) (Csv.rows_per_chunk config))
    as [offsets Hoffsets]; [lia|].
  destruct (csv_main_collect server as_completed config headers_row data_rows offsets
              Hmt Hoffsets) as (H1 & _ & H3).
  cbv zeta in H1, H3. fold run in H1, H3.
  match type of H1 with
  | _ = (Csv.collect ?s []).1 => set (sched := s) in *
  end.
  assert (Py.raises (Csv.collect sched []).1 = true) as Hraises.
  { apply collect_raises.
    destruct (csv_rows_covered data_rows (Csv.rows_per_chunk config) offsets Hk Hoffsets
                i r Hi) as (offset & j' & Hoff & Hslice & _).
    eexists. split.
    - subst sched. rewrite (flat_map_permuted as_completed _ Hperm).
      rewrite <- concat_map.
      rewrite batches_concat_range; [|lia|exact Hoffsets].
      apply list_elem_of_fmap. exists offset. split; [reflexivity|exact Hoff].
    - unfold submitted. cbn [snd].
      rewrite (short_row_raises _ _ _ _ r j col); [done| | | |].
      + by eapply list_elem_of_lookup_2.
      + exact Hj.
      + exact Hcol.
      + exact Hlen. }
  rewrite H1, H3, Hraises. done.
Qed.

Lemma one_short_row_aborts_the_run_witness :
  let ok := {| status_code := 200;
               body := Some {| records :=
                         Some [ {| skyflow_id := Some "id0";
                                   tokens := Some {[ "name" := "tA" ]} |} ] |} |} in
  let config := {| Csv.rows_per_chunk := 1; Csv.max_parallel_tasks := 2;
                   Csv.skip_columns_cfg := "" |} in
  Csv.output_file
    (Csv.main (fun _ _ => ok) reverse config
              [["name"; "ssn"]; ["A"; "111"]; ["B"]; ["C"; "333"]]).2 = None.
Proof.
  intros ok config.
  refine (proj2 (one_short_row_aborts_the_run
                   (fun _ _ => ok) reverse config ["name"; "ssn"]
                   [["A"; "111"]; ["B"]; ["C"; "333"]] 1 ["B"] 1 "ssn"
                   _ _ _ eq_refl eq_refl _ _)).
  - intros l. apply reverse_Permutation.
  - reflexivity.
  - reflexivity.
  - apply not_elem_of_nil.
  - simpl. lia.
Defined.

Lemma batches_bounded (mt n k : Z) (offsets : list Z) :
  forall pending : list Z,
    (0 < mt)%Z ->
    (Z.of_nat (length pending) < mt)%Z ->
    Forall (fun batch : list Z =>
              0 < length batch /\ (Z.of_nat (length batch) <= mt)%Z)
           (batches mt n k offsets pending).
Proof.
  induction offsets as [|offset rest IH]; intros pending Hmt Hpending; [constructor|].
  cbn [batches].
  assert (length (pending ++ [offset]) = S (length pending)) as Hlen
    by (rewrite length_app; simpl; lia).
  destruct (Z.leb_spec mt (Z.of_nat (length (pending ++ [offset])))) as [Hfull|Hroom];
    cbn [orb].
  - constructor; [rewrite Hlen; split; lia|]. apply IH; [done|simpl; lia].
  - destruct (n <=? offset + k)%Z.
    + constructor; [rewrite Hlen; split; lia|]. apply IH; [done|simpl; lia].
    + apply IH; [done|lia].
Qed.

(** X10. The dispatch loop of the CSV script never has more than
    [max_parallel_tasks] chunks in flight: it hands the chunks to
    [as_completed] in consecutive batches of at least one and at most
    [max_parallel_tasks] chunks, in the order of the offsets, and waits for
    every chunk of a batch before it submits the next one. The run is the
    collection of these batches, one after the other. *)
Theorem batches_hold_at_most_max_parallel_tasks
    (server : Z -> nat -> Response) (as_completed : list Csv.future -> list Csv.future)
    (config : Csv.Config) (headers_row : row) (data_rows : list row) (offsets : list Z) :
  (0 < Csv.max_parallel_tasks config)%Z ->
  Py.range 0 (Z.of_nat (length data_rows)) (Csv.rows_per_chunk config) = Ok offsets ->
  let skip := map (fun col => Py.lower (Py.strip col))
                  (filter (fun col => Py.truthy (Py.strip col) = true)
                          (Py.split "," (Csv.skip_columns_cfg config))) in
  let all_columns := "skyflow_id" :: map Py.lower headers_row in
  let sub := submitted server data_rows (Csv.rows_per_chunk config) skip all_columns in
  exists bs : list (list Z),
    concat bs = offsets /\
    Forall (fun batch : list Z =>
              0 < length batch /\
              (Z.of_nat (length batch) <= Csv.max_parallel_tasks config)%Z) bs /\
    let run := Csv.main server as_completed config (headers_row :: data_rows) in
    let completed := flat_map as_completed (map (map sub) bs) in
    run.1 = (Csv.collect completed []).1 /\
    Csv.temp_file run.2 = (Csv.collect completed []).2.
Proof.
  intros Hmt Hoffsets skip all_columns sub.
  exists (batches (Csv.max_parallel_tasks config) (Z.of_nat (length data_rows))
                  (Csv.rows_per_chunk config) offsets []).
  split; [apply batches_concat_range; [lia|exact Hoffsets]|].
  split; [apply batches_bounded; [exact Hmt|simpl; lia]|].
  destruct (csv_main_collect server as_completed config headers_row data_rows offsets
              Hmt Hoffsets) as (H1 & H2 & _).
  split; [exact H1|exact H2].
Qed.

Lemma batches_hold_at_most_max_parallel_tasks_witness :
  let config := {| Csv.rows_per_chunk := 1; Csv.max_parallel_tasks := 2;
                   Csv.skip_columns_cfg := "" |} in
  exists bs : list (list Z),
    concat bs = [0; 1; 2]%Z /\
    Forall (fun batch : list Z => 0 < length batch /\ (Z.of_nat (length batch) <= 2)%Z) bs.
Proof.
  intros config.
  destruct (batches_hold_at_most_max_parallel_tasks
              (fun _ _ => {| status_code := 500; body := None |}) reverse config
              ["name"] [["A"]; ["B"]; ["C"]] [0; 1; 2]%Z eq_refl eq_refl)
    as (bs & Hconcat & Hbounded & _).
  exists bs. split; [exact Hconcat|exact Hbounded].
Defined.

(** ** A chunk of tokenize_data.py *)

Lemma simple_process_chunk_eq (post : nat -> Response) (rows : list Simple.DictRow)
    (fieldnames : list string) (w : Simple.world) :
  let payload := {| quorum := false; payload_records := rows;
                    tokenization := Some true |} in
  let t := (Simple.make_api_call post payload).2 in
  Simple.process_chunk post rows fieldnames w =
    if (status_code (outcome post) =? 200)%Z then
      match body (outcome post) with
      | None =>
          (Raise JSONDecodeError,
           {| Simple.temp_output := Simple.temp_output w;
              Simple.failed_records := Simple.failed_records w;
              Simple.output_csv := Simple.output_csv w;
              Simple.log := Simple.log w ++ t |})
      | Some response_data =>
          (Ok tt,
           {| Simple.temp_output :=
                Simple.temp_output w
                  ++ map (fun '(original_row, record) =>
                            output_line fieldnames original_row record)
                         (Py.zip rows (default [] (records response_data)));
              Simple.failed_records := Simple.failed_records w;
              Simple.output_csv := Simple.output_csv w;
              Simple.log :=
                Simple.log w ++ t
                  ++ (if Simple.well_structured response_data then []
                      else [LogError TokenizationUnsuccessful]) |})
      end
    else
      ((Simple.writerows fieldnames rows (Simple.failed_records w)).1,
       {| Simple.temp_output := Simple.temp_output w;
          Simple.failed_records :=
            (Simple.writerows fieldnames rows (Simple.failed_records w)).2;
          Simple.output_csv := Simple.output_csv w;
          Simple.log := Simple.log w ++ t ++ [LogError ErrorOccurred] |}).
Proof.
  intros payload t. unfold Simple.process_chunk. fold payload.
  destruct (simple_make_api_call_outcome post payload) as [Hresp _]. subst t.
  destruct (Simple.make_api_call post payload) as [r t]. cbn [fst snd] in *. subst r.
  destruct (status_code (outcome post) =? 200)%Z.
  - unfold json. destruct (body (outcome post)) as [response_data|]; [|done].
    by rewrite write_output_spec.
  - by destruct (Simple.writerows fieldnames rows (Simple.failed_records w)).
Qed.

(** X11. In [tokenize_data.py] a response with status 200 is taken as it
    comes: the worker writes one output line for each row that has a record
    at its position, in the order of the rows, and stops at the shorter of
    the two lists. The rows beyond the last record are written to no file,
    no exception is raised, and the only trace in the log is the message that
    the tokenization was unsuccessful, which is written only when the
    [records] key is missing or a record has no token map. *)
Theorem rows_without_a_record_are_dropped
    (post : nat -> Response) (rows : list Simple.DictRow) (fieldnames : list string)
    (w : Simple.world) (response_data : ResponseData) :
  status_code (outcome post) = 200%Z ->
  body (outcome post) = Some response_data ->
  let recs := default [] (records response_data) in
  let run := Simple.process_chunk post rows fieldnames w in
  let payload := {| quorum := false; payload_records := rows;
                    tokenization := Some true |} in
  run.1 = Ok tt /\
  Simple.temp_output run.2
    = Simple.temp_output w
        ++ map (fun '(original_row, record) => output_line fieldnames original_row record)
               (Py.zip rows recs) /\
  length (Simple.temp_output run.2)
    = length (Simple.temp_output w) + min (length rows) (length recs) /\
  Simple.failed_records run.2 = Simple.failed_records w /\
  errors (Simple.log run.2)
    = errors (Simple.log w) ++ errors (Simple.make_api_call post payload).2
        ++ (if Simple.well_structured response_data then []
            else [TokenizationUnsuccessful]).
Proof.
  intros Hstatus Hbody recs run payload. subst run.
  rewrite simple_process_chunk_eq. cbv zeta. rewrite Hstatus, Hbody. simpl Z.eqb.
  cbv iota. cbn [fst snd Simple.temp_output Simple.failed_records Simple.log].
  repeat split.
  - by rewrite length_app, length_map, zip_length.
  - unfold errors. rewrite !omap_app.
    by destruct (Simple.well_structured response_data).
Qed.

Lemma rows_without_a_record_are_dropped_witness :
  let response :=
    {| status_code := 200;
       body := Some {| records :=
                         Some [ {| skyflow_id := Some "id1";
                                   tokens := Some {[ "name" := "tokA" ]} |} ] |} |} in
  let w := {| Simple.temp_output := []; Simple.failed_records := [];
              Simple.output_csv := []; Simple.log := [] |} in
  let rows := map (Simple.dict_of_row ["name"]) [["A"]; ["B"]; ["C"]] in
  length (Simple.temp_output (Simple.process_chunk (fun _ => response) rows ["name"] w).2)
    = 1 /\
  Simple.failed_records (Simple.process_chunk (fun _ => response) rows ["name"] w).2 = [].
Proof.
  intros response w rows.
  destruct (rows_without_a_record_are_dropped
              (fun _ => response) rows ["name"] w
              {| records := Some [ {| skyflow_id := Some "id1";
                                      tokens := Some {[ "name" := "tokA" ]} |} ] |}
              eq_refl eq_refl) as (_ & _ & Hlen & Hfailed & _).
  split; [exact Hlen|exact Hfailed].
Defined.

(** X12. A response with status 200 whose body is not JSON: in
    [tokenize_data.py] the exception of [response.json()] is caught by the
    loop over the futures, logged as a generated exception, and the run goes
    on; the rows of the chunk are written neither to the output nor to the
    failed records file. In the CSV and PostgreSQL scripts the same response
    makes [process_chunk] raise [JSONDecodeError], which nothing catches. *)
Theorem undecodable_response_is_logged_or_raised (post : nat -> Response) :
  status_code (outcome post) = 200%Z ->
  body (outcome post) = None ->
  (forall (server : nat -> nat -> Response) (i : nat) (rows : list Simple.DictRow)
          (fieldnames : list string) (w : Simple.world),
     server i = post ->
     let w' := Simple.worker server fieldnames w (i, rows) in
     Simple.temp_output w' = Simple.temp_output w /\
     Simple.failed_records w' = Simple.failed_records w /\
     last (errors (Simple.log w')) = Some (GeneratedException JSONDecodeError)) /\
  (forall (rows : list row) (skip all_columns : list string)
          (payload : Payload (gmap string string)),
     Csv.build_payload rows skip all_columns = Ok payload ->
     (Csv.process_chunk post rows skip all_columns).1 = Raise JSONDecodeError /\
     (Postgres.process_chunk post rows skip all_columns).1 = Raise JSONDecodeError).
Proof.
  intros Hstatus Hbody. split.
  - intros server i rows fieldnames w Hserver w'. subst w'. unfold Simple.worker.
    cbn [fst snd]. rewrite Hserver, simple_process_chunk_eq. cbv zeta.
    rewrite Hstatus, Hbody. simpl Z.eqb. cbv iota.
    cbn [Simple.temp_output Simple.failed_records Simple.log]. repeat split.
    unfold errors. rewrite omap_app. simpl. by rewrite last_snoc.
  - intros rows skip all_columns payload Hpayload. unfold Postgres.process_chunk.
    rewrite (csv_process_chunk_eq _ _ _ _ _ Hpayload). cbv zeta.
    by rewrite Hstatus, Hbody.
Qed.

Lemma undecodable_response_is_logged_or_raised_witness :
  let w := {| Simple.temp_output := [["skyflow_id"; "name"]]; Simple.failed_records := [];
              Simple.output_csv := []; Simple.log := [] |} in
  let w' := Simple.worker (fun _ _ => {| status_code := 200; body := None |}) ["name"] w
                          (0, [Simple.dict_of_row ["name"] ["A"]]) in
  Simple.temp_output w' = [["skyflow_id"; "name"]] /\ Simple.failed_records w' = [].
Proof.
  intros w w'.
  destruct (proj1 (undecodable_response_is_logged_or_raised
                     (fun _ => {| status_code := 200; body := None |}) eq_refl eq_refl)
                  (fun _ _ => {| status_code := 200; body := None |}) 0
                  [Simple.dict_of_row ["name"] ["A"]] ["name"] w eq_refl)
    as (Htemp & Hfailed & _).
  split; [exact Htemp|exact Hfailed].
Defined.

(** ** Reading and writing dictionaries *)

Lemma zip_take_l {A B} (l : list A) (k : list B) :
  Py.zip l k = Py.zip (take (length k) l) k.
Proof.
  revert k. induction l as [|a l IH]; intros [|b k]; simpl; try done.
  by rewrite <- IH.
Qed.

Lemma dict_of_row_padded (fieldnames : list string) (line : row) :
  NoDup fieldnames ->
  length line <= length fieldnames ->
  let d := Simple.dict_of_row fieldnames line in
  Simple.dict_to_list fieldnames (Simple.known d) (bool_decide (is_Some (Simple.rest d)))
    = Ok (padded fieldnames line).
Proof.
  intros Hnd Hle d. subst d.
  destruct (decide (length line = length fieldnames)) as [Heq|Hne].
  { destruct (dict_of_row_aligned fieldnames line Hnd Heq) as [Hal _].
    cbv zeta in Hal. rewrite Hal.
    unfold padded. by rewrite Heq, Nat.sub_diag, app_nil_r. }
  assert (length line < length fieldnames) as Hlt by lia.
  unfold Simple.dict_of_row.
  destruct (Nat.ltb_spec (length fieldnames) (length line)); [lia|].
  destruct (Nat.ltb_spec (length line) (length fieldnames)); [|lia].
  cbn [Simple.known Simple.rest]. rewrite (zip_take_l fieldnames line).
  assert (NoDup (take (length line) fieldnames)) as Hnd'.
  { rewrite <- (take_drop (length line) fieldnames) in Hnd.
    by apply NoDup_app in Hnd as [? _]. }
  destruct (zip_dict_lookup (take (length line) fieldnames) line ∅ Hnd') as [Hin Hout];
    [rewrite length_take; lia|].
  cbv zeta in Hin, Hout. set (d0 := foldl _ ∅ (Py.zip _ line)) in *.
  pose proof (foldl_insert_lookup (fun _ : string => @None string)
                (drop (length line) fieldnames) d0) as Hpad.
  set (d := foldl _ d0 (drop (length line) fieldnames)) in *.
  unfold Simple.dict_to_list.
  rewrite bool_decide_eq_false_2 by (by intros [? ?]). cbn [orb].
  rewrite bool_decide_eq_true_2.
  - cbn [negb]. f_equal. unfold padded. apply list_eq. intros j.
    rewrite list_lookup_fmap.
    destruct (fieldnames !! j) as [f|] eqn:Hj; cbn [fmap option_fmap option_map].
    + rewrite Hpad. destruct (decide (j < length line)) as [Hjl|Hjl].
      * assert (take (length line) fieldnames !! j = Some f) as Hjt
          by (by rewrite lookup_take_lt).
        rewrite decide_False.
        -- rewrite (Hin j f Hjt), lookup_app_l by done.
           destruct (lookup_lt_is_Some_2 line j Hjl) as [c ->]. done.
        -- intros Hdrop. apply list_elem_of_lookup in Hdrop as [j' Hj'].
           rewrite lookup_drop in Hj'.
           pose proof (NoDup_lookup _ _ _ _ Hnd Hj Hj'). lia.
      * rewrite decide_True.
        -- rewrite lookup_app_r by lia. simpl.
           symmetry. apply lookup_replicate_2. apply lookup_lt_Some in Hj. lia.
        -- apply list_elem_of_lookup. exists (j - length line).
           rewrite lookup_drop. rewrite <- Hj. f_equal. lia.
    + symmetry. apply lookup_ge_None. apply lookup_ge_None in Hj.
      rewrite length_app, length_replicate. lia.
  - apply elem_of_subseteq. intros key Hkey. apply elem_of_dom in Hkey.
    apply elem_of_list_to_set. rewrite Hpad in Hkey.
    destruct (decide (key ∈ drop (length line) fieldnames)) as [Hd|Hd].
    + rewrite <- (take_drop (length line) fieldnames). apply elem_of_app. by right.
    + destruct (decide (key ∈ take (length line) fieldnames)) as [Ht|Ht].
      * rewrite <- (take_drop (length line) fieldnames). apply elem_of_app. by left.
      * rewrite (Hout key Ht), lookup_empty in Hkey. by destruct Hkey.
Qed.

Lemma dict_of_row_long (fieldnames : list string) (line : row) :
  length fieldnames < length line ->
  let d := Simple.dict_of_row fieldnames line in
  Simple.dict_to_list fieldnames (Simple.known d) (bool_decide (is_Some (Simple.rest d)))
    = Raise ValueError.
Proof.
  intros Hlt d. subst d. unfold Simple.dict_of_row.
  destruct (Nat.ltb_spec (length fieldnames) (length line)); [|lia].
  cbn [Simple.known Simple.rest]. unfold Simple.dict_to_list.
  by rewrite bool_decide_eq_true_2 by by eexists.
Qed.

Lemma writerows_padded (fieldnames : list string) (lines : list row) :
  NoDup fieldnames ->
  Forall (fun line => length line <= length fieldnames) lines ->
  forall file,
    Simple.writerows fieldnames (map (Simple.dict_of_row fieldnames) lines) file
    = (Ok tt, file ++ map (padded fieldnames) lines).
Proof.
  intros Hnd Hlines. induction Hlines as [|line lines Hline _ IH]; intros file.
  - by rewrite app_nil_r.
  - cbn [map Simple.writerows]. rewrite (dict_of_row_padded _ _ Hnd Hline), IH.
    by rewrite <- app_assoc.
Qed.

Lemma writerows_long (fieldnames : list string) (good : list row) (long : row)
    (after : list row) :
  NoDup fieldnames ->
  Forall (fun line => length line <= length fieldnames) good ->
  length fieldnames < length long ->
  forall file,
    Simple.writerows fieldnames
      (map (Simple.dict_of_row fieldnames) (good ++ long :: after)) file
    = (Raise ValueError, file ++ map (padded fieldnames) good).
Proof.
  intros Hnd Hgood Hlong. induction Hgood as [|line good Hline _ IH]; intros file.
  - cbn [app map Simple.writerows]. rewrite (dict_of_row_long _ _ Hlong).
    by rewrite app_nil_r.
  - cbn [app map Simple.writerows]. rewrite (dict_of_row_padded _ _ Hnd Hline), IH.
    by rewrite <- app_assoc.
Qed.

(** X13. The rows of a chunk whose call failed go back to the failed
    records file as they were read, in their order: a line that is not
    longer than the header is written with its own values, filled up with
    empty values to the width of the header, and the worker ends without an
    exception. Nothing is written to the output. *)
Theorem failed_rows_are_written_back_padded
    (post : nat -> Response) (fieldnames : list string) (lines : list row)
    (w : Simple.world) :
  NoDup fieldnames ->
  Forall (fun line => length line <= length fieldnames) lines ->
  status_code (outcome post) <> 200%Z ->
  let run := Simple.process_chunk post (map (Simple.dict_of_row fieldnames) lines)
                                  fieldnames w in
  run.1 = Ok tt /\
  Simple.failed_records run.2
    = Simple.failed_records w ++ map (padded fieldnames) lines /\
  Simple.temp_output run.2 = Simple.temp_output w.
Proof.
  intros Hnd Hlines Hstatus run. subst run. rewrite simple_process_chunk_eq. cbv zeta.
  destruct (Z.eqb_spec (status_code (outcome post)) 200) as [|_]; [done|].
  by rewrite (writerows_padded _ _ Hnd Hlines).
Qed.

Lemma failed_rows_are_written_back_padded_witness :
  let w := {| Simple.temp_output := []; Simple.failed_records := [];
              Simple.output_csv := []; Simple.log := [] |} in
  Simple.failed_records
    (Simple.process_chunk (fun _ => {| status_code := 500; body := None |})
       (map (Simple.dict_of_row ["name"; "ssn"]) [["A"; "111"]; ["B"]])
       ["name"; "ssn"] w).2
  = [["A"; "111"]; ["B"; ""]].
Proof.
  intros w.
  refine (proj1 (proj2 (failed_rows_are_written_back_padded
                          (fun _ => {| status_code := 500; body := None |})
                          ["name"; "ssn"] [["A"; "111"]; ["B"]] w _ _ _))).
  - refine (bool_decide_unpack _ _). vm_compute. exact I.
  - repeat constructor.
  - discriminate.
Defined.

(** X14. A line with more values than the header has names cannot be
    written back: when the call of its chunk failed, [writerows] raises
    [ValueError] at that line. The lines of the chunk before it are in the
    failed records file, the line itself and the lines after it are in no
    file, and the exception is logged by the loop over the futures. *)
Theorem long_line_cuts_the_failed_records
    (server : nat -> nat -> Response) (i : nat) (fieldnames : list string)
    (good : list row) (long : row) (after : list row) (w : Simple.world) :
  NoDup fieldnames ->
  Forall (fun line => length line <= length fieldnames) good ->
  length fieldnames < length long ->
  status_code (outcome (server i)) <> 200%Z ->
  let rows := map (Simple.dict_of_row fieldnames) (good ++ long :: after) in
  (Simple.process_chunk (server i) rows fieldnames w).1 = Raise ValueError /\
  let w' := Simple.worker server fieldnames w (i, rows) in
  Simple.failed_records w' = Simple.failed_records w ++ map (padded fieldnames) good /\
  Simple.temp_output w' = Simple.temp_output w /\
  last (errors (Simple.log w')) = Some (GeneratedException ValueError).
Proof.
  intros Hnd Hgood Hlong Hstatus rows. subst rows. unfold Simple.worker. cbn [fst snd].
  rewrite simple_process_chunk_eq. cbv zeta.
  destruct (Z.eqb_spec (status_code (outcome (server i))) 200) as [|_]; [done|].
  rewrite (writerows_long _ _ _ _ Hnd Hgood Hlong).
  cbn [fst snd Simple.temp_output Simple.failed_records Simple.log]. repeat split.
  unfold errors. rewrite omap_app. simpl. by rewrite last_snoc.
Qed.

Lemma long_line_cuts_the_failed_records_witness :
  let w := {| Simple.temp_output := []; Simple.failed_records := [];
              Simple.output_csv := []; Simple.log := [] |} in
  (Simple.process_chunk (fun _ => {| status_code := 500; body := None |})
     (map (Simple.dict_of_row ["name"]) [["A"]; ["B"; "x"]; ["C"]]) ["name"] w).1
  = Raise ValueError.
Proof.
  intros w.
  refine (proj1 (long_line_cuts_the_failed_records
                   (fun _ _ => {| status_code := 500; body := None |}) 0 ["name"]
                   [["A"]] ["B"; "x"] [["C"]] w _ _ _ _)).
  - refine (bool_decide_unpack _ _). vm_compute. exact I.
  - repeat constructor.
  - simpl. lia.
  - discriminate.
Defined.

(** ** The chunks of tokenize_data.py *)

(** X15. [tokenize_data.py] accepts any integer as [--r]. With a chunk size
    of zero or less the first pass of the reading loop reads nothing and
    ends it: no chunk is formed, no call is made, the failed records file
    stays empty and the output file holds the header line alone, whatever
    the input file contains and whatever the pool does. *)
Theorem nonpositive_chunk_size_reads_nothing
    (server : nat -> nat -> Response)
    (concurrent_appends : Simple.file -> list (nat * list row) -> list row)
    (concurrent_log : list (nat * list (event Simple.DictRow))
                      -> list (event Simple.DictRow))
    (MAX_PARALLEL_TASKS ROWS_PER_CHUNK : Z) (fieldnames : list string)
    (lines : list row) (w0 : Simple.world) :
  (ROWS_PER_CHUNK <= 0)%Z ->
  Simple.chunk_loop (S (length lines)) fieldnames ROWS_PER_CHUNK lines [] = Some [] /\
  Simple.main server concurrent_appends concurrent_log MAX_PARALLEL_TASKS
              ROWS_PER_CHUNK fieldnames lines w0
    = Some {| Simple.temp_output := [ "skyflow_id" :: fieldnames ];
              Simple.failed_records := [];
              Simple.output_csv := read_back [ "skyflow_id" :: fieldnames ];
              Simple.log := [] |}.
Proof.
  intros Hk.
  assert (Simple.chunk_loop (S (length lines)) fieldnames ROWS_PER_CHUNK lines []
          = Some []) as Hloop.
  { cbn [Simple.chunk_loop]. replace (Z.to_nat ROWS_PER_CHUNK) with 0 by lia. done. }
  split; [exact Hloop|]. unfold Simple.main, Simple.appended. rewrite Hloop.
  by destruct (MAX_PARALLEL_TASKS =? 1)%Z.
Qed.

Lemma nonpositive_chunk_size_reads_nothing_witness :
  let w0 := {| Simple.temp_output := []; Simple.failed_records := [["old"]];
               Simple.output_csv := []; Simple.log := [] |} in
  Simple.main (fun _ _ => {| status_code := 200; body := None |})
              (fun _ blocks => flat_map snd (reverse blocks)) (flat_map snd) 5 0 ["name"]
              [["A"]; ["B"]] w0
  = Some {| Simple.temp_output := [["skyflow_id"; "name"]];
            Simple.failed_records := [];
            Simple.output_csv := [["skyflow_id"; "name"]];
            Simple.log := [] |}.
Proof.
  intros w0.
  refine (proj2 (nonpositive_chunk_size_reads_nothing
                   (fun _ _ => {| status_code := 200; body := None |})
                   (fun _ blocks => flat_map snd (reverse blocks)) (flat_map snd)
                   5 0 ["name"] [["A"]; ["B"]] w0 _)).
  reflexivity.
Defined.

Lemma chunk_loop_sizes (fieldnames : list string) (ROWS_PER_CHUNK : Z) (fuel : nat) :
  0 < Z.to_nat ROWS_PER_CHUNK ->
  forall (reader : list row) (acc chunks : list (list Simple.DictRow)),
    Simple.chunk_loop fuel fieldnames ROWS_PER_CHUNK reader acc = Some chunks ->
    exists new,
      chunks = acc ++ new /\
      (filter (fun r : row => r <> []) reader = [] -> new = []) /\
      forall i c,
        new !! i = Some c ->
        0 < length c <= Z.to_nat ROWS_PER_CHUNK /\
        (S i < length new -> length c = Z.to_nat ROWS_PER_CHUNK).
Proof.
  intros Hpos. induction fuel as [|fuel IH]; intros reader acc chunks Hloop; [done|].
  simpl in Hloop.
  destruct (next_rows_spec fieldnames (Z.to_nat ROWS_PER_CHUNK) reader) as [Hrows Hrest].
  destruct (Simple.next_rows fieldnames (Z.to_nat ROWS_PER_CHUNK) reader) as [rs reader'].
  simpl in Hrows, Hrest. rewrite Hrows in Hloop.
  set (ne := filter (fun r : row => r <> []) reader) in *.
  destruct (map _ (take _ ne)) as [|d ds] eqn:Hchunk.
  - injection Hloop as <-. exists []. rewrite app_nil_r. repeat split; try done.
    all: by rewrite lookup_nil in H.
  - destruct (IH _ _ _ Hloop) as (new' & Hchunks & Hempty & Hsizes).
    exists ((d :: ds) :: new'). split; [by rewrite Hchunks, <- app_assoc|].
    split.
    { intros Hne. rewrite Hne, take_nil in Hchunk. discriminate Hchunk. }
    assert (length (d :: ds) = min (Z.to_nat ROWS_PER_CHUNK) (length ne)) as Hlen
      by (by rewrite <- Hchunk, length_map, length_take).
    intros [|i] c Hc.
    + injection Hc as <-. split; [simpl in *; lia|].
      intros Hmore. rewrite Hlen.
      destruct (decide (length ne <= Z.to_nat ROWS_PER_CHUNK)) as [Hshort|]; [|lia].
      rewrite Hempty in Hmore; [simpl in Hmore; lia|].
      rewrite Hrest. by apply drop_ge.
    + destruct (Hsizes i c Hc) as [Hbounds Hfull]. split; [exact Hbounds|].
      intros Hmore. apply Hfull. simpl in Hmore. lia.
Qed.

(** X16. With a chunk size of at least one, [tokenize_data.py] cuts the
    lines of the input file that are not blank into consecutive chunks, in
    the order of the file: every chunk but the last has exactly
    [ROWS_PER_CHUNK] rows, the last one has between one and [ROWS_PER_CHUNK],
    no chunk is empty, and the chunks put end to end are the rows of the
    file. The reading loop ends for every file. *)
Theorem simple_chunks_have_rows_per_chunk_rows
    (fieldnames : list string) (ROWS_PER_CHUNK : Z) (lines : list row) :
  (0 < ROWS_PER_CHUNK)%Z ->
  exists chunks,
    Simple.chunk_loop (S (length lines)) fieldnames ROWS_PER_CHUNK lines [] = Some chunks /\
    concat chunks
      = map (Simple.dict_of_row fieldnames) (filter (fun line : row => line <> []) lines) /\
    forall i c,
      chunks !! i = Some c ->
      (0 < Z.of_nat (length c) <= ROWS_PER_CHUNK)%Z /\
      (S i < length chunks -> Z.of_nat (length c) = ROWS_PER_CHUNK).
Proof.
  intros Hk.
  destruct (chunk_loop_total fieldnames ROWS_PER_CHUNK (S (length lines)) lines [])
    as [chunks Hloop]; [lia|].
  exists chunks. split; [exact Hloop|]. split.
  - by rewrite (chunk_loop_concat fieldnames ROWS_PER_CHUNK _ ltac:(lia) _ _ _ Hloop).
  - destruct (chunk_loop_sizes fieldnames ROWS_PER_CHUNK _ ltac:(lia) _ _ _ Hloop)
      as (new & -> & _ & Hsizes).
    intros i c Hc. destruct (Hsizes i c Hc) as [Hbounds Hfull]. split; [lia|].
    intros Hmore. specialize (Hfull Hmore). lia.
Qed.

Lemma simple_chunks_have_rows_per_chunk_rows_witness :
  exists chunks,
    Simple.chunk_loop 5 ["name"] 2 [["A"]; []; ["B"]; ["C"]] [] = Some chunks /\
    forall i c, chunks !! i = Some c -> (0 < Z.of_nat (length c) <= 2)%Z.
Proof.
  destruct (simple_chunks_have_rows_per_chunk_rows ["name"] 2 [["A"]; []; ["B"]; ["C"]])
    as (chunks & Hloop & _ & Hsizes).
  - reflexivity.
  - exists chunks. split; [exact Hloop|].
    intros i c Hc. exact (proj1 (Hsizes i c Hc)).
Defined.

(** X17. When the input file of [tokenize_data.py] has a column named
    [skyflow_id], the id that the service returns for a record is lost: the
    first cell of the output line, under the [skyflow_id] heading that the
    script adds, holds the token of that column, or its original value when
    the record has no token for it, as does the cell of the column itself. *)
Theorem source_column_skyflow_id_hides_the_record_id
    (fieldnames : list string) (original_row : Simple.DictRow) (record : ApiRecord)
    (file : list row) :
  "skyflow_id" ∈ fieldnames ->
  Simple.write_output fieldnames [(original_row, record)] file
  = (Ok tt,
     file ++ [ csv_cell (token_or_original record original_row "skyflow_id")
               :: map (fun field => csv_cell (token_or_original record original_row field))
                      fieldnames ]).
Proof.
  intros Hin. rewrite write_output_spec. cbn [map]. unfold output_line.
  by rewrite decide_True.
Qed.

Lemma source_column_skyflow_id_hides_the_record_id_witness :
  Simple.write_output ["skyflow_id"; "name"]
    [(Simple.dict_of_row ["skyflow_id"; "name"] ["7"; "A"],
      {| skyflow_id := Some "id-from-vault"; tokens := Some {[ "name" := "tokA" ]} |})] []
  = (Ok tt, [["7"; "7"; "tokA"]]).
Proof.
  refine (source_column_skyflow_id_hides_the_record_id
            ["skyflow_id"; "name"] (Simple.dict_of_row ["skyflow_id"; "name"] ["7"; "A"])
            {| skyflow_id := Some "id-from-vault"; tokens := Some {[ "name" := "tokA" ]} |}
            [] _).
  left.
Defined.

(** ** The columns *)

Lemma filter_all {A} (P : A -> Prop) `{!forall x, Decision (P x)} (l : list A) :
  (forall x, x ∈ l -> P x) -> filter P l = l.
Proof.
  induction l as [|x l IH]; intros Hall; [done|].
  rewrite filter_cons, decide_True by (apply Hall; by left).
  f_equal. apply IH. intros y Hy. apply Hall. by right.
Qed.

Lemma lower_non_empty (s : string) : s <> EmptyString -> Py.lower s <> EmptyString.
Proof. by destruct s. Qed.

(** X18. The column reconciler keeps the columns in the order of the
    header: the columns to tokenize are the lower-cased header with the
    skipped names taken out, nothing else is moved or dropped. The names
    are matched without regard to case and after trimming: a column of the
    header is tokenized exactly when no configured entry that is not blank
    is, once trimmed and lower-cased, the lower-cased name of the column. An
    empty [skip_columns] value skips nothing. The PostgreSQL script, which
    lower-cases each name once more before the test, returns the same three
    lists as the CSV script, the skip list being the configured entries
    trimmed and lower-cased. *)
Theorem tokenize_columns_keep_the_header_order
    (skip_cfg : string) (headers_row : row) (data_rows : list row) :
  exists tokenize,
    Csv.get_filtered_columns skip_cfg (headers_row :: data_rows)
      = Ok (tokenize, configured_skip_entries skip_cfg, map Py.lower headers_row) /\
    Postgres.get_filtered_columns skip_cfg headers_row
      = (tokenize, configured_skip_entries skip_cfg, map Py.lower headers_row) /\
    tokenize `sublist_of` map Py.lower headers_row /\
    (forall name,
       name ∈ headers_row ->
       (Py.lower name ∈ tokenize <->
        forall piece,
          piece ∈ Py.split "," skip_cfg -> Py.strip piece <> EmptyString ->
          Py.lower (Py.strip piece) <> Py.lower name)) /\
    (forall col, col ∈ tokenize -> exists name, name ∈ headers_row /\ col = Py.lower name) /\
    Forall (fun entry => entry <> EmptyString /\ Py.lower entry = entry)
           (configured_skip_entries skip_cfg) /\
    (skip_cfg = EmptyString ->
     configured_skip_entries skip_cfg = [] /\ tokenize = map Py.lower headers_row).
Proof.
  exists (filter (fun col => col ∉ configured_skip_entries skip_cfg)
                 (map Py.lower headers_row)).
  split; [|split; [|split; [|split; [|split; [|split]]]]].
  - unfold Csv.get_filtered_columns. cbn [Py.getitem lookup list_lookup Py.bind].
    by rewrite skip_entries_configured.
  - unfold Postgres.get_filtered_columns.
    by rewrite skip_entries_configured, postgres_filter_lower.
  - apply sublist_filter.
  - intros name Hname. rewrite list_elem_of_filter, configured_skip_entries_elem_of.
    split.
    + intros [Hskip _] piece Hpiece Hne Heq. apply Hskip. by exists piece.
    + intros Hnone. split.
      * intros (piece & Hpiece & Hne & Heq). by apply (Hnone piece).
      * apply list_elem_of_fmap. by exists name.
  - intros col Hcol. apply list_elem_of_filter in Hcol as [_ Hcol].
    apply list_elem_of_fmap in Hcol as (name & -> & Hname). by exists name.
  - apply Forall_forall. intros entry Hentry.
    apply configured_skip_entries_elem_of in Hentry as (piece & _ & Hne & ->). split.
    + by apply lower_non_empty.
    + apply lower_idemp.
  - intros ->. split; [reflexivity|]. apply filter_all. intros col _.
    apply not_elem_of_nil.
Qed.

(** ** A run of the CSV script in which every call succeeds *)

Lemma slices_concat (data_rows : list row) (k : Z) (offsets : list Z) :
  (0 < k)%Z ->
  Py.range 0 (Z.of_nat (length data_rows)) k = Ok offsets ->
  concat (map (fun offset => Py.slice data_rows offset (offset + k)) offsets) = data_rows.
Proof.
  intros Hk Hoffsets.
  destruct (range_positive_step (Z.of_nat (length data_rows)) k) as (m & Hr & Hlt & Hge);
    [lia|done|].
  rewrite Hr in Hoffsets. injection Hoffsets as <-. rewrite map_map.
  transitivity (take (m * Z.to_nat k) data_rows); [|apply take_ge; nia].
  rewrite <- windows_concat. f_equal. apply map_ext_in. intros i Hi.
  apply in_seq in Hi. specialize (Hlt i).
  rewrite slice_inside by lia.
  replace (Z.to_nat (Z.of_nat i * k)) with (i * Z.to_nat k) by nia.
  replace (Z.of_nat i * k + k - Z.of_nat i * k)%Z with k by lia.
  destruct (Z.min_spec k (Z.of_nat (length data_rows) - Z.of_nat i * k))
    as [[_ ->]|[Hle ->]]; [done|].
  rewrite !take_ge; [done|rewrite length_drop; nia|rewrite length_drop; nia].
Qed.

Lemma flat_map_length_concat {A B C} (f : A -> list B) (g : A -> list C) (l : list A) :
  (forall x, x ∈ l -> length (f x) = length (g x)) ->
  length (flat_map f l) = length (concat (map g l)).
Proof.
  induction l as [|x l IH]; intros Hlen; [done|].
  cbn [flat_map map concat]. rewrite !length_app, IH.
  - f_equal. apply Hlen. by left.
  - intros y Hy. apply Hlen. by right.
Qed.

(** X19. A run of the CSV script in which every chunk is answered, within
    its three attempts, with status 200 and one record with a token map per
    row loses and adds no row: whatever the order in which the chunks
    complete, the run ends normally and the output file holds the header and
    then exactly as many lines as the input has data rows, each with one
    cell more than the header has columns. *)
Theorem all_chunks_succeed_keeps_every_row
    (server : Z -> nat -> Response) (as_completed : list Csv.future -> list Csv.future)
    (config : Csv.Config) (headers_row : row) (data_rows : list row) (offsets : list Z) :
  (forall l, as_completed l ≡ₚ l) ->
  (0 < Csv.max_parallel_tasks config)%Z ->
  (0 < Csv.rows_per_chunk config)%Z ->
  NoDup (map Py.lower headers_row) ->
  Forall (fun r : row => length headers_row <= length r) data_rows ->
  Py.range 0 (Z.of_nat (length data_rows)) (Csv.rows_per_chunk config) = Ok offsets ->
  (forall offset, offset ∈ offsets ->
     succeeds (server offset)
              (length (Py.slice data_rows offset (offset + Csv.rows_per_chunk config)))
     = true) ->
  exists w out,
    Csv.main server as_completed config (headers_row :: data_rows) = (Ok tt, w) /\
    Csv.output_file w = Some (("skyflow_id" :: headers_row) :: out) /\
    length out = length data_rows /\
    Forall (fun line => length line = S (length headers_row)) out.
Proof.
  intros Hperm Hmt Hk Hnodup Hrows Hoffsets Hsucceeds.
  destruct (csv_main_collect server as_completed config headers_row data_rows offsets
              Hmt Hoffsets) as (H1 & H2 & H3).
  cbv zeta in H1, H2, H3.
  set (skip := map (fun col => Py.lower (Py.strip col))
                   (filter (fun col => Py.truthy (Py.strip col) = true)
                           (Py.split "," (Csv.skip_columns_cfg config)))) in *.
  set (all_columns := "skyflow_id" :: map Py.lower headers_row) in *.
  set (sub := submitted server data_rows (Csv.rows_per_chunk config) skip all_columns)
    in *.
  match type of H1 with
  | _ = (Csv.collect ?s []).1 => set (sched := s) in *
  end.
  assert (sched ≡ₚ map sub offsets) as Hsched.
  { subst sched. rewrite (flat_map_permuted as_completed _ Hperm), <- concat_map.
    by rewrite batches_concat_range; [|lia|exact Hoffsets]. }
  assert (forall offset, offset ∈ offsets ->
            exists result,
              (sub offset).2 = Ok result /\
              length result
                = length (Py.slice data_rows offset (offset + Csv.rows_per_chunk config)))
    as Hsub.
  { intros offset Hoff.
    destruct (succeeds_outcome _ _ (Hsucceeds offset Hoff))
      as (Hstatus & recs & Hbody & Hlen & Htokens).
    destruct (csv_success_rows (server offset) recs
                (Py.slice data_rows offset (offset + Csv.rows_per_chunk config))
                skip all_columns Hstatus Hbody Htokens Hlen) as (out & Hout & Hlout & _).
    - apply Forall_forall. intros r Hr. apply slice_elem_of in Hr.
      rewrite Forall_forall in Hrows. specialize (Hrows r Hr).
      subst all_columns. cbn [drop]. rewrite drop_0, length_map. exact Hrows.
    - subst all_columns. cbn [drop]. by rewrite drop_0.
    - exists out. split; [exact Hout|exact Hlout]. }
  assert (Csv.collect sched [] = (Ok tt, flat_map written sched)) as Hcollect.
  { apply (collect_all_ok sched []). apply Forall_forall. intros f Hf.
    rewrite Hsched in Hf. apply list_elem_of_fmap in Hf as (offset & -> & Hoff).
    destruct (Hsub offset Hoff) as (result & Hres & _). by exists result. }
  rewrite Hcollect in H1, H2, H3. cbn [fst snd Py.raises] in H1, H2, H3.
  destruct (Csv.main server as_completed config (headers_row :: data_rows))
    as [[[]|e] w]; [|discriminate H1].
  cbn [fst snd] in *. exists w, (read_back (flat_map written sched)).
  split; [reflexivity|]. split; [exact H3|]. unfold read_back. split.
  - rewrite length_map.
    rewrite (Permutation_length (flat_map_Permutation written _ _ Hsched)).
    rewrite flat_map_concat_map, map_map, <- flat_map_concat_map.
    rewrite (flat_map_length_concat _
               (fun offset => Py.slice data_rows offset (offset + Csv.rows_per_chunk config))).
    + by rewrite (slices_concat data_rows _ offsets Hk Hoffsets).
    + intros offset Hoff. destruct (Hsub offset Hoff) as (result & Hres & Hlen).
      unfold written. rewrite Hres, length_map. exact Hlen.
  - apply Forall_forall. intros line' Hline'.
    apply list_elem_of_fmap in Hline' as (line & -> & Hline). rewrite length_map.
    apply flat_map_elem_of in Hline as (f & Hf & Hline).
    rewrite Hsched in Hf. apply list_elem_of_fmap in Hf as (offset & -> & Hoff).
    destruct (Hsub offset Hoff) as (result & Hres & _).
    unfold written in Hline. rewrite Hres in Hline.
    apply list_elem_of_fmap in Hline as (cells & -> & Hcells).
    unfold sub, submitted in Hres. cbn [snd] in Hres.
    apply csv_process_chunk_width in Hres. rewrite Forall_forall in Hres.
    rewrite length_map, (Hres cells Hcells). subst all_columns. cbn [drop].
    by rewrite drop_0, length_map.
Qed.

Lemma all_chunks_succeed_keeps_every_row_witness :
  let ok (name : string) :=
    {| status_code := 200;
       body := Some {| records :=
                 Some [ {| skyflow_id := Some "id"; tokens := Some {[ "name" := name ]} |} ] |} |} in
  let server (offset : Z) (attempt : nat) :=
    if (attempt =? 0)%nat then {| status_code := 429; body := None |} else ok "tok" in
  let config := {| Csv.rows_per_chunk := 1; Csv.max_parallel_tasks := 2;
                   Csv.skip_columns_cfg := "" |} in
  exists w out,
    Csv.main server reverse config [["Name"]; ["A"]; ["B"]; ["C"]] = (Ok tt, w) /\
    Csv.output_file w = Some (["skyflow_id"; "Name"] :: out) /\
    length out = 3.
Proof.
  intros ok server config.
  destruct (all_chunks_succeed_keeps_every_row
              server reverse config ["Name"] [["A"]; ["B"]; ["C"]] [0; 1; 2]%Z)
    as (w & out & Hmain & Hout & Hlen & _).
  - intros l. apply reverse_Permutation.
  - reflexivity.
  - reflexivity.
  - refine (bool_decide_unpack _ _). vm_compute. exact I.
  - repeat constructor.
  - reflexivity.
  - intros offset Hoff.
    repeat (apply elem_of_cons in Hoff as [->|Hoff]; [reflexivity|]).
    by apply elem_of_nil in Hoff.
  - exists w, out. split; [exact Hmain|]. split; [exact Hout|exact Hlen].
Defined.
